(** * Take-profit orchestration: a shallow embedding of
      [app/services/orders/takeprofit_service.py]

    The Python module is embedded function by function.  Python values that
    reach the service through dictionaries are a small tagged union, floats
    are IEEE binary64 (Rocq's primitive floats), dictionaries are finite
    maps, and the collaborators the module imports (configuration lookup,
    trigger store, Redis, provider gateway, lifecycle registry, message
    queue, clock) are ports acting on an explicit world. *)

From Stdlib Require Import ZArith String Ascii List Floats DecimalString Lia.
From Equations Require Import Equations.
From stdpp Require Import base option gmap strings list fin_maps.
Import ListNotations.

Local Open Scope string_scope.
Local Open Scope Z_scope.

(** ** Python strings

    Strings are sequences of ASCII characters; [lower], [upper] and [strip]
    act as [str.lower], [str.upper] and [str.strip] do on them.  Code points
    above 127 are outside the model and are left untouched. *)

Definition lower_ascii (c : ascii) : ascii :=
  let n := nat_of_ascii c in
  if ((65 <=? n)%nat && (n <=? 90)%nat)%bool then ascii_of_nat (n + 32) else c.

Definition upper_ascii (c : ascii) : ascii :=
  let n := nat_of_ascii c in
  if ((97 <=? n)%nat && (n <=? 122)%nat)%bool then ascii_of_nat (n - 32) else c.

Fixpoint lower (s : string) : string :=
  match s with
  | EmptyString => EmptyString
  | String c s' => String (lower_ascii c) (lower s')
  end.

Fixpoint upper (s : string) : string :=
  match s with
  | EmptyString => EmptyString
  | String c s' => String (upper_ascii c) (upper s')
  end.

(** [str.isspace] on one ASCII character: tab, line feed, vertical tab, form
    feed, carriage return, the four separators 0x1c-0x1f and the space. *)
Definition isspace (c : ascii) : bool :=
  let n := nat_of_ascii c in
  (((9 <=? n)%nat && (n <=? 13)%nat) || ((28 <=? n)%nat && (n <=? 32)%nat))%bool.

Fixpoint lstrip (s : string) : string :=
  match s with
  | EmptyString => EmptyString
  | String c s' => if isspace c then lstrip s' else s
  end.

(** [rstrip] drops the trailing run of whitespace: a whitespace character is
    kept only if something that survives follows it. *)
Fixpoint rstrip (s : string) : string :=
  match s with
  | EmptyString => EmptyString
  | String c s' =>
      match rstrip s' with
      | EmptyString => if isspace c then EmptyString else String c EmptyString
      | r => String c r
      end
  end.

Definition strip (s : string) : string := rstrip (lstrip s).

(** ** Exceptions and outcomes *)

Inductive exn : Type :=
| TypeError
| ValueError
| OverflowError
| AttributeError
| PortError (msg : string).

Inductive outcome (A : Type) : Type :=
| Ret (a : A)
| Raise (e : exn).
Arguments Ret {A} a.
Arguments Raise {A} e.

(** ** Python values held by payloads and lookup results *)

Inductive value : Type :=
| VNone
| VBool (b : bool)
| VInt (z : Z)
| VFloat (f : float)
| VStr (s : string)
| VOther (repr : string) (truthy : bool).
(* [VOther] stands for any other object (list, dict, ...): [float()] raises
   [TypeError] on it, [str()] renders it as [repr], [bool()] is [truthy]. *)

(** The parts of the Python runtime the module calls and that are not
    list or dictionary plumbing. *)
Record Runtime : Type := {
  float_of_str : string -> option float;   (* float(s); None = ValueError *)
  str_of_float : float -> string;          (* str(f) *)
  (* orjson.loads: a dictionary or another object; None = it raises *)
  orjson_loads : string -> option (gmap string value + value);
}.

(** [float(n)] for an [int]: round to nearest even, [OverflowError] when the
    rounded value is not finite. *)
Definition float_of_int (z : Z) : outcome float :=
  match binary_normalize prec emax z 0 false with
  | S754_infinity _ => Raise OverflowError
  | sf => Ret (SF2Prim sf)
  end.

Definition py_float (rt : Runtime) (v : value) : outcome float :=
  match v with
  | VNone => Raise TypeError
  | VBool b => Ret (if b then 1%float else 0%float)
  | VInt z => float_of_int z
  | VFloat f => Ret f
  | VStr s =>
      match float_of_str rt s with
      | Some f => Ret f
      | None => Raise ValueError
      end
  | VOther _ _ => Raise TypeError
  end.

Definition str_of_int (z : Z) : string := NilZero.string_of_int (Z.to_int z).

Definition py_str (rt : Runtime) (v : value) : string :=
  match v with
  | VNone => "None"
  | VBool true => "True"
  | VBool false => "False"
  | VInt z => str_of_int z
  | VFloat f => str_of_float rt f
  | VStr s => s
  | VOther repr _ => repr
  end.

Definition truthy (v : value) : bool :=
  match v with
  | VNone => false
  | VBool b => b
  | VInt z => negb (z =? 0)
  | VFloat f => negb (PrimFloat.eqb f 0%float)
  | VStr s => negb (String.eqb s "")
  | VOther _ t => t
  end.

(** [x or y] *)
Definition py_or (x y : value) : value := if truthy x then x else y.

(** [d.get(k)] on a dictionary of values: [None] when the key is absent. *)
Definition dget (d : gmap string value) (k : string) : value :=
  default VNone (d !! k).

(** [d.get(k)] on a Redis hash, whose fields are strings. *)
Definition hfield (d : gmap string string) (k : string) : value :=
  match d !! k with
  | Some s => VStr s
  | None => VNone
  end.

(** Line 13: [_safe_float].  [TypeError] and [ValueError] are turned into
    [None]; any other exception of [float()] propagates. *)
Definition _safe_float (rt : Runtime) (v : value) : outcome (option float) :=
  match v with
  | VNone => Ret None
  | _ =>
      match py_float rt v with
      | Ret f => Ret (Some f)
      | Raise TypeError => Ret None
      | Raise ValueError => Ret None
      | Raise e => Raise e
      end
  end.

(** ** Stores, messages and port calls *)

(** A row of the trigger-monitor store, as [upsert_order_triggers] receives
    it (lines 81-91). *)
Record Trigger : Type := {
  trg_order_id : string;
  trg_symbol : string;
  trg_side : string;
  trg_user_type : string;
  trg_user_id : string;
  trg_stop_loss : option float;
  trg_take_profit : float;
  trg_score_stop_loss : option float;
  trg_score_take_profit : float;
}.

(** The [db_msg] dictionaries handed to the publisher (lines 119-125 and
    295-300); [take_profit] is a key of the first only. *)
Record Event : Type := {
  ev_type : string;
  ev_order_id : string;
  ev_user_id : string;
  ev_user_type : string;
  ev_take_profit : option float;
}.

(** A float in a JSON body written by [orjson.dumps]: a number when it is
    finite, [null] when it is a NaN or an infinity. *)
Inductive JsonNumber : Type :=
| JNull
| JNumber (f : float).

(** The body of a queued message, [orjson.dumps(db_msg)] of lines 133 and
    305; [body_take_profit] is [None] when the body has no such key. *)
Record Body : Type := {
  body_type : string;
  body_order_id : string;
  body_user_id : string;
  body_user_type : string;
  body_take_profit : option JsonNumber;
}.

Definition json_of_float (f : float) : JsonNumber :=
  if PrimFloat.is_finite f then JNumber f else JNull.

Definition orjson_dumps (e : Event) : Body :=
  {| body_type := ev_type e; body_order_id := ev_order_id e;
     body_user_id := ev_user_id e; body_user_type := ev_user_type e;
     body_take_profit := json_of_float <$> ev_take_profit e |}.

(** The [provider_payload] dictionaries; an optional key is an [option]. *)
Record ProviderPayload : Type := {
  pp_order_id : string;
  pp_symbol : string;
  pp_order_status : option string;
  pp_status : string;
  pp_order_type : string;
  pp_takeprofit : option float;
  pp_type : string;
  pp_contract_value : option float;
  pp_order_quantity : option float;
  pp_takeprofit_id : option string;
  pp_takeprofit_cancel_id : option string;
  pp_take_profit_cancel_id : option string;
}.

(** Commands buffered on a Redis pipeline. *)
Inductive RedisCmd : Type :=
| HSET (key : string) (mapping : list (string * string))
| HDEL (key field : string).

Inductive Level : Type := INFO | WARNING | ERROR.

(** Every call that leaves the module: reads and writes alike. *)
Inductive Call : Type :=
| CFetchUserConfig (user_type user_id : string)
| CFetchGroupData (symbol group : string)
| CUpsert (t : Trigger)
| CRemoveTrigger (order_id : string)
| CHSet (key : string) (mapping : list (string * string))
| CExecute (cmds : list RedisCmd)
| CHGetAll (key : string)
| CHGet (key field : string)
| CGet (key : string)
| CAddLifecycle (order_id ext_id kind : string)
| CSend (p : ProviderPayload)
| CPublish (e : Event)
| CSleep.

(** The world the service acts on.  [calls] is the trace of port calls
    issued so far (most recent first).  [now] is what [time.time()] reads,
    in milliseconds.  The two methods never read it.  For the waiter it is
    first a nominal clock, which a sleep advances by its 100 ms and nothing
    else does; [wait_loop_timed] lets every awaited call take time. *)
Record World : Type := {
  triggers : gmap string Trigger;
  hashes : gmap string (gmap string string);
  queue : list Body;
  registry : list (string * string * string);
  outbox : list ProviderPayload;
  logs : list (Level * string);
  now : Z;
  calls : list Call;
}.

(** How the collaborators answer.  The failure modes are the ones the module
    handles: the calls it wraps in [try] may raise ([raises], indexed by the
    number of port calls issued before and by the call); the trigger upsert
    and the gateway report failure through their return value;
    [fetch_user_config] returns a dictionary. *)
Record Ports : Type := {
  user_config : string -> string -> gmap string string;
  group_data : string -> string -> gmap string value;
  upsert_accepts : Trigger -> bool;
  send_reply : ProviderPayload -> bool * string;
  raises : nat -> Call -> option string;
  (* what a read-back of a hash field reports when it is not the stored
     field (a concurrent writer, a client that decodes differently) *)
  hget_observes : string -> string -> option (option string);
  (* value under a key of the acknowledgement channel at a given time *)
  ack_channel : Z -> string -> option string;
}.

Definition set_triggers (f : gmap string Trigger -> gmap string Trigger) (w : World) : World :=
  {| triggers := f (triggers w); hashes := hashes w; queue := queue w;
     registry := registry w; outbox := outbox w; logs := logs w;
     now := now w; calls := calls w |}.

Definition set_hashes (f : gmap string (gmap string string) -> gmap string (gmap string string))
    (w : World) : World :=
  {| triggers := triggers w; hashes := f (hashes w); queue := queue w;
     registry := registry w; outbox := outbox w; logs := logs w;
     now := now w; calls := calls w |}.

Definition set_queue (f : list Body -> list Body) (w : World) : World :=
  {| triggers := triggers w; hashes := hashes w; queue := f (queue w);
     registry := registry w; outbox := outbox w; logs := logs w;
     now := now w; calls := calls w |}.

Definition set_registry (f : list (string * string * string) -> list (string * string * string))
    (w : World) : World :=
  {| triggers := triggers w; hashes := hashes w; queue := queue w;
     registry := f (registry w); outbox := outbox w; logs := logs w;
     now := now w; calls := calls w |}.

Definition set_outbox (f : list ProviderPayload -> list ProviderPayload) (w : World) : World :=
  {| triggers := triggers w; hashes := hashes w; queue := queue w;
     registry := registry w; outbox := f (outbox w); logs := logs w;
     now := now w; calls := calls w |}.

Definition set_logs (f : list (Level * string) -> list (Level * string)) (w : World) : World :=
  {| triggers := triggers w; hashes := hashes w; queue := queue w;
     registry := registry w; outbox := outbox w; logs := f (logs w);
     now := now w; calls := calls w |}.

Definition set_now (f : Z -> Z) (w : World) : World :=
  {| triggers := triggers w; hashes := hashes w; queue := queue w;
     registry := registry w; outbox := outbox w; logs := logs w;
     now := f (now w); calls := calls w |}.

Definition set_calls (f : list Call -> list Call) (w : World) : World :=
  {| triggers := triggers w; hashes := hashes w; queue := queue w;
     registry := registry w; outbox := outbox w; logs := logs w;
     now := now w; calls := f (calls w) |}.

(** ** The monad of the service: state and exceptions *)

Definition M (A : Type) : Type := World -> outcome A * World.

Definition ret {A} (a : A) : M A := fun w => (Ret a, w).

Definition bind {A B} (m : M A) (k : A -> M B) : M B :=
  fun w =>
    match m w with
    | (Ret a, w') => k a w'
    | (Raise e, w') => (Raise e, w')
    end.

(** [try: m except Exception as e: h e]; effects of [m] before the exception
    stay. *)
Definition try_except {A} (m : M A) (h : exn -> M A) : M A :=
  fun w =>
    match m w with
    | (Ret a, w') => (Ret a, w')
    | (Raise e, w') => h e w'
    end.

Definition lift {A} (o : outcome A) : M A := fun w => (o, w).

Declare Scope svc_scope.
Delimit Scope svc_scope with svc.
Notation "'let*' x ':=' m 'in' k" := (bind m (fun x => k))
  (at level 10, x pattern, m at level 100, k at level 200) : svc_scope.
Notation "m ';;' k" := (bind m (fun _ => k))
  (at level 100, k at level 200, right associativity) : svc_scope.
Local Open Scope svc_scope.

Definition str_of_exn (e : exn) : string :=
  match e with
  | TypeError => "TypeError"
  | ValueError => "ValueError"
  | OverflowError => "OverflowError"
  | AttributeError => "AttributeError"
  | PortError msg => msg
  end.

(** ** Results of the two operations

    One constructor per dictionary shape the methods return. *)
Inductive Result : Type :=
| MissingFields (fields : list string)
| InvalidOrderType
| InvalidTakeProfit
| UnsupportedFlow (user_type sending_orders : string)
| UpsertTriggersFailed
| ProviderSendFailed (via : string)
| RedisStatusUpdateFailed (error : string)
| AddedLocal (order_id symbol order_type : string) (take_profit score_take_profit : float)
| AddedProvider (order_id symbol order_type : string) (take_profit_sent : float)
| CancelledLocal (order_id symbol order_type : string)
| CancelSentProvider (order_id symbol order_type : string).

(** The ["ok"] key. *)
Definition ok (r : Result) : bool :=
  match r with
  | AddedLocal _ _ _ _ _ | AddedProvider _ _ _ _
  | CancelledLocal _ _ _ | CancelSentProvider _ _ _ => true
  | _ => false
  end.

(** The ["reason"] key of a failure. *)
Definition reason (r : Result) : option string :=
  match r with
  | MissingFields _ => Some "missing_fields"
  | InvalidOrderType => Some "invalid_order_type"
  | InvalidTakeProfit => Some "invalid_take_profit"
  | UnsupportedFlow _ _ => Some "unsupported_flow"
  | UpsertTriggersFailed => Some "upsert_triggers_failed"
  | ProviderSendFailed via => Some ("provider_send_failed:" ++ via)
  | RedisStatusUpdateFailed _ => Some "redis_status_update_failed"
  | _ => None
  end.

(** The ["flow"] key of a success. *)
Definition flow_of (r : Result) : option string :=
  match r with
  | AddedLocal _ _ _ _ _ | CancelledLocal _ _ _ => Some "local"
  | AddedProvider _ _ _ _ | CancelSentProvider _ _ _ => Some "provider"
  | _ => None
  end.

Inductive Flow : Type := Local | Provider.

(** Lines 56-70 and, verbatim again, lines 257-271: the [if]/[elif] chain
    that sets [flow]; [None] is the final [else], which returns the
    [unsupported_flow] result. *)
Definition resolve_flow (user_type sending_orders : string) : option Flow :=
  if (String.eqb user_type "demo"
      || (String.eqb user_type "live" && String.eqb sending_orders "rock"))%bool
  then Some Local
  else if (String.eqb user_type "live" && String.eqb sending_orders "barclays")%bool
  then Some Provider
  else if (String.eqb user_type "strategy_provider"
           || String.eqb user_type "copy_follower")%bool
  then
    if String.eqb sending_orders "rock" then Some Local
    else if String.eqb sending_orders "barclays" then Some Provider
    else Some Provider
  else None.

(** The list comprehension of lines 37 and 242. *)
Definition missing_keys (required : list string) (payload : gmap string value) : list string :=
  List.filter (fun k => match payload !! k with None => true | Some _ => false end) required.

Definition order_data_key (order_id : string) : string := "order_data:" ++ order_id.

Definition holdings_key (user_type user_id order_id : string) : string :=
  "user_holdings:{" ++ (user_type ++ ":" ++ user_id) ++ "}:" ++ order_id.

(** [cfg.get("group") or "Standard"] *)
Definition cfg_group (cfg : gmap string string) : string :=
  match cfg !! "group" with
  | Some g => if String.eqb g "" then "Standard" else g
  | None => "Standard"
  end.

(** [(cfg.get("sending_orders") or "").strip().lower()] *)
Definition cfg_sending_orders (cfg : gmap string string) : string :=
  lower (strip (default "" (cfg !! "sending_orders"))).

(** Lines 76-79 and 155-158: the adjusted price. *)
Definition adjusted_price (side : string) (tp_raw half_spread : float) : float :=
  if String.eqb side "BUY" then (tp_raw + half_spread)%float
  else (tp_raw - half_spread)%float.

(** Lines 81-91: the row handed to [upsert_order_triggers]. *)
Definition takeprofit_trigger (order_id symbol side user_type user_id : string)
    (tp_raw score_tp : float) : Trigger :=
  {| trg_order_id := order_id; trg_symbol := symbol; trg_side := side;
     trg_user_type := user_type; trg_user_id := user_id;
     trg_stop_loss := None; trg_take_profit := tp_raw;
     trg_score_stop_loss := None; trg_score_take_profit := score_tp |}.

(** Lines 172-174: the pipeline that marks [status=TAKEPROFIT]. *)
Definition mark_takeprofit_cmds (order_id user_id user_type symbol side : string)
  : list RedisCmd :=
  [HSET (order_data_key order_id)
     [("status", "TAKEPROFIT"); ("symbol", symbol); ("order_type", side)];
   HSET (holdings_key user_type user_id order_id) [("status", "TAKEPROFIT")]].

(** Lines 282-286: the pipeline of the local cancel. *)
Definition clear_takeprofit_cmds (order_id user_id user_type symbol side : string)
  : list RedisCmd :=
  [HDEL (order_data_key order_id) "take_profit";
   HDEL (holdings_key user_type user_id order_id) "take_profit";
   HSET (order_data_key order_id)
     [("status", "OPEN"); ("symbol", symbol); ("order_type", side)];
   HSET (holdings_key user_type user_id order_id) [("status", "OPEN")]].

(** Lines 363-365: the pipeline that marks [status=TAKEPROFIT-CANCEL]. *)
Definition mark_cancel_cmds (order_id user_id user_type symbol side
    takeprofit_cancel_id : string) : list RedisCmd :=
  [HSET (order_data_key order_id)
     [("status", "TAKEPROFIT-CANCEL"); ("symbol", symbol); ("order_type", side);
      ("takeprofit_cancel_id", takeprofit_cancel_id)];
   HSET (holdings_key user_type user_id order_id) [("status", "TAKEPROFIT-CANCEL")]].

(** Lines 210-225: the take-profit message for the provider. *)
Definition takeprofit_payload (order_id symbol order_status_in side : string)
    (provider_tp : float) (contract_value qty : option float)
    (takeprofit_id : option string) : ProviderPayload :=
  {| pp_order_id := order_id; pp_symbol := symbol;
     pp_order_status := Some order_status_in; pp_status := "TAKEPROFIT";
     pp_order_type := side; pp_takeprofit := Some provider_tp; pp_type := "order";
     pp_contract_value := contract_value; pp_order_quantity := qty;
     pp_takeprofit_id := takeprofit_id;
     pp_takeprofit_cancel_id := None; pp_take_profit_cancel_id := None |}.

(** Lines 333-343: the cancel message for the provider. *)
Definition cancel_payload (order_id symbol side takeprofit_id takeprofit_cancel_id : string)
  : ProviderPayload :=
  {| pp_order_id := order_id; pp_symbol := symbol; pp_order_status := None;
     pp_status := "TAKEPROFIT-CANCEL"; pp_order_type := side;
     pp_takeprofit := None; pp_type := "order";
     pp_contract_value := None; pp_order_quantity := None;
     pp_takeprofit_id := Some takeprofit_id;
     pp_takeprofit_cancel_id := Some takeprofit_cancel_id;
     pp_take_profit_cancel_id :=
       if negb (String.eqb takeprofit_cancel_id "")
       then Some takeprofit_cancel_id else None |}.

(** ** Port calls as monadic primitives *)

Section Service.
Context (rt : Runtime) (ports : Ports).

Definition record (c : Call) : M unit :=
  fun w => (Ret tt, set_calls (cons c) w).

(** A call the module guards with [try]: it is recorded and may raise. *)
Definition guarded (c : Call) : M unit :=
  fun w =>
    match raises ports (length (calls w)) c with
    | Some msg => (Raise (PortError msg), set_calls (cons c) w)
    | None => (Ret tt, set_calls (cons c) w)
    end.

Definition log (l : Level) (template : string) : M unit :=
  fun w => (Ret tt, set_logs (cons (l, template)) w).

(** Modelled from the spec: [order_repository.fetch_user_config] is not part
    of the sources; sections 1 and 3 give a lookup that returns the account
    configuration (group, routing preference), fetched fresh per request. *)
Definition fetch_user_config (user_type user_id : string) : M (gmap string string) :=
  record (CFetchUserConfig user_type user_id);;
  ret (user_config ports user_type user_id).

(** Modelled from the spec: [order_repository.fetch_group_data] is not part
    of the sources; section 3 gives a lookup of the group's market parameters
    that may fail.  A failure is an exception here; an answer that is no
    dictionary would raise at the [.get] that follows, inside the same
    [try]. *)
Definition fetch_group_data (symbol group : string) : M (gmap string value) :=
  guarded (CFetchGroupData symbol group);;
  ret (group_data ports symbol group).

(** Modelled from the spec: [sl_tp_repository.upsert_order_triggers] is not
    part of the sources; section 6 gives [Upsert(...) -> bool], and the
    trigger store holds one row per order id. *)
Definition upsert_order_triggers (t : Trigger) : M bool :=
  record (CUpsert t);;
  if upsert_accepts ports t
  then fun w => (Ret true, set_triggers (insert (trg_order_id t) t) w)
  else ret false.

(** Modelled from the spec: [sl_tp_repository.remove_takeprofit_trigger] is
    not part of the sources; section 6 gives [Remove(order_id)], which takes
    the trigger of that order out of the store. *)
Definition remove_takeprofit_trigger (order_id : string) : M unit :=
  guarded (CRemoveTrigger order_id);;
  fun w => (Ret tt, set_triggers (delete order_id) w).

Definition hash_at (h : gmap string (gmap string string)) (key : string) : gmap string string :=
  default ∅ (h !! key).

(** HSET writes the fields of the mapping over the hash under [key]. *)
Definition apply_hset (key : string) (mapping : list (string * string))
    (h : gmap string (gmap string string)) : gmap string (gmap string string) :=
  <[key := foldl (fun acc kv => <[kv.1 := kv.2]> acc) (hash_at h key) mapping]> h.

Definition apply_hdel (key field : string)
    (h : gmap string (gmap string string)) : gmap string (gmap string string) :=
  <[key := delete field (hash_at h key)]> h.

Definition apply_cmd (h : gmap string (gmap string string)) (c : RedisCmd)
  : gmap string (gmap string string) :=
  match c with
  | HSET key mapping => apply_hset key mapping h
  | HDEL key field => apply_hdel key field h
  end.

Definition redis_hset (key : string) (mapping : list (string * string)) : M unit :=
  guarded (CHSet key mapping);;
  fun w => (Ret tt, set_hashes (apply_hset key mapping) w).

(** [await pipe.execute()]: the buffered commands run in order; when the
    call raises none of them is applied. *)
Definition pipe_execute (cmds : list RedisCmd) : M unit :=
  guarded (CExecute cmds);;
  fun w => (Ret tt, set_hashes (fun h => foldl apply_cmd h cmds) w).

Definition redis_hgetall (key : string) : M (gmap string string) :=
  guarded (CHGetAll key);;
  fun w => (Ret (hash_at (hashes w) key), w).

Definition redis_hget (key field : string) : M (option string) :=
  guarded (CHGet key field);;
  fun w =>
    match hget_observes ports key field with
    | Some v => (Ret v, w)
    | None => (Ret (hash_at (hashes w) key !! field), w)
    end.

Definition redis_get (key : string) : M (option string) :=
  guarded (CGet key);;
  fun w => (Ret (ack_channel ports (now w) key), w).

(** Modelled from the spec: [order_registry.add_lifecycle_id] is not part of
    the sources; section 6 gives [Add(order_id, external_id, kind)], a
    best-effort association in an append-only registry. *)
Definition add_lifecycle_id (order_id ext_id kind : string) : M unit :=
  guarded (CAddLifecycle order_id ext_id kind);;
  fun w => (Ret tt, set_registry (cons (order_id, ext_id, kind)) w).

(** Modelled from the spec: [service_provider_client.send_provider_order] is
    not part of the sources; section 6 gives [Send(payload) -> (ok, channel)].
    An accepted payload is on its way to the provider. *)
Definition send_provider_order (p : ProviderPayload) : M (bool * string) :=
  record (CSend p);;
  let r := send_reply ports p in
  if r.1
  then fun w => (Ret r, set_outbox (cons p) w)
  else ret r.

(** The [aio_pika] block: connect, declare the durable queue, serialise
    [db_msg] with [orjson.dumps], publish one persistent message, close.  Any
    step may raise; the body is in the queue only when none did. *)
Definition publish (e : Event) : M unit :=
  guarded (CPublish e);;
  fun w => (Ret tt, set_queue (cons (orjson_dumps e)) w).

(** [await asyncio.sleep(0.1)], at its nominal duration. *)
Definition sleep_100ms : M unit :=
  record CSleep;;
  fun w => (Ret tt, set_now (fun t => t + 100) w).

(** ** Lines 22-32: [_compute_half_spread] *)

Definition _compute_half_spread (symbol group : string) : M float :=
  try_except
    (let* g := fetch_group_data symbol group in
     let* spread := lift (_safe_float rt (dget g "spread")) in
     let* spread_pip := lift (_safe_float rt (dget g "spread_pip")) in
     match spread, spread_pip with
     | Some sp, Some pip => ret (sp * pip / 2)%float
     | _, _ => ret 0%float
     end)
    (fun e =>
       log WARNING "half_spread compute failed for %s/%s: %s";;
       ret 0%float).


(** ** Lines 36-239: [TakeProfitService.add_takeprofit] *)

(** Lines 74-151, the local flow. *)
Definition add_local (order_id user_id user_type symbol side : string)
    (tp_raw half_spread : float) : M Result :=
  let score_tp := adjusted_price side tp_raw half_spread in
  let* accepted :=
    upsert_order_triggers
      (takeprofit_trigger order_id symbol side user_type user_id tp_raw score_tp) in
  if negb accepted then ret UpsertTriggersFailed
  else
    try_except
      (redis_hset (order_data_key order_id)
         [("symbol", symbol); ("order_type", side); ("user_type", user_type);
          ("user_id", user_id); ("take_profit", str_of_float rt tp_raw)])
      (fun _ => ret tt);;
    try_except
      (redis_hset (holdings_key user_type user_id order_id)
         [("take_profit", str_of_float rt tp_raw)])
      (fun _ => ret tt);;
    try_except
      (publish {| ev_type := "ORDER_TAKEPROFIT_SET"; ev_order_id := order_id;
                  ev_user_id := user_id; ev_user_type := user_type;
                  ev_take_profit := Some tp_raw |})
      (fun _ => log WARNING "Failed to publish DB update for takeprofit set: %s");;
    ret (AddedLocal order_id symbol side tp_raw score_tp).

(** Lines 180-195: quantity, entry price and an existing contract value,
    from the payload first and from the canonical Redis record otherwise. *)
Definition resolve_quantities (payload : gmap string value) (order_id : string)
  : M (option float * option float * option float) :=
  let* qty := lift (_safe_float rt (dget payload "order_quantity")) in
  let* entry_price := lift (_safe_float rt (dget payload "order_price")) in
  match qty, entry_price with
  | Some _, Some _ => ret (qty, entry_price, None)
  | _, _ =>
      try_except
        (let* od := redis_hgetall (order_data_key order_id) in
         let* qty' :=
           match qty with
           | None => lift (_safe_float rt (hfield od "order_quantity"))
           | Some _ => ret qty
           end in
         let* entry_price' :=
           match entry_price with
           | None => lift (_safe_float rt (hfield od "order_price"))
           | Some _ => ret entry_price
           end in
         let* cv_existing :=
           if bool_decide (od = ∅) then ret None
           else lift (_safe_float rt (hfield od "contract_value")) in
         ret (qty', entry_price', cv_existing))
        (fun _ => ret (qty, entry_price, None))
  end.

(** Lines 196-208. *)
Definition resolve_contract_value (symbol group : string)
    (qty entry_price cv_existing : option float) : M (option float) :=
  try_except
    (match cv_existing with
     | Some cv => ret (Some cv)
     | None =>
         let* gdata := fetch_group_data symbol group in
         let* cs := lift (_safe_float rt (dget gdata "contract_size")) in
         let contract_size :=
           match cs with
           | Some c => if PrimFloat.eqb c 0%float then 1%float else c
           | None => 1%float
           end in
         match qty, entry_price with
         | Some q, Some e => ret (Some (contract_size * q * e)%float)
         | _, _ => ret None
         end
     end)
    (fun _ => ret None).

(** Lines 153-239, the provider flow. *)
Definition add_provider (payload : gmap string value)
    (order_id user_id user_type symbol side group : string)
    (tp_raw half_spread : float) : M Result :=
  let provider_tp := adjusted_price side tp_raw half_spread in
  (if truthy (dget payload "takeprofit_id")
   then try_except
          (add_lifecycle_id order_id (py_str rt (dget payload "takeprofit_id")) "takeprofit_id")
          (fun _ => log WARNING "add_lifecycle_id takeprofit_id failed: %s")
   else ret tt);;
  try_except
    (pipe_execute (mark_takeprofit_cmds order_id user_id user_type symbol side))
    (fun _ => ret tt);;
  let order_status_in := py_str rt (py_or (dget payload "order_status") (VStr "OPEN")) in
  let* (qty, entry_price, cv_existing) := resolve_quantities payload order_id in
  let* contract_value := resolve_contract_value symbol group qty entry_price cv_existing in
  let provider_payload :=
    takeprofit_payload order_id symbol order_status_in side provider_tp contract_value qty
      (if truthy (dget payload "takeprofit_id")
       then Some (py_str rt (dget payload "takeprofit_id")) else None) in
  let* (sent, via) := send_provider_order provider_payload in
  if negb sent then ret (ProviderSendFailed via)
  else ret (AddedProvider order_id symbol side provider_tp).

Definition required_add : list string :=
  ["order_id"; "user_id"; "user_type"; "symbol"; "order_type"; "take_profit"].

Definition valid_side (side : string) : bool :=
  (String.eqb side "BUY" || String.eqb side "SELL")%bool.

Definition add_takeprofit (payload : gmap string value) : M Result :=
  match missing_keys required_add payload with
  | (_ :: _) as missing => ret (MissingFields missing)
  | [] =>
      let order_id := py_str rt (dget payload "order_id") in
      let user_id := py_str rt (dget payload "user_id") in
      let user_type := lower (py_str rt (dget payload "user_type")) in
      let symbol := upper (py_str rt (dget payload "symbol")) in
      let side := upper (py_str rt (dget payload "order_type")) in
      if negb (valid_side side) then ret InvalidOrderType
      else
        let* tp := lift (_safe_float rt (dget payload "take_profit")) in
        match tp with
        | None => ret InvalidTakeProfit
        | Some tp_raw =>
            if (tp_raw <=? 0)%float then ret InvalidTakeProfit
            else
              let* cfg := fetch_user_config user_type user_id in
              let group := cfg_group cfg in
              let sending_orders := cfg_sending_orders cfg in
              match resolve_flow user_type sending_orders with
              | None => ret (UnsupportedFlow user_type sending_orders)
              | Some flow =>
                  let* half_spread := _compute_half_spread symbol group in
                  match flow with
                  | Local =>
                      add_local order_id user_id user_type symbol side tp_raw half_spread
                  | Provider =>
                      add_provider payload order_id user_id user_type symbol side group
                        tp_raw half_spread
                  end
              end
        end
  end.

(** ** Lines 241-393: [TakeProfitService.cancel_takeprofit] *)

(** Lines 273-322, the local flow. *)
Definition cancel_local (order_id user_id user_type symbol side : string) : M Result :=
  try_except (remove_takeprofit_trigger order_id) (fun _ => ret tt);;
  try_except
    (pipe_execute (clear_takeprofit_cmds order_id user_id user_type symbol side))
    (fun _ => ret tt);;
  try_except
    (publish {| ev_type := "ORDER_TAKEPROFIT_CANCEL"; ev_order_id := order_id;
                ev_user_id := user_id; ev_user_type := user_type;
                ev_take_profit := None |})
    (fun _ => log WARNING "Failed to publish DB update for takeprofit cancel: %s");;
  ret (CancelledLocal order_id symbol side).

(** Lines 354-382: the routing-status write and its read-back.  [Some r] is
    the [return] of the outer [except]; [None] falls through to line 384. *)
Definition mark_cancel_status (order_id user_id user_type symbol side
    takeprofit_cancel_id : string) : M (option Result) :=
  try_except
    (log INFO "TAKEPROFIT-CANCEL setting Redis status for order_id=%s order_data_key=%s";;
     pipe_execute
       (mark_cancel_cmds order_id user_id user_type symbol side takeprofit_cancel_id);;
     log INFO "TAKEPROFIT-CANCEL status set in Redis for order_id=%s pipeline_result=%s";;
     try_except
       (let* verification := redis_hget (order_data_key order_id) "status" in
        log INFO "TAKEPROFIT-CANCEL status verification for order_id=%s current_status=%s";;
        if bool_decide (verification = Some "TAKEPROFIT-CANCEL") then ret tt
        else log ERROR
               "TAKEPROFIT-CANCEL status verification FAILED for order_id=%s expected=TAKEPROFIT-CANCEL actual=%s")
       (fun _ => log ERROR "TAKEPROFIT-CANCEL status verification error for order_id=%s: %s");;
     ret None)
    (fun e =>
       log ERROR "Failed to set TAKEPROFIT-CANCEL status in Redis for order_id=%s: %s";;
       ret (Some (RedisStatusUpdateFailed (str_of_exn e)))).

(** Lines 324-393, the provider flow. *)
Definition cancel_provider (payload : gmap string value)
    (order_id user_id user_type symbol side : string) : M Result :=
  let takeprofit_cancel_id :=
    strip (py_str rt (py_or (dget payload "takeprofit_cancel_id") (VStr ""))) in
  (if negb (String.eqb takeprofit_cancel_id "")
   then try_except
          (add_lifecycle_id order_id takeprofit_cancel_id "takeprofit_cancel_id")
          (fun _ => log WARNING "add_lifecycle_id takeprofit_cancel_id failed: %s")
   else ret tt);;
  let takeprofit_id :=
    strip (py_str rt (py_or (dget payload "takeprofit_id") (VStr ""))) in
  let provider_payload :=
    cancel_payload order_id symbol side takeprofit_id takeprofit_cancel_id in
  log INFO "Takeprofit cancel sending via persistent connection for order_id=%s";;
  let* (sent, via) := send_provider_order provider_payload in
  if negb sent then ret (ProviderSendFailed via)
  else
    log INFO "Takeprofit cancel sent via persistent connection (%s) for order_id=%s";;
    let* failed :=
      mark_cancel_status order_id user_id user_type symbol side takeprofit_cancel_id in
    match failed with
    | Some r => ret r
    | None => ret (CancelSentProvider order_id symbol side)
    end.

Definition required_cancel : list string :=
  ["order_id"; "user_id"; "user_type"; "symbol"; "order_type"; "takeprofit_id"].

Definition cancel_takeprofit (payload : gmap string value) : M Result :=
  match missing_keys required_cancel payload with
  | (_ :: _) as missing => ret (MissingFields missing)
  | [] =>
      let order_id := strip (py_str rt (dget payload "order_id")) in
      let user_id := strip (py_str rt (dget payload "user_id")) in
      let user_type := strip (lower (py_str rt (dget payload "user_type"))) in
      let symbol := strip (upper (py_str rt (dget payload "symbol"))) in
      let side := strip (upper (py_str rt (dget payload "order_type"))) in
      if negb (valid_side side) then ret InvalidOrderType
      else
        let* cfg := fetch_user_config user_type user_id in
        let sending_orders := cfg_sending_orders cfg in
        match resolve_flow user_type sending_orders with
        | None => ret (UnsupportedFlow user_type sending_orders)
        | Some Local => cancel_local order_id user_id user_type symbol side
        | Some Provider => cancel_provider payload order_id user_id user_type symbol side
        end
  end.

(** ** Lines 396-419: [_wait_for_provider_ack] *)

(** [(data or {})] of line 409, where [data] is what [orjson.loads] gave or
    [None]: a dictionary stays, a falsy object becomes the empty dictionary,
    and on any other object the [.get] that follows raises. *)
Definition data_or_empty (data : option (gmap string value + value))
  : outcome (gmap string value) :=
  match data with
  | None => Ret ∅
  | Some (inl d) => Ret d
  | Some (inr v) => if truthy v then Raise AttributeError else Ret ∅
  end.

(** Lines 402-413: one pass through the [try] of the loop body; [Some s] is
    the [return ord_status]. *)
Definition poll_once (key : string) (expect : list string) : M (option string) :=
  try_except
    (let* raw := redis_get key in
     match raw with
     | Some r =>
         if String.eqb r "" then ret None
         else
           let* d := lift (data_or_empty (orjson_loads rt r)) in
           let ord_status :=
             upper (py_str rt (py_or (dget d "ord_status") (VStr ""))) in
           if bool_decide (ord_status ∈ expect) then ret (Some ord_status)
           else ret None
     | None => ret None
     end)
    (fun _ => ret None).

Definition after_poll (key : string) (expect : list string) (w : World) : World :=
  (sleep_100ms (poll_once key expect w).2).2.

(** The [while time.time() < deadline] loop.  Time is the world's clock; it
    advances by the 100 ms of each sleep. *)
Equations? wait_loop (key : string) (expect : list string) (deadline : Z) (w : World)
  : option string * World by wf (Z.to_nat (deadline - now w)) lt :=
  wait_loop key expect deadline w with Z_lt_dec (now w) deadline => {
    | right _ => (None, w)
    | left _ with (poll_once key expect w).1 => {
        | Ret (Some s) => (Some s, (poll_once key expect w).2)
        | _ => wait_loop key expect deadline (after_poll key expect w) } }.
Proof.
  all: assert (Hnow : now (poll_once key expect w).2 = now w)
    by (cbv [poll_once try_except bind redis_get guarded lift ret];
        destruct (raises ports _ _); simpl; [reflexivity |];
        destruct (ack_channel ports _ _) as [r |]; simpl; [| reflexivity];
        destruct (String.eqb r ""); simpl; [reflexivity |];
        destruct (data_or_empty _); simpl; [| reflexivity];
        destruct (bool_decide _); reflexivity).
  all: unfold after_poll, sleep_100ms, bind, record; simpl; lia.
Qed.

Definition _wait_for_provider_ack (any_id : string) (expected_statuses : list value)
    (timeout_ms : Z) (w : World) : option string * World :=
  let deadline := now w + timeout_ms in
  let key := "provider:ack:" ++ any_id in
  let expect := map (fun s => upper (py_str rt s)) expected_statuses in
  wait_loop key expect deadline w.

End Service.

(** ** Views of a request

    The locals the two methods compute from the payload and the account
    configuration, named so that the statements below can refer to them. *)

Section Views.
Context (rt : Runtime) (ports : Ports).

Definition add_order_id (p : gmap string value) : string := py_str rt (dget p "order_id").
Definition add_user_id (p : gmap string value) : string := py_str rt (dget p "user_id").
Definition add_user_type (p : gmap string value) : string :=
  lower (py_str rt (dget p "user_type")).
Definition add_symbol (p : gmap string value) : string := upper (py_str rt (dget p "symbol")).
Definition add_side (p : gmap string value) : string := upper (py_str rt (dget p "order_type")).

Definition add_cfg (p : gmap string value) : gmap string string :=
  user_config ports (add_user_type p) (add_user_id p).

Definition cancel_order_id (p : gmap string value) : string :=
  strip (py_str rt (dget p "order_id")).
Definition cancel_user_id (p : gmap string value) : string :=
  strip (py_str rt (dget p "user_id")).
Definition cancel_user_type (p : gmap string value) : string :=
  strip (lower (py_str rt (dget p "user_type"))).
Definition cancel_symbol (p : gmap string value) : string :=
  strip (upper (py_str rt (dget p "symbol"))).
Definition cancel_side (p : gmap string value) : string :=
  strip (upper (py_str rt (dget p "order_type"))).

Definition cancel_cfg (p : gmap string value) : gmap string string :=
  user_config ports (cancel_user_type p) (cancel_user_id p).

(** A payload that passes lines 37-50 with take-profit [tp_raw]. *)
Definition add_validated (p : gmap string value) (tp_raw : float) : Prop :=
  missing_keys required_add p = []
  /\ valid_side (add_side p) = true
  /\ _safe_float rt (dget p "take_profit") = Ret (Some tp_raw)
  /\ (tp_raw <=? 0)%float = false.

(** A payload that passes lines 242-252. *)
Definition cancel_validated (p : gmap string value) : Prop :=
  missing_keys required_cancel p = [] /\ valid_side (cancel_side p) = true.

(** "Parses as a number": [float()] succeeds on a value that is there. *)
Definition parse_number (v : value) : option float :=
  match v with
  | VNone => None
  | _ => match py_float rt v with Ret f => Some f | Raise _ => None end
  end.

(** The number [_compute_half_spread] returns in world [w]: the formula when
    the lookup answers and both parameters parse, zero otherwise. *)
Definition half_spread_value (symbol group : string) (w : World) : float :=
  match raises ports (length (calls w)) (CFetchGroupData symbol group) with
  | Some _ => 0%float
  | None =>
      match parse_number (dget (group_data ports symbol group) "spread"),
            parse_number (dget (group_data ports symbol group) "spread_pip")
      with
      | Some sp, Some pip => (sp * pip / 2)%float
      | _, _ => 0%float
      end
  end.

(** The world once [fetch_user_config] has been called (lines 53, 254). *)
Definition add_configured (p : gmap string value) (w : World) : World :=
  set_calls (cons (CFetchUserConfig (add_user_type p) (add_user_id p))) w.

Definition cancel_configured (p : gmap string value) (w : World) : World :=
  set_calls (cons (CFetchUserConfig (cancel_user_type p) (cancel_user_id p))) w.

(** The flow lines 56-70 and 257-271 resolve for a payload. *)
Definition add_flow (p : gmap string value) : option Flow :=
  resolve_flow (add_user_type p) (cfg_sending_orders (add_cfg p)).

Definition cancel_flow (p : gmap string value) : option Flow :=
  resolve_flow (cancel_user_type p) (cfg_sending_orders (cancel_cfg p)).

(** [half_spread] of line 72 and the adjusted price of lines 76-79 and
    155-158 for a request that starts in world [w]. *)
Definition add_half_spread (p : gmap string value) (w : World) : float :=
  half_spread_value (add_symbol p) (cfg_group (add_cfg p)) (add_configured p w).

Definition add_adjusted (p : gmap string value) (tp_raw : float) (w : World) : float :=
  adjusted_price (add_side p) tp_raw (add_half_spread p w).

Definition add_trigger (p : gmap string value) (tp_raw : float) (w : World) : Trigger :=
  takeprofit_trigger (add_order_id p) (add_symbol p) (add_side p) (add_user_type p)
    (add_user_id p) tp_raw (add_adjusted p tp_raw w).


(** The pipelines and the cancel message of a request. *)
Definition add_mark (p : gmap string value) : list RedisCmd :=
  mark_takeprofit_cmds (add_order_id p) (add_user_id p) (add_user_type p) (add_symbol p)
    (add_side p).

Definition cancel_cancel_id (p : gmap string value) : string :=
  strip (py_str rt (py_or (dget p "takeprofit_cancel_id") (VStr ""))).

Definition cancel_takeprofit_id (p : gmap string value) : string :=
  strip (py_str rt (py_or (dget p "takeprofit_id") (VStr ""))).

Definition cancel_message (p : gmap string value) : ProviderPayload :=
  cancel_payload (cancel_order_id p) (cancel_symbol p) (cancel_side p)
    (cancel_takeprofit_id p) (cancel_cancel_id p).

Definition cancel_mark (p : gmap string value) : list RedisCmd :=
  mark_cancel_cmds (cancel_order_id p) (cancel_user_id p) (cancel_user_type p)
    (cancel_symbol p) (cancel_side p) (cancel_cancel_id p).

Definition cancel_clear (p : gmap string value) : list RedisCmd :=
  clear_takeprofit_cmds (cancel_order_id p) (cancel_user_id p) (cancel_user_type p)
    (cancel_symbol p) (cancel_side p).



(** The number of polls that start before a deadline [timeout_ms] away. *)
Definition rounds (timeout_ms : Z) : nat := Z.to_nat ((timeout_ms + 99) / 100).

(** The status line 409 reads off a decoded record. *)
Definition record_status (d : gmap string value) : string :=
  upper (py_str rt (py_or (dget d "ord_status") (VStr ""))).


(** Lines 399-400: the key polled and the set of expected statuses. *)
Definition ack_key (any_id : string) : string := "provider:ack:" ++ any_id.

Definition expected_upper (expected_statuses : list value) : list string :=
  map (fun s => upper (py_str rt s)) expected_statuses.


End Views.

(** The stores a request can write: everything except the trace of calls
    and the log. *)
Definition same_stores (w w' : World) : Prop :=
  triggers w' = triggers w /\ hashes w' = hashes w /\ queue w' = queue w
  /\ registry w' = registry w /\ outbox w' = outbox w /\ now w' = now w.




(** The decision table of section 4.1 of the specification, row by row;
    the first matching row wins. *)
Definition table_4_1 (account_type routing_preference : string) : option Flow :=
  let copy_trading :=
    (String.eqb account_type "strategy_provider"
     || String.eqb account_type "copy_follower")%bool in
  if String.eqb account_type "demo" then Some Local
  else if (String.eqb account_type "live" && String.eqb routing_preference "rock")%bool
  then Some Local
  else if (String.eqb account_type "live" && String.eqb routing_preference "barclays")%bool
  then Some Provider
  else if (copy_trading && String.eqb routing_preference "rock")%bool then Some Local
  else if (copy_trading && String.eqb routing_preference "barclays")%bool then Some Provider
  else if copy_trading then Some Provider
  else if String.eqb account_type "live" then None
  else None.

(** The flow a result comes from.  Apart from the validation and resolution
    failures, every result shape is returned by one flow only. *)
Definition path_of (r : Result) : option Flow :=
  match r with
  | UpsertTriggersFailed | AddedLocal _ _ _ _ _ | CancelledLocal _ _ _ => Some Local
  | ProviderSendFailed _ | RedisStatusUpdateFailed _
  | AddedProvider _ _ _ _ | CancelSentProvider _ _ _ => Some Provider
  | MissingFields _ | InvalidOrderType | InvalidTakeProfit | UnsupportedFlow _ _ => None
  end.

(** An outcome of a request resolved to flow [f]: a result of that flow, or
    the [OverflowError] that the unguarded [_safe_float] calls of lines
    181-182 let through on the provider flow. *)
Definition outcome_on_path (f : Flow) (o : outcome Result) : Prop :=
  match o with
  | Ret r => path_of r = Some f
  | Raise e => f = Provider /\ e = OverflowError
  end.

(** The log entry of line 375. *)
Definition verification_failed : Level * string :=
  (ERROR,
   "TAKEPROFIT-CANCEL status verification FAILED for order_id=%s expected=TAKEPROFIT-CANCEL actual=%s").

(** ** Fixtures for the examples

    A runtime that knows the literals the examples use, collaborators that
    accept every call, and an empty world. *)

Definition table_runtime (floats : list (string * float))
    (records : list (string * (gmap string value + value))) : Runtime :=
  {| float_of_str := fun s => snd <$> List.find (fun p => String.eqb p.1 s) floats;
     str_of_float := fun f =>
       default "?" (fst <$> List.find (fun p => PrimFloat.Leibniz.eqb p.2 f) floats);
     orjson_loads := fun s => snd <$> List.find (fun p => String.eqb p.1 s) records |}.

Definition quiet_ports (cfg : gmap string string) (g : gmap string value) : Ports :=
  {| user_config := fun _ _ => cfg;
     group_data := fun _ _ => g;
     upsert_accepts := fun _ => true;
     send_reply := fun _ => (true, "persistent");
     raises := fun _ _ => None;
     hget_observes := fun _ _ => None;
     ack_channel := fun _ _ => None |}.

Definition empty_world : World :=
  {| triggers := ∅; hashes := ∅; queue := []; registry := []; outbox := [];
     logs := []; now := 0; calls := [] |}.

(** The text [{"ord_status": "cancelled"}]. *)
Definition cancelled_json : string :=
  let q := String (ascii_of_nat 34) EmptyString in
  "{" ++ q ++ "ord_status" ++ q ++ ": " ++ q ++ "cancelled" ++ q ++ "}".

Definition rt0 : Runtime :=
  table_runtime
    [("1.2", 0x1.3333333333333p+0%float); ("2", 2%float);
     ("0.0001", 0x1.a36e2eb1c432dp-14%float)]
    [(cancelled_json, inl {["ord_status" := VStr "cancelled"]})].

Definition group_2_pips : gmap string value :=
  list_to_map [("spread", VInt 2); ("spread_pip", VFloat 0x1.a36e2eb1c432dp-14%float)].


(** Collaborators that answer like [quiet_ports] except that the calls
    selected by [faulty] raise. *)
Definition faulty_ports (cfg : gmap string string) (g : gmap string value)
    (faulty : Call -> bool) : Ports :=
  {| user_config := fun _ _ => cfg;
     group_data := fun _ _ => g;
     upsert_accepts := fun _ => true;
     send_reply := fun _ => (true, "persistent");
     raises := fun _ c => if faulty c then Some "connection lost" else None;
     hget_observes := fun _ _ => None;
     ack_channel := fun _ _ => None |}.

Definition cache_or_queue_write (c : Call) : bool :=
  match c with
  | CHSet _ _ | CExecute _ | CPublish _ => true
  | _ => false
  end.

(** The request of the specification's first example. *)
Definition demo_buy : gmap string value :=
  list_to_map
    [("order_id", VStr "O1"); ("user_id", VStr "U1"); ("user_type", VStr "demo");
     ("symbol", VStr "eurusd"); ("order_type", VStr "buy");
     ("take_profit", VFloat 0x1.3333333333333p+0%float)].


Definition live_buy : gmap string value := <["user_type" := VStr "live"]> demo_buy.

Definition demo_cancel : gmap string value :=
  list_to_map
    [("order_id", VStr "O1"); ("user_id", VStr "U1"); ("user_type", VStr "demo");
     ("symbol", VStr "eurusd"); ("order_type", VStr "buy"); ("takeprofit_id", VStr "TP1")].

Definition live_cancel : gmap string value := <["user_type" := VStr "live"]> demo_cancel.

Definition barclays_cfg : gmap string string := {["sending_orders" := "Barclays "]}.


(** Collaborators whose acknowledgement channel holds [record] under every
    key from time [since] on. *)
Definition acking_ports (since : Z) (record : string) : Ports :=
  {| user_config := fun _ _ => ∅;
     group_data := fun _ _ => ∅;
     upsert_accepts := fun _ => true;
     send_reply := fun _ => (true, "persistent");
     raises := fun _ _ => None;
     hget_observes := fun _ _ => None;
     ack_channel := fun t _ => if since <=? t then Some record else None |}.


(** Collaborators that answer like [quiet_ports] except that the gateway
    refuses every order through [via]. *)
Definition refusing_ports (cfg : gmap string string) (g : gmap string value)
    (via : string) : Ports :=
  {| user_config := fun _ _ => cfg;
     group_data := fun _ _ => g;
     upsert_accepts := fun _ => true;
     send_reply := fun _ => (false, via);
     raises := fun _ _ => None;
     hget_observes := fun _ _ => None;
     ack_channel := fun _ _ => None |}.

(** Collaborators that answer like [quiet_ports] except that a read-back of
    a hash field reports [seen]. *)
Definition misreading_ports (cfg : gmap string string) (g : gmap string value)
    (seen : option string) : Ports :=
  {| user_config := fun _ _ => cfg;
     group_data := fun _ _ => g;
     upsert_accepts := fun _ => true;
     send_reply := fun _ => (true, "persistent");
     raises := fun _ _ => None;
     hget_observes := fun _ _ => Some seen;
     ack_channel := fun _ _ => None |}.

(** Requests whose take-profit is not a positive number and yet is not
    [None], not text and not at most zero. *)
Definition demo_buy_nan : gmap string value := <["take_profit" := VFloat nan]> demo_buy.

Definition demo_buy_huge : gmap string value :=
  <["take_profit" := VInt (10 ^ 400)]> demo_buy.

(** The demo request and its cancel with a space before the order id. *)
Definition padded_buy : gmap string value := <["order_id" := VStr " O1"]> demo_buy.

Definition padded_cancel : gmap string value := <["order_id" := VStr " O1"]> demo_cancel.


(** The live request with a quantity and an entry price of its own. *)
Definition live_buy_sized : gmap string value :=
  <["order_quantity" := VInt 2]> (<["order_price" := VStr "1.2"]> live_buy).

(** The live request with a quantity no float can hold. *)
Definition live_buy_oversized : gmap string value :=
  <["order_quantity" := VInt (10 ^ 400)]> live_buy.

(** A world whose cache holds the record of order [O1]. *)
Definition recorded_world : World :=
  {| triggers := ∅;
     hashes := {[ order_data_key "O1" :=
                    list_to_map [("order_quantity", "2"); ("order_price", "1.2");
                                 ("contract_value", "2")] ]};
     queue := []; registry := []; outbox := []; logs := []; now := 0; calls := [] |}.

(** ** Relations between the world before and after a computation *)

(** [m] relates every world it starts in to the world it ends in by [R],
    whether it returns or raises. *)
Definition preserves {A} (R : World -> World -> Prop) (m : M A) : Prop :=
  forall w, R w (m w).2.

(** The calls that wait for the provider: a read of the acknowledgement
    channel and a sleep. *)
Definition waits (c : Call) : bool :=
  match c with
  | CGet _ | CSleep => true
  | _ => false
  end.

(** The clock stands still and no new call waits. *)
Definition no_wait (w w' : World) : Prop :=
  now w' = now w
  /\ exists l, calls w' = (l ++ calls w)%list /\ forallb (fun c => negb (waits c)) l = true.

(** Redis hashes change under [keys] only, triggers under [oid] only. *)
Definition within_order (oid : string) (keys : list string) (w w' : World) : Prop :=
  (forall k, k ∉ keys -> hashes w' !! k = hashes w !! k)
  /\ (forall o, o <> oid -> triggers w' !! o = triggers w !! o).

(** Nothing is sent to the gateway and nothing enters the registry. *)
Definition off_gateway (w w' : World) : Prop :=
  outbox w' = outbox w /\ registry w' = registry w.

(** The trigger store, the event queue and the [take_profit] field of every
    cache record stay as they are. *)
Definition off_triggers (w w' : World) : Prop :=
  triggers w' = triggers w /\ queue w' = queue w
  /\ forall k, hash_at (hashes w') k !! "take_profit" = hash_at (hashes w) k !! "take_profit".

(** A pipeline command that leaves the field [f] of every hash alone. *)
Definition spares_field (f : string) (c : RedisCmd) : Prop :=
  match c with
  | HSET _ mapping => f ∉ mapping.*1
  | HDEL _ f' => f' <> f
  end.

(** No store is written and nothing is logged. *)
Definition reads_only (w w' : World) : Prop :=
  triggers w' = triggers w /\ hashes w' = hashes w /\ queue w' = queue w
  /\ registry w' = registry w /\ outbox w' = outbox w /\ logs w' = logs w.

Definition cmd_key (c : RedisCmd) : string :=
  match c with
  | HSET k _ => k
  | HDEL k _ => k
  end.

(** The payload keys each method looks at. *)
Definition add_reads : list string :=
  required_add ++ ["takeprofit_id"; "order_status"; "order_quantity"; "order_price"].

Definition cancel_reads : list string := required_cancel ++ ["takeprofit_cancel_id"].

(** Line 202: [_safe_float(gdata.get("contract_size")) or 1.0]. *)
Definition contract_size_or_one (rt : Runtime) (g : gmap string value) : float :=
  match parse_number rt (dget g "contract_size") with
  | Some c => if PrimFloat.eqb c 0%float then 1%float else c
  | None => 1%float
  end.

(** ** Lines 396-419 under a clock that the awaited calls advance too

    In the code [time.time()] is read before each pass, the [GET] is awaited
    after the deadline check, and [asyncio.sleep(0.1)] returns after at
    least 0.1 s.  [took n] is the time in milliseconds that passes, beyond
    the nominal duration, before the call issued when [n] calls were already
    on the trace returns.  With [took] zero everywhere this is the waiter
    above. *)

Section Timed.

Context (rt : Runtime) (ports : Ports).

Definition elapse (took : nat -> N) : M unit :=
  fun w => (Ret tt, set_now (fun t => t + Z.of_N (took (length (calls w)))) w).

Definition poll_timed (took : nat -> N) (key : string) (expect : list string)
  : M (option string) :=
  let* found := poll_once rt ports key expect in
  elapse took;;
  ret found.

Definition after_poll_timed (took : nat -> N) (key : string) (expect : list string)
    (w : World) : World :=
  ((sleep_100ms;; elapse took) (poll_timed took key expect w).2).2.

Equations? wait_loop_timed (took : nat -> N) (key : string) (expect : list string)
    (deadline : Z) (w : World)
  : option string * World by wf (Z.to_nat (deadline - now w)) lt :=
  wait_loop_timed took key expect deadline w with Z_lt_dec (now w) deadline => {
    | right _ => (None, w)
    | left _ with (poll_timed took key expect w).1 => {
        | Ret (Some s) => (Some s, (poll_timed took key expect w).2)
        | _ => wait_loop_timed took key expect deadline (after_poll_timed took key expect w) } }.
Proof.
  all: assert (Hnow : now w <= now (poll_timed took key expect w).2)
    by (cbv [poll_timed elapse poll_once try_except bind redis_get guarded lift ret];
        destruct (raises ports _ _); simpl; [lia |];
        destruct (ack_channel ports _ _) as [r |]; simpl; [| lia];
        destruct (String.eqb r ""); simpl; [lia |];
        destruct (data_or_empty _); simpl; [| lia];
        destruct (bool_decide _); simpl; lia).
  all: unfold after_poll_timed, sleep_100ms, elapse, bind, record; simpl; lia.
Qed.

Definition _wait_for_provider_ack_timed (took : nat -> N) (any_id : string)
    (expected_statuses : list value) (timeout_ms : Z) (w : World)
  : option string * World :=
  let deadline := now w + timeout_ms in
  let key := "provider:ack:" ++ any_id in
  let expect := map (fun s => upper (py_str rt s)) expected_statuses in
  wait_loop_timed took key expect deadline w.

End Timed.

(** * Properties *)

(** ** The runtime model on small inputs *)

Example strip_upper_lower :
  strip "  O 1 " = "O 1" /\ upper "eurUsd" = "EURUSD" /\ lower " DeMo" = " demo".
Proof. repeat split. Qed.

Example str_of_int_decimal : str_of_int (-120) = "-120" /\ str_of_int 0 = "0".
Proof. split; reflexivity. Qed.

Example float_of_int_rounds_or_overflows :
  float_of_int 3 = Ret 3%float
  /\ float_of_int (2 ^ 53 + 1) = Ret 0x1p+53%float
  /\ float_of_int (10 ^ 400) = Raise OverflowError.
Proof. repeat split; vm_compute; reflexivity. Qed.

Example safe_float_examples :
  _safe_float rt0 VNone = Ret None
  /\ _safe_float rt0 (VStr "abc") = Ret None
  /\ _safe_float rt0 (VStr "2") = Ret (Some 2%float)
  /\ _safe_float rt0 (VOther "[]" false) = Ret None
  /\ _safe_float rt0 (VBool true) = Ret (Some 1%float).
Proof. repeat split. Qed.

(** The first example of section 8 of the specification: half spread
    0.0001, local flow, score 1.2001. *)
Example specification_example_demo_buy :
  (add_takeprofit rt0 (quiet_ports ∅ group_2_pips) demo_buy empty_world).1
  = Ret (AddedLocal "O1" "EURUSD" "BUY" 0x1.3333333333333p+0%float
           0x1.3339c0ebedfa4p+0%float)
  /\ add_half_spread rt0 (quiet_ports ∅ group_2_pips) demo_buy empty_world
     = 0x1.a36e2eb1c432dp-14%float.
Proof. split; vm_compute; reflexivity. Qed.

(** The waiter sees a record that appears after 150 ms at its third poll. *)
Example waiter_finds_late_record :
  (_wait_for_provider_ack rt0 (acking_ports 150 cancelled_json) "TP1" [VStr "Cancelled"]
     1000 empty_world).1 = Some "CANCELLED"
  /\ now (_wait_for_provider_ack rt0 (acking_ports 150 cancelled_json) "TP1"
            [VStr "Cancelled"] 1000 empty_world).2 = 200.
Proof.
  unfold _wait_for_provider_ack. cbv zeta.
  split; vm_compute; reflexivity.
Qed.

(** ** Floats: the sign of a rounded product and quotient *)













(** Unfolds the monad and the port primitives, leaving the answers of the
    collaborators as the only stuck matches. *)
Ltac svc_red :=
  cbv beta iota zeta delta
    [bind ret try_except lift record guarded log fetch_user_config
     fetch_group_data upsert_order_triggers remove_takeprofit_trigger redis_hset
     pipe_execute redis_hgetall redis_hget redis_get add_lifecycle_id
     send_provider_order publish sleep_100ms fst snd].

(** Case analysis on the innermost stuck match of the goal. *)
Ltac destruct_innermost :=
  match goal with
  | |- context [match ?x with _ => _ end] =>
      lazymatch x with
      | context [match _ with _ => _ end] => fail
      | _ => destruct x eqn:?
      end
  end.


Section Properties.
Context (rt : Runtime) (ports : Ports).

(** ** Running the monad *)

Lemma bind_ret_eq {A B} (m : M A) (k : A -> M B) w a w1 :
  m w = (Ret a, w1) -> bind m k w = k a w1.
Proof. unfold bind. intros ->. reflexivity. Qed.

Lemma bind_raise_eq {A B} (m : M A) (k : A -> M B) w e w1 :
  m w = (Raise e, w1) -> bind m k w = (Raise e, w1).
Proof. unfold bind. intros ->. reflexivity. Qed.

Lemma same_stores_trans w1 w2 w3 :
  same_stores w1 w2 -> same_stores w2 w3 -> same_stores w1 w3.
Proof.
  unfold same_stores. intros (?&?&?&?&?&?) (?&?&?&?&?&?).
  repeat split; congruence.
Qed.

Lemma same_stores_set_calls f w : same_stores w (set_calls f w).
Proof. repeat split. Qed.

(** ** The decision table *)

Lemma resolve_flow_table ut pref : resolve_flow ut pref = table_4_1 ut pref.
Proof.
  unfold resolve_flow, table_4_1.
  destruct (String.eqb ut "demo"), (String.eqb ut "live"),
    (String.eqb ut "strategy_provider"), (String.eqb ut "copy_follower"),
    (String.eqb pref "rock"), (String.eqb pref "barclays"); reflexivity.
Qed.

(** ** The half spread (lines 13-32) *)

Lemma _safe_float_parse v :
  _safe_float rt v = Ret (parse_number rt v)
  \/ (_safe_float rt v = Raise OverflowError /\ parse_number rt v = None).
Proof.
  destruct v as [| b | z | f | s | r t]; simpl; auto.
  - unfold float_of_int. destruct (binary_normalize _ _ _ _ _); auto.
  - destruct (float_of_str rt s); auto.
Qed.

Lemma _compute_half_spread_run (symbol group : string) (w : World) :
  exists w',
    _compute_half_spread rt ports symbol group w
    = (Ret (half_spread_value rt ports symbol group w), w')
    /\ same_stores w w'
    /\ (exists l, calls w' = CFetchGroupData symbol group :: calls w /\ logs w' = (l ++ logs w)%list).
Proof.
  unfold _compute_half_spread, half_spread_value. svc_red.
  destruct (raises ports _ _) as [msg |].
  { eexists; split; [reflexivity | split; [repeat split |]].
    exists [(WARNING, "half_spread compute failed for %s/%s: %s")]. split; reflexivity. }
  set (g := group_data ports symbol group).
  destruct (_safe_float_parse (dget g "spread")) as [-> | [-> ->]];
    [| eexists; split; [reflexivity | split; [repeat split |]];
       exists [(WARNING, "half_spread compute failed for %s/%s: %s")]; split; reflexivity].
  destruct (_safe_float_parse (dget g "spread_pip")) as [-> | [-> ->]].
  - destruct (parse_number rt (dget g "spread")), (parse_number rt (dget g "spread_pip"));
      eexists; (split; [reflexivity | split; [repeat split |]]);
      exists []; split; reflexivity.
  - destruct (parse_number rt (dget g "spread"));
      eexists; (split; [reflexivity | split; [repeat split |]]);
      exists [(WARNING, "half_spread compute failed for %s/%s: %s")]; split; reflexivity.
Qed.

(** C5.  [_compute_half_spread] always returns a number and never raises:
    [spread * spread_pip / 2] when the group lookup answers and both
    parameters parse as numbers, [0.0] when the lookup raises or a parameter
    is absent or does not parse.  It writes to no store. *)
Theorem half_spread_formula_or_zero (symbol group : string) (w : World) :
  exists w',
    _compute_half_spread rt ports symbol group w
    = (Ret (match raises ports (length (calls w)) (CFetchGroupData symbol group) with
            | Some _ => 0%float
            | None =>
                match parse_number rt (dget (group_data ports symbol group) "spread"),
                      parse_number rt (dget (group_data ports symbol group) "spread_pip")
                with
                | Some sp, Some pip => (sp * pip / 2)%float
                | _, _ => 0%float
                end
            end), w')
    /\ same_stores w w'.
Proof.
  destruct (_compute_half_spread_run symbol group w) as (w' & Hrun & Hsame & _).
  exists w'. split; [exact Hrun | exact Hsame].
Qed.


(** ** Validation and dispatch (lines 37-72 and 242-271) *)

Lemma add_takeprofit_validated p tp_raw w :
  add_validated rt p tp_raw ->
  add_takeprofit rt ports p w =
    let w1 := set_calls (cons (CFetchUserConfig (add_user_type rt p) (add_user_id rt p))) w in
    match resolve_flow (add_user_type rt p) (cfg_sending_orders (add_cfg rt ports p)) with
    | None =>
        (Ret (UnsupportedFlow (add_user_type rt p) (cfg_sending_orders (add_cfg rt ports p))),
         w1)
    | Some Local =>
        bind (_compute_half_spread rt ports (add_symbol rt p) (cfg_group (add_cfg rt ports p)))
          (fun hs =>
             add_local rt ports (add_order_id rt p) (add_user_id rt p) (add_user_type rt p)
               (add_symbol rt p) (add_side rt p) tp_raw hs) w1
    | Some Provider =>
        bind (_compute_half_spread rt ports (add_symbol rt p) (cfg_group (add_cfg rt ports p)))
          (fun hs =>
             add_provider rt ports p (add_order_id rt p) (add_user_id rt p)
               (add_user_type rt p) (add_symbol rt p) (add_side rt p)
               (cfg_group (add_cfg rt ports p)) tp_raw hs) w1
    end.
Proof.
  intros (Hm & Hs & Htp & Hpos).
  unfold add_takeprofit. rewrite Hm. cbv zeta.
  unfold add_side in Hs. rewrite Hs. cbn [negb].
  unfold lift at 1. unfold bind at 1. rewrite Htp, Hpos.
  unfold fetch_user_config. unfold bind at 1. unfold bind at 1. unfold record, ret.
  fold (add_user_type rt p) (add_user_id rt p) (add_cfg rt ports p).
  destruct (resolve_flow _ _) as [[] |]; reflexivity.
Qed.

Lemma cancel_takeprofit_validated p w :
  cancel_validated rt p ->
  cancel_takeprofit rt ports p w =
    let w1 :=
      set_calls (cons (CFetchUserConfig (cancel_user_type rt p) (cancel_user_id rt p))) w in
    match resolve_flow (cancel_user_type rt p) (cfg_sending_orders (cancel_cfg rt ports p)) with
    | None =>
        (Ret (UnsupportedFlow (cancel_user_type rt p)
                (cfg_sending_orders (cancel_cfg rt ports p))), w1)
    | Some Local =>
        cancel_local ports (cancel_order_id rt p) (cancel_user_id rt p)
          (cancel_user_type rt p) (cancel_symbol rt p) (cancel_side rt p) w1
    | Some Provider =>
        cancel_provider rt ports p (cancel_order_id rt p) (cancel_user_id rt p)
          (cancel_user_type rt p) (cancel_symbol rt p) (cancel_side rt p) w1
    end.
Proof.
  intros (Hm & Hs).
  unfold cancel_takeprofit. rewrite Hm. cbv zeta.
  unfold cancel_side in Hs. rewrite Hs. cbn [negb].
  unfold fetch_user_config. unfold bind at 1. unfold bind at 1. unfold record, ret.
  fold (cancel_user_type rt p) (cancel_user_id rt p) (cancel_cfg rt ports p).
  destruct (resolve_flow _ _) as [[] |]; reflexivity.
Qed.

(** ** The local flow of [add_takeprofit] (lines 74-151) *)

Lemma add_local_rejected oid uid ut sym side tp hs w :
  upsert_accepts ports
    (takeprofit_trigger oid sym side ut uid tp (adjusted_price side tp hs)) = false ->
  add_local rt ports oid uid ut sym side tp hs w
  = (Ret UpsertTriggersFailed,
     set_calls
       (cons (CUpsert (takeprofit_trigger oid sym side ut uid tp (adjusted_price side tp hs))))
       w).
Proof.
  intros H. unfold add_local. svc_red. rewrite H. reflexivity.
Qed.

Lemma add_local_accepted oid uid ut sym side tp hs w :
  upsert_accepts ports
    (takeprofit_trigger oid sym side ut uid tp (adjusted_price side tp hs)) = true ->
  exists w',
    add_local rt ports oid uid ut sym side tp hs w
    = (Ret (AddedLocal oid sym side tp (adjusted_price side tp hs)), w')
    /\ triggers w'
       = <[oid := takeprofit_trigger oid sym side ut uid tp (adjusted_price side tp hs)]>
           (triggers w)
    /\ outbox w' = outbox w.
Proof.
  intros H. unfold add_local. svc_red. rewrite H. cbn [negb].
  repeat match goal with
         | |- context [raises ports ?n ?c] => destruct (raises ports n c)
         end;
    eexists; split; try reflexivity; split; reflexivity.
Qed.

Lemma add_local_on_path oid uid ut sym side tp hs w :
  outcome_on_path Local (add_local rt ports oid uid ut sym side tp hs w).1.
Proof.
  destruct (upsert_accepts ports
              (takeprofit_trigger oid sym side ut uid tp (adjusted_price side tp hs)))
    eqn:Hup.
  - destruct (add_local_accepted _ _ _ _ _ _ _ w Hup) as (w' & -> & _). reflexivity.
  - rewrite (add_local_rejected _ _ _ _ _ _ _ _ Hup). reflexivity.
Qed.

Lemma add_takeprofit_local p tp_raw w :
  add_validated rt p tp_raw ->
  add_flow rt ports p = Some Local ->
  exists w1,
    add_takeprofit rt ports p w
    = add_local rt ports (add_order_id rt p) (add_user_id rt p) (add_user_type rt p)
        (add_symbol rt p) (add_side rt p) tp_raw (add_half_spread rt ports p w) w1
    /\ same_stores w w1
    /\ calls w1
       = CFetchGroupData (add_symbol rt p) (cfg_group (add_cfg rt ports p))
         :: CFetchUserConfig (add_user_type rt p) (add_user_id rt p) :: calls w.
Proof.
  intros Hval Hflow. rewrite (add_takeprofit_validated _ _ _ Hval).
  unfold add_flow in Hflow. rewrite Hflow. cbv zeta.
  destruct (_compute_half_spread_run (add_symbol rt p) (cfg_group (add_cfg rt ports p))
              (add_configured rt p w)) as (w1 & Hrun & Hsame & (l & Hcalls & _)).
  exists w1. unfold add_configured in Hrun |- *.
  rewrite (bind_ret_eq _ _ _ _ _ Hrun). split; [reflexivity |].
  split; [| exact Hcalls].
  eapply same_stores_trans; [apply same_stores_set_calls | exact Hsame].
Qed.

(** C3.  On the local flow of [add_takeprofit]: when the trigger store
    rejects the upsert the operation returns [upsert_triggers_failed] and has
    written neither cache mirror nor event; when the store accepts it the
    operation returns success with the computed score whatever the later
    [hset] and publish calls do, since any exception of theirs is swallowed. *)
Theorem add_local_only_trigger_write_can_fail p tp_raw w :
  add_validated rt p tp_raw ->
  add_flow rt ports p = Some Local ->
  (upsert_accepts ports (add_trigger rt ports p tp_raw w) = false ->
   exists w',
     add_takeprofit rt ports p w = (Ret UpsertTriggersFailed, w')
     /\ hashes w' = hashes w /\ queue w' = queue w /\ triggers w' = triggers w
     /\ calls w'
        = CUpsert (add_trigger rt ports p tp_raw w)
          :: CFetchGroupData (add_symbol rt p) (cfg_group (add_cfg rt ports p))
          :: CFetchUserConfig (add_user_type rt p) (add_user_id rt p) :: calls w)
  /\ (upsert_accepts ports (add_trigger rt ports p tp_raw w) = true ->
      exists w',
        add_takeprofit rt ports p w
        = (Ret (AddedLocal (add_order_id rt p) (add_symbol rt p) (add_side rt p) tp_raw
                  (add_adjusted rt ports p tp_raw w)), w')
        /\ triggers w' !! add_order_id rt p = Some (add_trigger rt ports p tp_raw w)).
Proof.
  intros Hval Hflow.
  destruct (add_takeprofit_local p tp_raw w Hval Hflow) as (w1 & -> & Hsame & Hcalls).
  split; intros Hup.
  - rewrite (add_local_rejected _ _ _ _ _ _ _ _ Hup).
    eexists. split; [reflexivity |].
    destruct Hsame as (Ht & Hh & Hq & _). cbn. rewrite Hcalls. auto.
  - destruct (add_local_accepted _ _ _ _ _ _ _ w1 Hup) as (w' & Hrun & Htrig & _).
    exists w'. split; [exact Hrun |].
    rewrite Htrig. apply lookup_insert_eq.
Qed.

(** ** The provider flow of [add_takeprofit], stage by stage (lines 153-239) *)

Lemma _safe_float_cases v :
  (exists o, _safe_float rt v = Ret o) \/ _safe_float rt v = Raise OverflowError.
Proof.
  destruct (_safe_float_parse v) as [H | [H _]]; eauto.
Qed.

Lemma resolve_quantities_run payload oid w :
  (exists q e cv w',
      resolve_quantities rt ports payload oid w = (Ret (q, e, cv), w')
      /\ same_stores w w' /\ exists l, calls w' = (l ++ calls w)%list)
  \/ (resolve_quantities rt ports payload oid w = (Raise OverflowError, w)
      /\ (_safe_float rt (dget payload "order_quantity") = Raise OverflowError
          \/ _safe_float rt (dget payload "order_price") = Raise OverflowError)).
Proof.
  unfold resolve_quantities. svc_red.
  destruct (_safe_float_cases (dget payload "order_quantity")) as [[q ->] | ->];
    [| right; auto].
  destruct (_safe_float_cases (dget payload "order_price")) as [[e ->] | ->];
    [| right; auto].
  left.
  repeat destruct_innermost;
    do 4 eexists; (split; [reflexivity | split; [repeat split |]]);
    first [by exists [] | by eexists [_]].
Qed.

Lemma resolve_contract_value_run sym grp q e cv w :
  exists c w',
    resolve_contract_value rt ports sym grp q e cv w = (Ret c, w')
    /\ same_stores w w' /\ exists l, calls w' = (l ++ calls w)%list.
Proof.
  unfold resolve_contract_value. svc_red.
  destruct cv as [c |];
    [do 2 eexists; split; [reflexivity | split; [repeat split | by exists []]] |].
  destruct (raises ports _ _);
    [do 2 eexists; split; [reflexivity | split; [repeat split | by eexists [_]]] |].
  destruct (_safe_float_cases (dget (group_data ports sym grp) "contract_size"))
    as [[o ->] | ->];
    [| do 2 eexists; split; [reflexivity | split; [repeat split | by eexists [_]]]].
  destruct q, e;
    do 2 eexists; (split; [reflexivity | split; [repeat split | by eexists [_]]]).
Qed.

Lemma lifecycle_step_run (b : bool) oid ext kind tmpl w :
  exists w1,
    (if b
     then try_except (add_lifecycle_id ports oid ext kind) (fun _ => log WARNING tmpl)
     else ret tt) w = (Ret tt, w1)
    /\ triggers w1 = triggers w /\ hashes w1 = hashes w /\ queue w1 = queue w
    /\ outbox w1 = outbox w /\ now w1 = now w
    /\ exists l, calls w1 = (l ++ calls w)%list.
Proof.
  destruct b; svc_red; [destruct (raises ports _ _) |];
    eexists; (split; [reflexivity | repeat (split; [reflexivity |])]);
    first [by exists [] | by eexists [_]].
Qed.

Lemma mark_step_run cmds w :
  exists w1,
    try_except (pipe_execute ports cmds) (fun _ => ret tt) w = (Ret tt, w1)
    /\ triggers w1 = triggers w /\ queue w1 = queue w /\ outbox w1 = outbox w
    /\ now w1 = now w
    /\ calls w1 = CExecute cmds :: calls w
    /\ hashes w1
       = match raises ports (length (calls w)) (CExecute cmds) with
         | None => foldl apply_cmd (hashes w) cmds
         | Some _ => hashes w
         end.
Proof.
  svc_red. destruct (raises ports _ _);
    eexists; (split; [reflexivity | repeat split]).
Qed.

(** The provider flow of [add_takeprofit], stage by stage: the routing mark,
    then either the [OverflowError] of lines 181-182 or one call of the
    gateway with the adjusted price. *)
Lemma add_provider_run payload oid uid ut sym side grp tp hs w :
  exists w1 mid pre,
    outbox w1 = outbox w /\ triggers w1 = triggers w /\ queue w1 = queue w
    /\ calls w1
       = (mid ++ CExecute (mark_takeprofit_cmds oid uid ut sym side) :: pre ++ calls w)%list
    /\ ((forall n, raises ports n
                     (CExecute (mark_takeprofit_cmds oid uid ut sym side)) = None) ->
        hashes w1 = foldl apply_cmd (hashes w) (mark_takeprofit_cmds oid uid ut sym side))
    /\ ((add_provider rt ports payload oid uid ut sym side grp tp hs w
         = (Raise OverflowError, w1)
         /\ (_safe_float rt (dget payload "order_quantity") = Raise OverflowError
             \/ _safe_float rt (dget payload "order_price") = Raise OverflowError))
        \/ exists pp,
             pp_order_id pp = oid
             /\ pp_status pp = "TAKEPROFIT"
             /\ pp_takeprofit pp = Some (adjusted_price side tp hs)
             /\ add_provider rt ports payload oid uid ut sym side grp tp hs w
                = if (send_reply ports pp).1
                  then (Ret (AddedProvider oid sym side (adjusted_price side tp hs)),
                        set_outbox (cons pp) (set_calls (cons (CSend pp)) w1))
                  else (Ret (ProviderSendFailed (send_reply ports pp).2),
                        set_calls (cons (CSend pp)) w1)).
Proof.
  unfold add_provider. cbv zeta.
  destruct (lifecycle_step_run (truthy (dget payload "takeprofit_id")) oid
              (py_str rt (dget payload "takeprofit_id")) "takeprofit_id"
              "add_lifecycle_id takeprofit_id failed: %s" w)
    as (w1 & H1 & Ht1 & Hh1 & Hq1 & Ho1 & Hn1 & (l1 & Hc1)).
  rewrite (bind_ret_eq _ _ _ _ _ H1).
  destruct (mark_step_run (mark_takeprofit_cmds oid uid ut sym side) w1)
    as (w2 & H2 & Ht2 & Hq2 & Ho2 & Hn2 & Hc2 & Hh2).
  rewrite (bind_ret_eq _ _ _ _ _ H2).
  assert (Hhash : (forall n, raises ports n
                     (CExecute (mark_takeprofit_cmds oid uid ut sym side)) = None) ->
                  hashes w2 = foldl apply_cmd (hashes w)
                                (mark_takeprofit_cmds oid uid ut sym side)).
  { intros Hok. rewrite Hh2, Hok, Hh1. reflexivity. }
  destruct (resolve_quantities_run payload oid w2)
    as [(q & e & cv & w3 & H3 & Hs3 & (l3 & Hc3)) | [H3 Hov]].
  - rewrite (bind_ret_eq _ _ _ _ _ H3).
    destruct (resolve_contract_value_run sym grp q e cv w3)
      as (c & w4 & H4 & Hs4 & (l4 & Hc4)).
    rewrite (bind_ret_eq _ _ _ _ _ H4).
    pose proof (same_stores_trans _ _ _ Hs3 Hs4) as (Ht & Hh & Hq & _ & Ho & _).
    exists w4, (l4 ++ l3)%list, l1.
    split; [congruence |]. split; [congruence |]. split; [congruence |].
    split; [rewrite Hc4, Hc3, Hc2, Hc1, <- app_assoc; reflexivity |].
    split; [intros Hok; rewrite Hh; auto |].
    right.
    exists (takeprofit_payload oid sym
              (py_str rt (py_or (dget payload "order_status") (VStr "OPEN"))) side
              (adjusted_price side tp hs) c q
              (if truthy (dget payload "takeprofit_id")
               then Some (py_str rt (dget payload "takeprofit_id")) else None)).
    split; [reflexivity |]. split; [reflexivity |]. split; [reflexivity |].
    svc_red. destruct (send_reply ports _) as [[] via]; reflexivity.
  - rewrite (bind_raise_eq _ _ _ _ _ H3).
    exists w2, [], l1.
    split; [congruence |]. split; [congruence |]. split; [congruence |].
    split; [rewrite Hc2, Hc1; reflexivity |].
    split; [exact Hhash |].
    left. split; [reflexivity | exact Hov].
Qed.

Lemma add_provider_on_path payload oid uid ut sym side grp tp hs w :
  outcome_on_path Provider
    (add_provider rt ports payload oid uid ut sym side grp tp hs w).1.
Proof.
  destruct (add_provider_run payload oid uid ut sym side grp tp hs w)
    as (w1 & mid & pre & _ & _ & _ & _ & _ & [[-> _] | (pp & _ & _ & _ & ->)]).
  - split; reflexivity.
  - destruct (send_reply ports pp).1; reflexivity.
Qed.

(** ** The flows of [cancel_takeprofit] (lines 273-393) *)

Lemma cancel_local_run oid uid ut sym side w :
  exists w',
    cancel_local ports oid uid ut sym side w = (Ret (CancelledLocal oid sym side), w')
    /\ outbox w' = outbox w
    /\ ((forall n c, raises ports n c = None) ->
        triggers w' = delete oid (triggers w)
        /\ hashes w' = foldl apply_cmd (hashes w) (clear_takeprofit_cmds oid uid ut sym side)).
Proof.
  unfold cancel_local. svc_red.
  repeat match goal with
         | |- context [raises ports ?n ?c] => destruct (raises ports n c) eqn:?
         end;
    eexists; (split; [reflexivity | split; [reflexivity |]]);
    intros Hq; try (rewrite Hq in *; discriminate).
  split; reflexivity.
Qed.

Lemma mark_cancel_status_raised oid uid ut sym side cid msg w :
  (forall n, raises ports n (CExecute (mark_cancel_cmds oid uid ut sym side cid)) = Some msg) ->
  exists w',
    mark_cancel_status ports oid uid ut sym side cid w
    = (Ret (Some (RedisStatusUpdateFailed msg)), w')
    /\ hashes w' = hashes w /\ outbox w' = outbox w.
Proof.
  intros H. unfold mark_cancel_status. svc_red. rewrite H.
  eexists. split; [reflexivity | split; reflexivity].
Qed.

Lemma mark_cancel_status_marked oid uid ut sym side cid w :
  (forall n, raises ports n (CExecute (mark_cancel_cmds oid uid ut sym side cid)) = None) ->
  exists w',
    mark_cancel_status ports oid uid ut sym side cid w = (Ret None, w')
    /\ hashes w' = foldl apply_cmd (hashes w) (mark_cancel_cmds oid uid ut sym side cid)
    /\ outbox w' = outbox w
    /\ (forall v,
           (forall n, raises ports n (CHGet (order_data_key oid) "status") = None) ->
           hget_observes ports (order_data_key oid) "status" = Some v ->
           v <> Some "TAKEPROFIT-CANCEL" ->
           In verification_failed (logs w')).
Proof.
  intros H. unfold mark_cancel_status. svc_red. rewrite H.
  destruct (raises ports _ (CHGet _ _)) eqn:Hget.
  { eexists. split; [reflexivity |]. split; [reflexivity |]. split; [reflexivity |].
    intros v Hok. rewrite Hok in Hget. discriminate. }
  destruct (hget_observes ports _ _) as [v0 |] eqn:Hobs.
  - destruct (bool_decide (v0 = Some "TAKEPROFIT-CANCEL")) eqn:Hdec;
      (eexists; split; [reflexivity |]; split; [reflexivity |]; split; [reflexivity |]);
      intros v _ [= <-] Hne.
    + apply bool_decide_eq_true in Hdec. contradiction.
    + cbn. left. reflexivity.
  - destruct (bool_decide _);
      (eexists; split; [reflexivity |]; split; [reflexivity |]; split; [reflexivity |]);
      intros v _ [=].
Qed.

Lemma mark_cancel_status_cases oid uid ut sym side cid w :
  exists w',
    (mark_cancel_status ports oid uid ut sym side cid w = (Ret None, w')
     \/ exists msg,
          mark_cancel_status ports oid uid ut sym side cid w
          = (Ret (Some (RedisStatusUpdateFailed msg)), w'))
    /\ outbox w' = outbox w.
Proof.
  unfold mark_cancel_status. svc_red.
  destruct (raises ports _ (CExecute _)); [eexists; split; [right; eexists |]; reflexivity |].
  destruct (raises ports _ (CHGet _ _)); [eexists; split; [left |]; reflexivity |].
  destruct (hget_observes ports _ _); destruct (bool_decide _);
    eexists; (split; [left |]; reflexivity).
Qed.

(** The local view of the provider cancel: its correlation ids and the
    message it sends. *)
Lemma cancel_provider_run payload oid uid ut sym side w :
  let cid := strip (py_str rt (py_or (dget payload "takeprofit_cancel_id") (VStr ""))) in
  let pp := cancel_payload oid sym side
              (strip (py_str rt (py_or (dget payload "takeprofit_id") (VStr "")))) cid in
  exists w0,
    hashes w0 = hashes w /\ outbox w0 = outbox w
    /\ cancel_provider rt ports payload oid uid ut sym side w
       = if (send_reply ports pp).1
         then
           bind (mark_cancel_status ports oid uid ut sym side cid)
             (fun failed =>
                match failed with
                | Some r => ret r
                | None => ret (CancelSentProvider oid sym side)
                end)
             (set_logs
                (cons (INFO, "Takeprofit cancel sent via persistent connection (%s) for order_id=%s"))
                (set_outbox (cons pp) (set_calls (cons (CSend pp)) w0)))
         else (Ret (ProviderSendFailed (send_reply ports pp).2),
               set_calls (cons (CSend pp)) w0).
Proof.
  intros cid pp. unfold cancel_provider. cbv zeta. fold cid. fold pp.
  destruct (lifecycle_step_run (negb (String.eqb cid "")) oid cid "takeprofit_cancel_id"
              "add_lifecycle_id takeprofit_cancel_id failed: %s" w)
    as (w1 & H1 & Ht1 & Hh1 & Hq1 & Ho1 & Hn1 & _).
  rewrite (bind_ret_eq _ _ _ _ _ H1).
  exists (set_logs
            (cons (INFO, "Takeprofit cancel sending via persistent connection for order_id=%s"))
            w1).
  split; [exact Hh1 |]. split; [exact Ho1 |].
  unfold log at 1. unfold bind at 1.
  unfold send_provider_order, record. unfold bind at 1. unfold bind at 1. unfold bind at 1.
  cbv zeta. destruct (send_reply ports pp) as [[] via]; reflexivity.
Qed.

(** ** Flow resolution in both methods *)

Lemma cancel_local_on_path oid uid ut sym side w :
  outcome_on_path Local (cancel_local ports oid uid ut sym side w).1.
Proof.
  destruct (cancel_local_run oid uid ut sym side w) as (w' & -> & _). reflexivity.
Qed.

Lemma cancel_provider_on_path payload oid uid ut sym side w :
  outcome_on_path Provider (cancel_provider rt ports payload oid uid ut sym side w).1.
Proof.
  destruct (cancel_provider_run payload oid uid ut sym side w) as (w0 & _ & _ & ->).
  destruct (send_reply ports _).1; [| reflexivity].
  match goal with
  | |- context [bind (mark_cancel_status ?a ?b ?c ?d ?e ?f ?g) ?k ?w1] =>
      destruct (mark_cancel_status_cases b c d e f g w1) as (w' & [H | [msg H]] & _);
      rewrite (bind_ret_eq _ _ _ _ _ H)
  end; reflexivity.
Qed.

(** The ["flow"] key of a success names the flow the result comes from. *)
Lemma flow_key_names_path r f :
  path_of r = Some f -> ok r = true ->
  flow_of r = Some (match f with Local => "local" | Provider => "provider" end).
Proof. destruct r, f; cbn; intros H1 H2; congruence. Qed.


(** C1.  [resolve_flow], the chain both methods run, is the decision table
    of section 4.1.  A validated request whose pair the table leaves
    unsupported gets the [unsupported_flow] result carrying that pair, with
    the configuration read as the only call and no store written; one the
    table sends to a flow gets a result of that flow. *)
Theorem flow_resolution_follows_table :
  (forall ut pref, resolve_flow ut pref = table_4_1 ut pref)
  /\ (forall pref, resolve_flow "demo" pref = Some Local)
  /\ resolve_flow "live" "rock" = Some Local
  /\ resolve_flow "live" "barclays" = Some Provider
  /\ (forall ut pref,
         ut = "strategy_provider" \/ ut = "copy_follower" ->
         resolve_flow ut pref = Some (if String.eqb pref "rock" then Local else Provider))
  /\ (forall pref, pref <> "rock" -> pref <> "barclays" -> resolve_flow "live" pref = None)
  /\ (forall ut pref,
         ut <> "demo" -> ut <> "live" -> ut <> "strategy_provider" ->
         ut <> "copy_follower" -> resolve_flow ut pref = None)
  /\ (forall p tp_raw w,
         add_validated rt p tp_raw ->
         match table_4_1 (add_user_type rt p) (cfg_sending_orders (add_cfg rt ports p)) with
         | None =>
             add_takeprofit rt ports p w
             = (Ret (UnsupportedFlow (add_user_type rt p)
                       (cfg_sending_orders (add_cfg rt ports p))),
                add_configured rt p w)
             /\ same_stores w (add_configured rt p w)
         | Some f => outcome_on_path f (add_takeprofit rt ports p w).1
         end)
  /\ (forall p w,
         cancel_validated rt p ->
         match table_4_1 (cancel_user_type rt p)
                 (cfg_sending_orders (cancel_cfg rt ports p)) with
         | None =>
             cancel_takeprofit rt ports p w
             = (Ret (UnsupportedFlow (cancel_user_type rt p)
                       (cfg_sending_orders (cancel_cfg rt ports p))),
                cancel_configured rt p w)
             /\ same_stores w (cancel_configured rt p w)
         | Some f => outcome_on_path f (cancel_takeprofit rt ports p w).1
         end).
Proof.
  split; [exact resolve_flow_table |].
  split; [reflexivity |].
  split; [reflexivity |].
  split; [reflexivity |].
  split.
  { intros ut pref [-> | ->]; unfold resolve_flow; cbn;
      destruct (String.eqb pref "rock"), (String.eqb pref "barclays"); reflexivity. }
  split.
  { intros pref H1 H2. apply String.eqb_neq in H1, H2.
    unfold resolve_flow. cbn. rewrite H1, H2. reflexivity. }
  split.
  { intros ut pref H1 H2 H3 H4. apply String.eqb_neq in H1, H2, H3, H4.
    unfold resolve_flow. rewrite H1, H2, H3, H4. reflexivity. }
  split.
  - intros p tp_raw w Hval.
    rewrite (add_takeprofit_validated _ _ _ Hval), <- resolve_flow_table. cbv zeta.
    destruct (resolve_flow _ _) as [[] |].
    + destruct (_compute_half_spread_run (add_symbol rt p) (cfg_group (add_cfg rt ports p))
                  (add_configured rt p w)) as (w1 & Hrun & _).
      unfold add_configured in Hrun. rewrite (bind_ret_eq _ _ _ _ _ Hrun).
      apply add_local_on_path.
    + destruct (_compute_half_spread_run (add_symbol rt p) (cfg_group (add_cfg rt ports p))
                  (add_configured rt p w)) as (w1 & Hrun & _).
      unfold add_configured in Hrun. rewrite (bind_ret_eq _ _ _ _ _ Hrun).
      apply add_provider_on_path.
    + split; [reflexivity | apply same_stores_set_calls].
  - intros p w Hval.
    rewrite (cancel_takeprofit_validated _ _ Hval), <- resolve_flow_table. cbv zeta.
    destruct (resolve_flow _ _) as [[] |].
    + apply cancel_local_on_path.
    + apply cancel_provider_on_path.
    + split; [reflexivity | apply same_stores_set_calls].
Qed.

(** ** Redis hashes *)

Lemma hash_at_hset_same k m (h : gmap string (gmap string string)) :
  hash_at (apply_hset k m h) k = foldl (fun acc kv => <[kv.1 := kv.2]> acc) (hash_at h k) m.
Proof. unfold apply_hset, hash_at at 1. rewrite lookup_insert_eq. reflexivity. Qed.

Lemma hash_at_hset_other k k' m (h : gmap string (gmap string string)) :
  k <> k' -> hash_at (apply_hset k m h) k' = hash_at h k'.
Proof. intros H. unfold apply_hset, hash_at. rewrite lookup_insert_ne by exact H. reflexivity. Qed.

Lemma hash_at_hdel_same k f (h : gmap string (gmap string string)) :
  hash_at (apply_hdel k f h) k = delete f (hash_at h k).
Proof. unfold apply_hdel, hash_at at 1. rewrite lookup_insert_eq. reflexivity. Qed.

Lemma hash_at_hdel_other k k' f (h : gmap string (gmap string string)) :
  k <> k' -> hash_at (apply_hdel k f h) k' = hash_at h k'.
Proof. intros H. unfold apply_hdel, hash_at. rewrite lookup_insert_ne by exact H. reflexivity. Qed.

Lemma order_data_key_not_holdings oid ut uid oid' :
  order_data_key oid <> holdings_key ut uid oid'.
Proof. unfold order_data_key, holdings_key. cbn. discriminate. Qed.

Lemma holdings_not_order_data_key oid ut uid oid' :
  holdings_key ut uid oid' <> order_data_key oid.
Proof. unfold order_data_key, holdings_key. cbn. discriminate. Qed.

Lemma mark_takeprofit_status oid uid ut sym side (h : gmap string (gmap string string)) :
  hash_at (foldl apply_cmd h (mark_takeprofit_cmds oid uid ut sym side)) (order_data_key oid)
    !! "status" = Some "TAKEPROFIT"
  /\ hash_at (foldl apply_cmd h (mark_takeprofit_cmds oid uid ut sym side))
       (holdings_key ut uid oid) !! "status" = Some "TAKEPROFIT".
Proof.
  unfold mark_takeprofit_cmds. cbn [foldl apply_cmd]. split.
  - rewrite hash_at_hset_other by apply holdings_not_order_data_key.
    rewrite hash_at_hset_same. cbn [foldl fst snd].
    rewrite !lookup_insert_ne by discriminate. apply lookup_insert_eq.
  - rewrite hash_at_hset_same. cbn [foldl fst snd]. apply lookup_insert_eq.
Qed.

Lemma mark_cancel_status_written oid uid ut sym side cid
    (h : gmap string (gmap string string)) :
  hash_at (foldl apply_cmd h (mark_cancel_cmds oid uid ut sym side cid)) (order_data_key oid)
    !! "status" = Some "TAKEPROFIT-CANCEL"
  /\ hash_at (foldl apply_cmd h (mark_cancel_cmds oid uid ut sym side cid))
       (holdings_key ut uid oid) !! "status" = Some "TAKEPROFIT-CANCEL".
Proof.
  unfold mark_cancel_cmds. cbn [foldl apply_cmd]. split.
  - rewrite hash_at_hset_other by apply holdings_not_order_data_key.
    rewrite hash_at_hset_same. cbn [foldl fst snd].
    rewrite !lookup_insert_ne by discriminate. apply lookup_insert_eq.
  - rewrite hash_at_hset_same. cbn [foldl fst snd]. apply lookup_insert_eq.
Qed.

(** ** The routing mark of the provider add survives a refused send *)

Lemma add_takeprofit_provider p tp_raw w :
  add_validated rt p tp_raw ->
  add_flow rt ports p = Some Provider ->
  exists w1,
    add_takeprofit rt ports p w
    = add_provider rt ports p (add_order_id rt p) (add_user_id rt p) (add_user_type rt p)
        (add_symbol rt p) (add_side rt p) (cfg_group (add_cfg rt ports p)) tp_raw
        (add_half_spread rt ports p w) w1
    /\ same_stores w w1
    /\ calls w1
       = CFetchGroupData (add_symbol rt p) (cfg_group (add_cfg rt ports p))
         :: CFetchUserConfig (add_user_type rt p) (add_user_id rt p) :: calls w.
Proof.
  intros Hval Hflow. rewrite (add_takeprofit_validated _ _ _ Hval).
  unfold add_flow in Hflow. rewrite Hflow. cbv zeta.
  destruct (_compute_half_spread_run (add_symbol rt p) (cfg_group (add_cfg rt ports p))
              (add_configured rt p w)) as (w1 & Hrun & Hsame & (l & Hcalls & _)).
  exists w1. unfold add_configured in Hrun |- *.
  rewrite (bind_ret_eq _ _ _ _ _ Hrun). split; [reflexivity |].
  split; [| exact Hcalls].
  eapply same_stores_trans; [apply same_stores_set_calls | exact Hsame].
Qed.

(** C10.  On the provider flow of [add_takeprofit] the pipeline that marks
    [status=TAKEPROFIT] is executed before the gateway is called.  When Redis
    accepts it and the gateway then refuses the order, the operation returns
    [provider_send_failed:<via>] and both cache records still carry
    [status=TAKEPROFIT]: nothing undoes the mark. *)
Theorem provider_add_mark_survives_send_failure p tp_raw via w :
  add_validated rt p tp_raw ->
  add_flow rt ports p = Some Provider ->
  (forall n, raises ports n (CExecute (add_mark rt p)) = None) ->
  (forall pp, send_reply ports pp = (false, via)) ->
  _safe_float rt (dget p "order_quantity") <> Raise OverflowError ->
  _safe_float rt (dget p "order_price") <> Raise OverflowError ->
  exists w' pp mid pre,
    add_takeprofit rt ports p w = (Ret (ProviderSendFailed via), w')
    /\ reason (ProviderSendFailed via) = Some ("provider_send_failed:" ++ via)
    /\ hash_at (hashes w') (order_data_key (add_order_id rt p)) !! "status"
       = Some "TAKEPROFIT"
    /\ hash_at (hashes w')
         (holdings_key (add_user_type rt p) (add_user_id rt p) (add_order_id rt p))
         !! "status" = Some "TAKEPROFIT"
    /\ outbox w' = outbox w
    /\ calls w' = (CSend pp :: mid ++ CExecute (add_mark rt p) :: pre ++ calls w)%list.
Proof.
  intros Hval Hflow Hexec Hsend Hq He.
  destruct (add_takeprofit_provider p tp_raw w Hval Hflow)
    as (w1 & -> & (Ht1 & Hh1 & Hq1 & _ & Ho1 & _) & Hc1).
  destruct (add_provider_run p (add_order_id rt p) (add_user_id rt p) (add_user_type rt p)
              (add_symbol rt p) (add_side rt p) (cfg_group (add_cfg rt ports p)) tp_raw
              (add_half_spread rt ports p w) w1)
    as (w2 & mid & pre & Ho2 & _ & _ & Hc2 & Hh2 & [[_ [Hov | Hov]] | (pp & _ & _ & _ & ->)]);
    [contradiction | contradiction |].
  rewrite Hsend. cbn [fst snd].
  exists (set_calls (cons (CSend pp)) w2), pp, mid,
    (pre ++ [CFetchGroupData (add_symbol rt p) (cfg_group (add_cfg rt ports p));
             CFetchUserConfig (add_user_type rt p) (add_user_id rt p)])%list.
  split; [reflexivity |]. split; [reflexivity |].
  cbn [hashes outbox calls set_calls].
  rewrite (Hh2 Hexec), Hh1.
  destruct (mark_takeprofit_status (add_order_id rt p) (add_user_id rt p)
              (add_user_type rt p) (add_symbol rt p) (add_side rt p) (hashes w))
    as [Hs1 Hs2].
  split; [exact Hs1 |]. split; [exact Hs2 |].
  split; [congruence |].
  rewrite Hc2, Hc1, <- app_assoc. reflexivity.
Qed.

(** ** Failure modes of the provider cancel (lines 349-393) *)

Lemma cancel_takeprofit_provider p w :
  cancel_validated rt p ->
  cancel_flow rt ports p = Some Provider ->
  cancel_takeprofit rt ports p w
  = cancel_provider rt ports p (cancel_order_id rt p) (cancel_user_id rt p)
      (cancel_user_type rt p) (cancel_symbol rt p) (cancel_side rt p)
      (cancel_configured rt p w).
Proof.
  intros Hval Hflow. rewrite (cancel_takeprofit_validated _ _ Hval).
  unfold cancel_flow in Hflow. rewrite Hflow. reflexivity.
Qed.

(** C4.  On the provider flow of [cancel_takeprofit]: a refused send returns
    [provider_send_failed:<via>] and leaves the caches alone; after an
    accepted send, a pipeline that raises returns
    [redis_status_update_failed] although the message has gone out; and when
    the pipeline is accepted the result is the success result whatever the
    read-back of the status reports, a mismatch being logged as an error
    only. *)
Theorem provider_cancel_failure_modes p w :
  cancel_validated rt p ->
  cancel_flow rt ports p = Some Provider ->
  (forall via,
      send_reply ports (cancel_message rt p) = (false, via) ->
      exists w',
        cancel_takeprofit rt ports p w = (Ret (ProviderSendFailed via), w')
        /\ reason (ProviderSendFailed via) = Some ("provider_send_failed:" ++ via)
        /\ hashes w' = hashes w /\ outbox w' = outbox w)
  /\ (forall via msg,
         send_reply ports (cancel_message rt p) = (true, via) ->
         (forall n, raises ports n (CExecute (cancel_mark rt p)) = Some msg) ->
         exists w',
           cancel_takeprofit rt ports p w = (Ret (RedisStatusUpdateFailed msg), w')
           /\ ok (RedisStatusUpdateFailed msg) = false
           /\ outbox w' = cancel_message rt p :: outbox w)
  /\ (forall via,
         send_reply ports (cancel_message rt p) = (true, via) ->
         (forall n, raises ports n (CExecute (cancel_mark rt p)) = None) ->
         exists w',
           cancel_takeprofit rt ports p w
           = (Ret (CancelSentProvider (cancel_order_id rt p) (cancel_symbol rt p)
                     (cancel_side rt p)), w')
           /\ hash_at (hashes w') (order_data_key (cancel_order_id rt p)) !! "status"
              = Some "TAKEPROFIT-CANCEL"
           /\ hash_at (hashes w')
                (holdings_key (cancel_user_type rt p) (cancel_user_id rt p)
                   (cancel_order_id rt p)) !! "status" = Some "TAKEPROFIT-CANCEL"
           /\ (forall v,
                  (forall n, raises ports n
                               (CHGet (order_data_key (cancel_order_id rt p)) "status")
                             = None) ->
                  hget_observes ports (order_data_key (cancel_order_id rt p)) "status"
                  = Some v ->
                  v <> Some "TAKEPROFIT-CANCEL" ->
                  In verification_failed (logs w'))).
Proof.
  intros Hval Hflow.
  rewrite (cancel_takeprofit_provider p w Hval Hflow).
  destruct (cancel_provider_run p (cancel_order_id rt p) (cancel_user_id rt p)
              (cancel_user_type rt p) (cancel_symbol rt p) (cancel_side rt p)
              (cancel_configured rt p w)) as (w0 & Hh0 & Ho0 & ->).
  fold (cancel_cancel_id rt p) (cancel_takeprofit_id rt p) (cancel_message rt p).
  split; [| split].
  - intros via Hsend. rewrite Hsend. cbn [fst snd].
    eexists. split; [reflexivity |]. split; [reflexivity |].
    split; [exact Hh0 | exact Ho0].
  - intros via msg Hsend Hexec. rewrite Hsend. cbn [fst snd].
    match goal with
    | |- context [bind (mark_cancel_status _ _ _ _ _ _ _) _ ?w1] =>
        destruct (mark_cancel_status_raised (cancel_order_id rt p) (cancel_user_id rt p)
                    (cancel_user_type rt p) (cancel_symbol rt p) (cancel_side rt p)
                    (cancel_cancel_id rt p) msg w1 Hexec) as (w' & Hrun & _ & Ho)
    end.
    rewrite (bind_ret_eq _ _ _ _ _ Hrun).
    exists w'. split; [reflexivity |]. split; [reflexivity |].
    rewrite Ho. cbn. rewrite Ho0. reflexivity.
  - intros via Hsend Hexec. rewrite Hsend. cbn [fst snd].
    match goal with
    | |- context [bind (mark_cancel_status _ _ _ _ _ _ _) _ ?w1] =>
        destruct (mark_cancel_status_marked (cancel_order_id rt p) (cancel_user_id rt p)
                    (cancel_user_type rt p) (cancel_symbol rt p) (cancel_side rt p)
                    (cancel_cancel_id rt p) w1 Hexec) as (w' & Hrun & Hh & _ & Hlog)
    end.
    rewrite (bind_ret_eq _ _ _ _ _ Hrun).
    exists w'. split; [reflexivity |].
    rewrite Hh.
    destruct (mark_cancel_status_written (cancel_order_id rt p) (cancel_user_id rt p)
                (cancel_user_type rt p) (cancel_symbol rt p) (cancel_side rt p)
                (cancel_cancel_id rt p)
                (hashes (set_logs
                   (cons (INFO, "Takeprofit cancel sent via persistent connection (%s) for order_id=%s"))
                   (set_outbox (cons (cancel_message rt p))
                      (set_calls (cons (CSend (cancel_message rt p))) w0)))))
      as [Hs1 Hs2].
    split; [exact Hs1 |]. split; [exact Hs2 | exact Hlog].
Qed.

(** ** The adjusted price (lines 74-91 and 153-158) *)





(** ** What validation rejects (lines 37-50 and 242-252) *)

(** What validation does reject: the result names the failure and the world
    is untouched, no port having been called. *)
Lemma add_takeprofit_rejects p w :
  (missing_keys required_add p <> [] ->
   add_takeprofit rt ports p w = (Ret (MissingFields (missing_keys required_add p)), w))
  /\ (missing_keys required_add p = [] ->
      valid_side (add_side rt p) = false ->
      add_takeprofit rt ports p w = (Ret InvalidOrderType, w))
  /\ (missing_keys required_add p = [] ->
      valid_side (add_side rt p) = true ->
      parse_number rt (dget p "take_profit") = None ->
      _safe_float rt (dget p "take_profit") <> Raise OverflowError ->
      add_takeprofit rt ports p w = (Ret InvalidTakeProfit, w))
  /\ (forall tp_raw,
         missing_keys required_add p = [] ->
         valid_side (add_side rt p) = true ->
         parse_number rt (dget p "take_profit") = Some tp_raw ->
         (tp_raw <=? 0)%float = true ->
         add_takeprofit rt ports p w = (Ret InvalidTakeProfit, w)).
Proof.
  unfold add_takeprofit, add_side. repeat split.
  - intros H. destruct (missing_keys required_add p); [contradiction | reflexivity].
  - intros -> ->. reflexivity.
  - intros -> -> Hp Hov. cbn [negb]. svc_red.
    destruct (_safe_float_parse (dget p "take_profit")) as [-> | [Hr _]];
      [rewrite Hp; reflexivity | contradiction].
  - intros tp_raw -> -> Hp Hle. cbn [negb]. svc_red.
    destruct (_safe_float_parse (dget p "take_profit")) as [-> | [_ Hr]];
      [rewrite Hp, Hle; reflexivity | congruence].
Qed.

Lemma cancel_takeprofit_rejects p w :
  (missing_keys required_cancel p <> [] ->
   cancel_takeprofit rt ports p w
   = (Ret (MissingFields (missing_keys required_cancel p)), w))
  /\ (missing_keys required_cancel p = [] ->
      valid_side (cancel_side rt p) = false ->
      cancel_takeprofit rt ports p w = (Ret InvalidOrderType, w)).
Proof.
  unfold cancel_takeprofit, cancel_side. split.
  - intros H. destruct (missing_keys required_cancel p); [contradiction | reflexivity].
  - intros -> ->. reflexivity.
Qed.

(** ** Add, then cancel, on the local flow *)

(** Whatever the world before it, a local cancel that the stores accept
    leaves no trigger under the id it was given and both cache records at
    [status=OPEN] without [take_profit]. *)
Lemma cancel_local_clears oid uid ut sym side w :
  (forall n c, raises ports n c = None) ->
  exists w',
    cancel_local ports oid uid ut sym side w = (Ret (CancelledLocal oid sym side), w')
    /\ triggers w' !! oid = None
    /\ hash_at (hashes w') (order_data_key oid) !! "status" = Some "OPEN"
    /\ hash_at (hashes w') (order_data_key oid) !! "take_profit" = None
    /\ hash_at (hashes w') (holdings_key ut uid oid) !! "status" = Some "OPEN"
    /\ hash_at (hashes w') (holdings_key ut uid oid) !! "take_profit" = None.
Proof.
  intros Hq.
  destruct (cancel_local_run oid uid ut sym side w) as (w' & Hrun & _ & Heff).
  destruct (Heff Hq) as [Ht Hh].
  exists w'. split; [exact Hrun |].
  rewrite Ht, Hh. split; [apply lookup_delete_eq |].
  unfold clear_takeprofit_cmds. cbn [foldl apply_cmd].
  pose proof (order_data_key_not_holdings oid ut uid oid) as Hne.
  pose proof (holdings_not_order_data_key oid ut uid oid) as Hne'.
  repeat split.
  - rewrite hash_at_hset_other by exact Hne'. rewrite hash_at_hset_same.
    cbn [foldl fst snd]. rewrite !lookup_insert_ne by discriminate.
    apply lookup_insert_eq.
  - rewrite hash_at_hset_other by exact Hne'. rewrite hash_at_hset_same.
    cbn [foldl fst snd]. rewrite !lookup_insert_ne by discriminate.
    rewrite hash_at_hdel_other by exact Hne'. rewrite hash_at_hdel_same.
    apply lookup_delete_eq.
  - rewrite hash_at_hset_same. cbn [foldl fst snd]. apply lookup_insert_eq.
  - rewrite hash_at_hset_same. cbn [foldl fst snd]. rewrite lookup_insert_ne by discriminate.
    rewrite hash_at_hset_other by exact Hne. rewrite hash_at_hdel_same.
    apply lookup_delete_eq.
Qed.

(** Add then cancel clears the order when both methods arrive at the same
    ids, which they do when the ids carry no surrounding whitespace: cancel
    strips them, add does not. *)
Lemma add_then_cancel_clears p tp_raw p' w :
  (forall n c, raises ports n c = None) ->
  add_validated rt p tp_raw -> add_flow rt ports p = Some Local ->
  cancel_validated rt p' -> cancel_flow rt ports p' = Some Local ->
  cancel_order_id rt p' = add_order_id rt p ->
  cancel_user_id rt p' = add_user_id rt p ->
  cancel_user_type rt p' = add_user_type rt p ->
  exists r w1 w2,
    add_takeprofit rt ports p w = (Ret r, w1)
    /\ cancel_takeprofit rt ports p' w1
       = (Ret (CancelledLocal (cancel_order_id rt p') (cancel_symbol rt p')
                 (cancel_side rt p')), w2)
    /\ triggers w2 !! add_order_id rt p = None
    /\ hash_at (hashes w2) (order_data_key (add_order_id rt p)) !! "status" = Some "OPEN"
    /\ hash_at (hashes w2) (order_data_key (add_order_id rt p)) !! "take_profit" = None
    /\ hash_at (hashes w2)
         (holdings_key (add_user_type rt p) (add_user_id rt p) (add_order_id rt p))
         !! "status" = Some "OPEN"
    /\ hash_at (hashes w2)
         (holdings_key (add_user_type rt p) (add_user_id rt p) (add_order_id rt p))
         !! "take_profit" = None.
Proof.
  intros Hq Hval Hflow Hval' Hflow' Ho Hu Ht.
  destruct (add_takeprofit_local p tp_raw w Hval Hflow) as (w0 & Heq & _).
  assert (Hadd : exists r w1, add_takeprofit rt ports p w = (Ret r, w1)).
  { rewrite Heq.
    destruct (upsert_accepts ports (add_trigger rt ports p tp_raw w)) eqn:Hup.
    - destruct (add_local_accepted _ _ _ _ _ _ _ w0 Hup) as (w1 & Hrun & _). eauto.
    - rewrite (add_local_rejected _ _ _ _ _ _ _ _ Hup). eauto. }
  destruct Hadd as (r & w1 & Hadd).
  destruct (cancel_local_clears (cancel_order_id rt p') (cancel_user_id rt p')
              (cancel_user_type rt p') (cancel_symbol rt p') (cancel_side rt p')
              (set_calls
                 (cons (CFetchUserConfig (cancel_user_type rt p') (cancel_user_id rt p')))
                 w1) Hq)
    as (w2 & Hrun & H1 & H2 & H3 & H4 & H5).
  exists r, w1, w2. split; [exact Hadd |].
  rewrite (cancel_takeprofit_validated _ w1 Hval').
  unfold cancel_flow in Hflow'. rewrite Hflow'. cbv zeta.
  rewrite <- Ho, <- Hu, <- Ht. auto 10.
Qed.

(** ** The acknowledgement waiter (lines 396-419) *)

Lemma wait_loop_step key expect deadline w :
  wait_loop rt ports key expect deadline w
  = if Z_lt_dec (now w) deadline
    then match (poll_once rt ports key expect w).1 with
         | Ret (Some s) => (Some s, (poll_once rt ports key expect w).2)
         | _ => wait_loop rt ports key expect deadline (after_poll rt ports key expect w)
         end
    else (None, w).
Proof.
  rewrite wait_loop_equation_1.
  destruct (Z_lt_dec (now w) deadline); cbn; [| reflexivity].
  destruct (poll_once rt ports key expect w).1 as [[s |] | e]; cbn;
    rewrite ?wait_loop_unfold_eq; reflexivity.
Qed.

Lemma poll_once_run key expect w :
  exists o,
    poll_once rt ports key expect w = (o, set_calls (cons (CGet key)) w)
    /\ (forall s,
           o = Ret (Some s) <->
           raises ports (length (calls w)) (CGet key) = None
           /\ exists r d,
                ack_channel ports (now w) key = Some r /\ r <> ""
                /\ data_or_empty (orjson_loads rt r) = Ret d
                /\ s = record_status rt d /\ s ∈ expect)
    /\ (o = Ret None \/ exists s, o = Ret (Some s)).
Proof.
  unfold poll_once, record_status. svc_red.
  destruct (raises ports _ _) as [msg |].
  { eexists. split; [reflexivity |]. split; [| left; reflexivity].
    intros s. split; [discriminate | intros [[=] _]]. }
  cbn [now set_calls].
  destruct (ack_channel ports (now w) key) as [r |].
  2:{ eexists. split; [reflexivity |]. split; [| left; reflexivity].
      intros s. split; [discriminate | intros [_ (r & d & [=] & _)]]. }
  destruct (String.eqb r "") eqn:Hr.
  { apply String.eqb_eq in Hr. subst r.
    eexists. split; [reflexivity |]. split; [| left; reflexivity].
    intros s. split; [discriminate | intros [_ (r & d & [= <-] & Hne & _)]; contradiction]. }
  apply String.eqb_neq in Hr.
  destruct (data_or_empty (orjson_loads rt r)) as [d | e] eqn:Hd.
  2:{ eexists. split; [reflexivity |]. split; [| left; reflexivity].
      intros s. split; [discriminate |].
      intros [_ (r' & d & [= <-] & _ & Hd' & _)]. congruence. }
  destruct (bool_decide _) eqn:Hin.
  - apply bool_decide_eq_true in Hin.
    eexists. split; [reflexivity |]. split; [| right; eexists; reflexivity].
    intros s. split.
    + intros [= <-]. split; [reflexivity |]. exists r, d. auto.
    + intros [_ (r' & d' & [= <-] & _ & Hd' & -> & _)]. congruence.
  - apply bool_decide_eq_false in Hin.
    eexists. split; [reflexivity |]. split; [| left; reflexivity].
    intros s. split; [discriminate |].
    intros [_ (r' & d' & [= <-] & _ & Hd' & -> & Hs)].
    rewrite Hd in Hd'. injection Hd' as <-. contradiction.
Qed.

Lemma after_poll_now key expect w :
  now (after_poll rt ports key expect w) = now w + 100.
Proof.
  unfold after_poll.
  destruct (poll_once_run key expect w) as (o & -> & _). reflexivity.
Qed.

Lemma rounds_zero d : d <= 0 -> rounds d = O.
Proof.
  intros H. unfold rounds.
  assert ((d + 99) / 100 < 1) by (apply Z.div_lt_upper_bound; lia).
  lia.
Qed.

Lemma rounds_succ d : 0 < d -> rounds d = S (rounds (d - 100)).
Proof.
  intros H. unfold rounds.
  replace (d + 99) with ((d - 100 + 99) + 1 * 100) by lia.
  rewrite Z.div_add by lia.
  assert (0 <= (d - 100 + 99) / 100) by (apply Z.div_pos; lia).
  lia.
Qed.



End Properties.



(** C1, witness: a live account without routing preference is unsupported
    on add; a live account routed to Barclays cancels on the provider flow. *)
Lemma flow_resolution_follows_table_witness :
  (add_takeprofit rt0 (quiet_ports ∅ group_2_pips) live_buy empty_world
   = (Ret (UnsupportedFlow "live" ""), add_configured rt0 live_buy empty_world)
   /\ same_stores empty_world (add_configured rt0 live_buy empty_world))
  /\ outcome_on_path Provider
       (cancel_takeprofit rt0 (quiet_ports barclays_cfg group_2_pips) live_cancel
          empty_world).1.
Proof.
  split.
  - destruct (flow_resolution_follows_table rt0 (quiet_ports ∅ group_2_pips))
      as (_ & _ & _ & _ & _ & _ & _ & Hadd & _).
    assert (Hval : add_validated rt0 live_buy 0x1.3333333333333p+0%float)
      by (repeat split; vm_compute; reflexivity).
    exact (Hadd live_buy _ empty_world Hval).
  - destruct (flow_resolution_follows_table rt0 (quiet_ports barclays_cfg group_2_pips))
      as (_ & _ & _ & _ & _ & _ & _ & _ & Hcancel).
    assert (Hval : cancel_validated rt0 live_cancel)
      by (split; vm_compute; reflexivity).
    exact (Hcancel live_cancel empty_world Hval).
Defined.

(** C3, witness: the demo request of the specification while Redis and the
    queue are down. *)
Lemma add_local_only_trigger_write_can_fail_witness :
  exists w',
    add_takeprofit rt0 (faulty_ports ∅ group_2_pips cache_or_queue_write) demo_buy
      empty_world
    = (Ret (AddedLocal "O1" "EURUSD" "BUY" 0x1.3333333333333p+0%float
              0x1.3339c0ebedfa4p+0%float), w')
    /\ triggers w' !! "O1"
       = Some (add_trigger rt0 (faulty_ports ∅ group_2_pips cache_or_queue_write) demo_buy
                 0x1.3333333333333p+0%float empty_world).
Proof.
  assert (Hval : add_validated rt0 demo_buy 0x1.3333333333333p+0%float)
    by (repeat split; vm_compute; reflexivity).
  assert (Hflow : add_flow rt0 (faulty_ports ∅ group_2_pips cache_or_queue_write) demo_buy
                  = Some Local) by (vm_compute; reflexivity).
  destruct (add_local_only_trigger_write_can_fail rt0 _ demo_buy _ empty_world Hval Hflow)
    as [_ Hok].
  apply Hok. vm_compute. reflexivity.
Defined.


(** C4, witness: a live account routed to Barclays cancels; the pipeline is
    accepted and the read-back reports [OPEN]. *)
Lemma provider_cancel_failure_modes_witness :
  exists w',
    cancel_takeprofit rt0 (misreading_ports barclays_cfg group_2_pips (Some "OPEN"))
      live_cancel empty_world
    = (Ret (CancelSentProvider "O1" "EURUSD" "BUY"), w')
    /\ In verification_failed (logs w').
Proof.
  assert (Hval : cancel_validated rt0 live_cancel) by (split; vm_compute; reflexivity).
  assert (Hflow : cancel_flow rt0 (misreading_ports barclays_cfg group_2_pips (Some "OPEN"))
                    live_cancel = Some Provider) by (vm_compute; reflexivity).
  destruct (provider_cancel_failure_modes rt0 _ live_cancel empty_world Hval Hflow)
    as (_ & _ & Hmarked).
  destruct (Hmarked "persistent" eq_refl (fun _ => eq_refl)) as (w' & Hrun & _ & _ & Hlog).
  exists w'. split; [exact Hrun |].
  apply (Hlog (Some "OPEN")); [intros n; reflexivity | reflexivity | discriminate].
Defined.

(** C10, witness: a live account routed to Barclays adds a take-profit and
    the gateway refuses it. *)
Lemma provider_add_mark_survives_send_failure_witness :
  exists w' pp mid pre,
    add_takeprofit rt0 (refusing_ports barclays_cfg group_2_pips "socket") live_buy
      empty_world
    = (Ret (ProviderSendFailed "socket"), w')
    /\ reason (ProviderSendFailed "socket") = Some ("provider_send_failed:" ++ "socket")
    /\ hash_at (hashes w') (order_data_key (add_order_id rt0 live_buy)) !! "status"
       = Some "TAKEPROFIT"
    /\ hash_at (hashes w')
         (holdings_key (add_user_type rt0 live_buy) (add_user_id rt0 live_buy)
            (add_order_id rt0 live_buy)) !! "status" = Some "TAKEPROFIT"
    /\ outbox w' = outbox empty_world
    /\ calls w'
       = (CSend pp :: mid ++ CExecute (add_mark rt0 live_buy) :: pre ++ calls empty_world)%list.
Proof.
  apply (provider_add_mark_survives_send_failure rt0
           (refusing_ports barclays_cfg group_2_pips "socket") live_buy
           0x1.3333333333333p+0%float "socket" empty_world).
  - repeat split; vm_compute; reflexivity.
  - vm_compute. reflexivity.
  - intros n. reflexivity.
  - intros pp. reflexivity.
  - vm_compute. discriminate.
  - vm_compute. discriminate.
Defined.



(** C7, the code at two take-profits that are not positive numbers.  A NaN
    is not [<= 0], so line 49 lets it through: the request runs the local
    flow and stores a trigger whose score is NaN.  An integer too large for
    a float makes [_safe_float] raise [OverflowError] at line 48, which
    nothing catches: no result is returned at all. *)
Lemma take_profit_nan_or_huge_is_not_rejected :
  parse_number rt0 (dget demo_buy_nan "take_profit") = Some nan
  /\ (nan <=? 0)%float = false /\ (0 <? nan)%float = false
  /\ (add_takeprofit rt0 (quiet_ports ∅ group_2_pips) demo_buy_nan empty_world).1
     = Ret (AddedLocal "O1" "EURUSD" "BUY" nan nan)
  /\ triggers (add_takeprofit rt0 (quiet_ports ∅ group_2_pips) demo_buy_nan empty_world).2
       !! "O1"
     = Some (takeprofit_trigger "O1" "EURUSD" "BUY" "demo" "U1" nan nan)
  /\ length (calls (add_takeprofit rt0 (quiet_ports ∅ group_2_pips) demo_buy_nan
                      empty_world).2) = 6%nat
  /\ parse_number rt0 (dget demo_buy_huge "take_profit") = None
  /\ add_takeprofit rt0 (quiet_ports ∅ group_2_pips) demo_buy_huge empty_world
     = (Raise OverflowError, empty_world).
Proof. repeat split; vm_compute; reflexivity. Qed.

(** C9, the code at an order id with a leading space.  [add_takeprofit]
    keeps the id as it is (line 41) and [cancel_takeprofit] strips it (line
    246), so the cancel works on another order: after add and cancel, both
    accepted by every store, the trigger is still there, and the cache
    record of the order still carries its [take_profit] and no status.  The
    trace of calls shows the two ids: the upsert was for [" O1"], the removal
    and the pipeline are for ["O1"]. *)
Lemma add_then_cancel_keeps_trigger_of_padded_id :
  (add_takeprofit rt0 (quiet_ports ∅ group_2_pips) padded_buy empty_world).1
  = Ret (AddedLocal " O1" "EURUSD" "BUY" 0x1.3333333333333p+0%float
           0x1.3339c0ebedfa4p+0%float)
  /\ (cancel_takeprofit rt0 (quiet_ports ∅ group_2_pips) padded_cancel
        (add_takeprofit rt0 (quiet_ports ∅ group_2_pips) padded_buy empty_world).2).1
     = Ret (CancelledLocal "O1" "EURUSD" "BUY")
  /\ triggers
       (cancel_takeprofit rt0 (quiet_ports ∅ group_2_pips) padded_cancel
          (add_takeprofit rt0 (quiet_ports ∅ group_2_pips) padded_buy empty_world).2).2
       !! " O1"
     = Some (takeprofit_trigger " O1" "EURUSD" "BUY" "demo" "U1"
               0x1.3333333333333p+0%float 0x1.3339c0ebedfa4p+0%float)
  /\ hash_at
       (hashes
          (cancel_takeprofit rt0 (quiet_ports ∅ group_2_pips) padded_cancel
             (add_takeprofit rt0 (quiet_ports ∅ group_2_pips) padded_buy empty_world).2).2)
       (order_data_key " O1") !! "take_profit" = Some "1.2"
  /\ hash_at
       (hashes
          (cancel_takeprofit rt0 (quiet_ports ∅ group_2_pips) padded_cancel
             (add_takeprofit rt0 (quiet_ports ∅ group_2_pips) padded_buy empty_world).2).2)
       (order_data_key " O1") !! "status" = None
  /\ hash_at
       (hashes
          (cancel_takeprofit rt0 (quiet_ports ∅ group_2_pips) padded_cancel
             (add_takeprofit rt0 (quiet_ports ∅ group_2_pips) padded_buy empty_world).2).2)
       (holdings_key "demo" "U1" " O1") !! "take_profit" = Some "1.2"
  /\ calls (add_takeprofit rt0 (quiet_ports ∅ group_2_pips) padded_buy empty_world).2
       !! 3%nat
     = Some (CUpsert (takeprofit_trigger " O1" "EURUSD" "BUY" "demo" "U1"
                        0x1.3333333333333p+0%float 0x1.3339c0ebedfa4p+0%float))
  /\ take 3
       (calls
          (cancel_takeprofit rt0 (quiet_ports ∅ group_2_pips) padded_cancel
             (add_takeprofit rt0 (quiet_ports ∅ group_2_pips) padded_buy empty_world).2).2)
     = [CPublish {| ev_type := "ORDER_TAKEPROFIT_CANCEL"; ev_order_id := "O1";
                    ev_user_id := "U1"; ev_user_type := "demo"; ev_take_profit := None |};
        CExecute (clear_takeprofit_cmds "O1" "U1" "demo" "EURUSD" "BUY");
        CRemoveTrigger "O1"].
Proof. repeat split; vm_compute; reflexivity. Qed.


(** * Further properties of the module *)

(** ** Relations kept by every step of a computation *)

Lemma preserves_ret {A} (R : World -> World -> Prop) (a : A) :
  (forall w, R w w) -> preserves R (ret a).
Proof. intros Hrefl w. apply Hrefl. Qed.

Lemma preserves_lift {A} (R : World -> World -> Prop) (o : outcome A) :
  (forall w, R w w) -> preserves R (lift o).
Proof. intros Hrefl w. apply Hrefl. Qed.

Lemma preserves_bind {A B} (R : World -> World -> Prop) (m : M A) (k : A -> M B) :
  (forall w1 w2 w3, R w1 w2 -> R w2 w3 -> R w1 w3) ->
  preserves R m -> (forall a, preserves R (k a)) -> preserves R (bind m k).
Proof.
  intros Htrans Hm Hk w. unfold bind.
  specialize (Hm w). destruct (m w) as [[a | e] w1]; cbn in *; [| exact Hm].
  eapply Htrans; [exact Hm | apply Hk].
Qed.

Lemma preserves_try {A} (R : World -> World -> Prop) (m : M A) (h : exn -> M A) :
  (forall w1 w2 w3, R w1 w2 -> R w2 w3 -> R w1 w3) ->
  preserves R m -> (forall e, preserves R (h e)) -> preserves R (try_except m h).
Proof.
  intros Htrans Hm Hh w. unfold try_except.
  specialize (Hm w). destruct (m w) as [[a | e] w1]; cbn in *; [exact Hm |].
  eapply Htrans; [exact Hm | apply Hh].
Qed.

(** Walks through a computation built from [bind], [try_except], [ret],
    [lift] and case distinctions, leaving the port calls to [prim]. *)
Ltac preserve_with Hrefl Htrans prim :=
  repeat first
    [ solve [prim]
    | apply (preserves_ret _ _ Hrefl)
    | apply (preserves_lift _ _ Hrefl)
    | apply (preserves_bind _ _ _ Htrans); [| intros ?]
    | apply (preserves_try _ _ _ Htrans); [| intros ?]
    | match goal with
      | |- preserves _ (match ?x with _ => _ end) => destruct x
      end ].

(** Runs one port call on a world. *)
Ltac prim_run :=
  intros w; svc_red;
  repeat match goal with
         | |- context [match ?x with _ => _ end] =>
             lazymatch x with
             | context [match _ with _ => _ end] => fail
             | _ => destruct x
             end
         end;
  cbn.

(** *** The clock stands still *)

Lemma no_wait_refl w : no_wait w w.
Proof. split; [reflexivity |]. exists []. split; reflexivity. Qed.

Lemma no_wait_trans w1 w2 w3 : no_wait w1 w2 -> no_wait w2 w3 -> no_wait w1 w3.
Proof.
  intros [Hn1 (l1 & Hc1 & Hq1)] [Hn2 (l2 & Hc2 & Hq2)].
  split; [congruence |]. exists (l2 ++ l1)%list. split.
  - rewrite Hc2, Hc1. apply app_assoc.
  - rewrite forallb_app, Hq1, Hq2. reflexivity.
Qed.

Lemma no_wait_call c w w' :
  waits c = false -> now w' = now w -> calls w' = c :: calls w -> no_wait w w'.
Proof.
  intros Hc Hn Hcalls. split; [exact Hn |]. exists [c]. split; [exact Hcalls |].
  cbn. rewrite Hc. reflexivity.
Qed.

Ltac by_call := eapply no_wait_call; cycle 1; [reflexivity | reflexivity | reflexivity].

Section MoreProperties.
Context (rt : Runtime) (ports : Ports).

Lemma no_wait_log l t : preserves no_wait (log l t).
Proof. intros w. split; [reflexivity |]. exists []. split; reflexivity. Qed.

Lemma no_wait_fetch_user_config ut uid : preserves no_wait (fetch_user_config ports ut uid).
Proof. prim_run; by_call. Qed.

Lemma no_wait_fetch_group_data s g : preserves no_wait (fetch_group_data ports s g).
Proof. prim_run; by_call. Qed.

Lemma no_wait_upsert t : preserves no_wait (upsert_order_triggers ports t).
Proof. prim_run; by_call. Qed.

Lemma no_wait_remove oid : preserves no_wait (remove_takeprofit_trigger ports oid).
Proof. prim_run; by_call. Qed.

Lemma no_wait_hset k m : preserves no_wait (redis_hset ports k m).
Proof. prim_run; by_call. Qed.

Lemma no_wait_execute cmds : preserves no_wait (pipe_execute ports cmds).
Proof. prim_run; by_call. Qed.

Lemma no_wait_hgetall k : preserves no_wait (redis_hgetall ports k).
Proof. prim_run; by_call. Qed.

Lemma no_wait_hget k f : preserves no_wait (redis_hget ports k f).
Proof. prim_run; by_call. Qed.

Lemma no_wait_lifecycle a b c : preserves no_wait (add_lifecycle_id ports a b c).
Proof. prim_run; by_call. Qed.

Lemma no_wait_send p : preserves no_wait (send_provider_order ports p).
Proof. prim_run; by_call. Qed.

Lemma no_wait_publish e : preserves no_wait (publish ports e).
Proof. prim_run; by_call. Qed.

Ltac no_wait_prim :=
  first [ apply no_wait_log | apply no_wait_fetch_user_config | apply no_wait_fetch_group_data
        | apply no_wait_upsert | apply no_wait_remove | apply no_wait_hset
        | apply no_wait_execute | apply no_wait_hgetall | apply no_wait_hget
        | apply no_wait_lifecycle | apply no_wait_send | apply no_wait_publish ].

(** X1.  Neither method waits for the provider: whatever the payload and
    whatever the collaborators answer, [add_takeprofit] and
    [cancel_takeprofit] leave the clock where it was and issue no read of
    the acknowledgement channel and no sleep. *)
Theorem add_and_cancel_never_wait (p : gmap string value) (w : World) :
  no_wait w (add_takeprofit rt ports p w).2
  /\ no_wait w (cancel_takeprofit rt ports p w).2.
Proof.
  split.
  - revert w. change (preserves no_wait (add_takeprofit rt ports p)).
    unfold add_takeprofit, add_local, add_provider, resolve_quantities,
      resolve_contract_value, _compute_half_spread.
    cbv zeta.
    preserve_with no_wait_refl no_wait_trans no_wait_prim.
  - revert w. change (preserves no_wait (cancel_takeprofit rt ports p)).
    unfold cancel_takeprofit, cancel_local, cancel_provider, mark_cancel_status.
    cbv zeta.
    preserve_with no_wait_refl no_wait_trans no_wait_prim.
Qed.


(** *** Writes stay within the order *)

Lemma within_order_refl oid keys w : within_order oid keys w w.
Proof. split; reflexivity. Qed.

Lemma within_order_trans oid keys w1 w2 w3 :
  within_order oid keys w1 w2 -> within_order oid keys w2 w3 -> within_order oid keys w1 w3.
Proof.
  intros [Hh1 Ht1] [Hh2 Ht2]. split.
  - intros k Hk. rewrite Hh2, Hh1 by exact Hk. reflexivity.
  - intros o Ho. rewrite Ht2, Ht1 by exact Ho. reflexivity.
Qed.

Lemma apply_cmd_other c k (h : gmap string (gmap string string)) :
  cmd_key c <> k -> apply_cmd h c !! k = h !! k.
Proof.
  destruct c as [key m | key f]; cbn; intros Hne;
    unfold apply_hset, apply_hdel; apply lookup_insert_ne; exact Hne.
Qed.

Lemma foldl_apply_cmd_other cmds k :
  forall h : gmap string (gmap string string),
    Forall (fun c => cmd_key c <> k) cmds -> foldl apply_cmd h cmds !! k = h !! k.
Proof.
  induction cmds as [| c cmds IH]; intros h Hall; [reflexivity |].
  inversion Hall as [| ? ? Hc Hrest]; subst. cbn.
  rewrite IH by exact Hrest. apply apply_cmd_other, Hc.
Qed.

Lemma within_order_log oid keys l t : preserves (within_order oid keys) (log l t).
Proof. intros w. split; reflexivity. Qed.

Lemma within_order_fetch_user_config oid keys ut uid :
  preserves (within_order oid keys) (fetch_user_config ports ut uid).
Proof. prim_run. split; reflexivity. Qed.

Lemma within_order_fetch_group_data oid keys s g :
  preserves (within_order oid keys) (fetch_group_data ports s g).
Proof. prim_run; split; reflexivity. Qed.

Lemma within_order_hgetall oid keys k :
  preserves (within_order oid keys) (redis_hgetall ports k).
Proof. prim_run; split; reflexivity. Qed.

Lemma within_order_hget oid keys k f :
  preserves (within_order oid keys) (redis_hget ports k f).
Proof. prim_run; split; reflexivity. Qed.

Lemma within_order_lifecycle oid keys a b c :
  preserves (within_order oid keys) (add_lifecycle_id ports a b c).
Proof. prim_run; split; reflexivity. Qed.

Lemma within_order_send oid keys p :
  preserves (within_order oid keys) (send_provider_order ports p).
Proof. prim_run; split; reflexivity. Qed.

Lemma within_order_publish oid keys e :
  preserves (within_order oid keys) (publish ports e).
Proof. prim_run; split; reflexivity. Qed.

Lemma within_order_upsert oid keys t :
  trg_order_id t = oid -> preserves (within_order oid keys) (upsert_order_triggers ports t).
Proof.
  intros <-. prim_run; (split; [reflexivity |]); intros o Ho; [| reflexivity].
  apply lookup_insert_ne. congruence.
Qed.

Lemma within_order_remove oid keys :
  preserves (within_order oid keys) (remove_takeprofit_trigger ports oid).
Proof.
  prim_run; (split; [reflexivity |]); intros o Ho; [reflexivity |].
  apply lookup_delete_ne. congruence.
Qed.

Lemma within_order_hset oid keys k m :
  k ∈ keys -> preserves (within_order oid keys) (redis_hset ports k m).
Proof.
  intros Hk. prim_run; (split; [| reflexivity]); intros k' Hk'; [reflexivity |].
  unfold apply_hset. apply lookup_insert_ne. intros ->. contradiction.
Qed.

Lemma within_order_execute oid keys cmds :
  Forall (fun c => cmd_key c ∈ keys) cmds ->
  preserves (within_order oid keys) (pipe_execute ports cmds).
Proof.
  intros Hall. prim_run; (split; [| reflexivity]); intros k' Hk'; [reflexivity |].
  apply foldl_apply_cmd_other. eapply Forall_impl; [exact Hall |].
  intros c Hc Heq. apply Hk'. rewrite <- Heq. exact Hc.
Qed.

Ltac within_order_prim :=
  first [ apply within_order_log | apply within_order_fetch_user_config
        | apply within_order_fetch_group_data | apply within_order_hgetall
        | apply within_order_hget | apply within_order_lifecycle
        | apply within_order_send | apply within_order_publish
        | apply within_order_upsert; reflexivity
        | apply within_order_remove
        | apply within_order_hset; repeat constructor
        | apply within_order_execute;
          unfold mark_takeprofit_cmds, clear_takeprofit_cmds, mark_cancel_cmds;
          repeat (constructor; cbn [cmd_key]) ].

Lemma add_takeprofit_within_order p :
  preserves
    (within_order (add_order_id rt p)
       [order_data_key (add_order_id rt p);
        holdings_key (add_user_type rt p) (add_user_id rt p) (add_order_id rt p)])
    (add_takeprofit rt ports p).
Proof.
  unfold add_takeprofit, add_local, add_provider, resolve_quantities,
    resolve_contract_value, _compute_half_spread, add_order_id, add_user_type, add_user_id.
  cbv zeta.
  preserve_with (within_order_refl (py_str rt (dget p "order_id"))
                   [order_data_key (py_str rt (dget p "order_id"));
                    holdings_key (lower (py_str rt (dget p "user_type")))
                      (py_str rt (dget p "user_id")) (py_str rt (dget p "order_id"))])
                (within_order_trans (py_str rt (dget p "order_id"))
                   [order_data_key (py_str rt (dget p "order_id"));
                    holdings_key (lower (py_str rt (dget p "user_type")))
                      (py_str rt (dget p "user_id")) (py_str rt (dget p "order_id"))])
                within_order_prim.
Qed.

Lemma cancel_takeprofit_within_order p :
  preserves
    (within_order (cancel_order_id rt p)
       [order_data_key (cancel_order_id rt p);
        holdings_key (cancel_user_type rt p) (cancel_user_id rt p) (cancel_order_id rt p)])
    (cancel_takeprofit rt ports p).
Proof.
  unfold cancel_takeprofit, cancel_local, cancel_provider, mark_cancel_status,
    cancel_order_id, cancel_user_type, cancel_user_id.
  cbv zeta.
  preserve_with (within_order_refl (strip (py_str rt (dget p "order_id")))
                   [order_data_key (strip (py_str rt (dget p "order_id")));
                    holdings_key (strip (lower (py_str rt (dget p "user_type"))))
                      (strip (py_str rt (dget p "user_id")))
                      (strip (py_str rt (dget p "order_id")))])
                (within_order_trans (strip (py_str rt (dget p "order_id")))
                   [order_data_key (strip (py_str rt (dget p "order_id")));
                    holdings_key (strip (lower (py_str rt (dget p "user_type"))))
                      (strip (py_str rt (dget p "user_id")))
                      (strip (py_str rt (dget p "order_id")))])
                within_order_prim.
Qed.

Lemma order_data_key_inj a b : order_data_key a = order_data_key b -> a = b.
Proof. unfold order_data_key. intros H. cbn in H. injection H as H. exact H. Qed.

(** X2.  A request writes within its own order.  For every order id other
    than the one the method works on, [add_takeprofit] and
    [cancel_takeprofit] leave the trigger and the canonical cache record of
    that order as they were, for every payload and every behaviour of the
    collaborators. *)
Theorem other_orders_are_untouched (p : gmap string value) (w : World) (other : string) :
  (other <> add_order_id rt p ->
   triggers (add_takeprofit rt ports p w).2 !! other = triggers w !! other
   /\ hashes (add_takeprofit rt ports p w).2 !! order_data_key other
      = hashes w !! order_data_key other)
  /\ (other <> cancel_order_id rt p ->
      triggers (cancel_takeprofit rt ports p w).2 !! other = triggers w !! other
      /\ hashes (cancel_takeprofit rt ports p w).2 !! order_data_key other
         = hashes w !! order_data_key other).
Proof.
  split; intros Hne.
  - destruct (add_takeprofit_within_order p w) as [Hh Ht].
    split; [apply Ht, Hne |]. apply Hh.
    rewrite !elem_of_cons, elem_of_nil.
    intros [H | [H | []]].
    + apply order_data_key_inj in H. contradiction.
    + exact (order_data_key_not_holdings _ _ _ _ H).
  - destruct (cancel_takeprofit_within_order p w) as [Hh Ht].
    split; [apply Ht, Hne |]. apply Hh.
    rewrite !elem_of_cons, elem_of_nil.
    intros [H | [H | []]].
    + apply order_data_key_inj in H. contradiction.
    + exact (order_data_key_not_holdings _ _ _ _ H).
Qed.


(** *** Each flow keeps off the stores of the other *)

Lemma off_gateway_refl w : off_gateway w w.
Proof. split; reflexivity. Qed.

Lemma off_gateway_trans w1 w2 w3 : off_gateway w1 w2 -> off_gateway w2 w3 -> off_gateway w1 w3.
Proof. intros [? ?] [? ?]. split; congruence. Qed.

Lemma off_gateway_log l t : preserves off_gateway (log l t).
Proof. intros w. split; reflexivity. Qed.

Lemma off_gateway_fetch_group_data s g : preserves off_gateway (fetch_group_data ports s g).
Proof. prim_run; split; reflexivity. Qed.

Lemma off_gateway_upsert t : preserves off_gateway (upsert_order_triggers ports t).
Proof. prim_run; split; reflexivity. Qed.

Lemma off_gateway_remove oid : preserves off_gateway (remove_takeprofit_trigger ports oid).
Proof. prim_run; split; reflexivity. Qed.

Lemma off_gateway_hset k m : preserves off_gateway (redis_hset ports k m).
Proof. prim_run; split; reflexivity. Qed.

Lemma off_gateway_execute cmds : preserves off_gateway (pipe_execute ports cmds).
Proof. prim_run; split; reflexivity. Qed.

Lemma off_gateway_publish e : preserves off_gateway (publish ports e).
Proof. prim_run; split; reflexivity. Qed.

Ltac off_gateway_prim :=
  first [ apply off_gateway_log | apply off_gateway_fetch_group_data
        | apply off_gateway_upsert | apply off_gateway_remove | apply off_gateway_hset
        | apply off_gateway_execute | apply off_gateway_publish ].

Lemma add_local_off_gateway oid uid ut sym side tp hs :
  preserves off_gateway (add_local rt ports oid uid ut sym side tp hs).
Proof.
  unfold add_local. cbv zeta.
  preserve_with off_gateway_refl off_gateway_trans off_gateway_prim.
Qed.

Lemma cancel_local_off_gateway oid uid ut sym side :
  preserves off_gateway (cancel_local ports oid uid ut sym side).
Proof.
  unfold cancel_local.
  preserve_with off_gateway_refl off_gateway_trans off_gateway_prim.
Qed.

Lemma off_triggers_refl w : off_triggers w w.
Proof. repeat split. Qed.

Lemma off_triggers_trans w1 w2 w3 :
  off_triggers w1 w2 -> off_triggers w2 w3 -> off_triggers w1 w3.
Proof.
  intros (? & ? & H1) (? & ? & H2).
  split; [congruence |]. split; [congruence |].
  intros k. rewrite H2, H1. reflexivity.
Qed.

Lemma foldl_insert_other (f : string) (mapping : list (string * string)) :
  forall m : gmap string string,
    f ∉ mapping.*1 ->
    foldl (fun acc kv => <[kv.1 := kv.2]> acc) m mapping !! f = m !! f.
Proof.
  induction mapping as [| [k v] mapping IH]; intros m Hf; [reflexivity |].
  cbn in Hf. apply not_elem_of_cons in Hf. destruct Hf as [Hne Hf].
  cbn. rewrite IH by exact Hf. apply lookup_insert_ne. congruence.
Qed.

Lemma apply_cmd_spares f c k (h : gmap string (gmap string string)) :
  spares_field f c -> hash_at (apply_cmd h c) k !! f = hash_at h k !! f.
Proof.
  destruct c as [key m | key f']; cbn; intros Hs.
  - destruct (decide (key = k)) as [-> | Hne].
    + rewrite hash_at_hset_same. apply foldl_insert_other, Hs.
    + rewrite hash_at_hset_other by exact Hne. reflexivity.
  - destruct (decide (key = k)) as [-> | Hne].
    + rewrite hash_at_hdel_same. apply lookup_delete_ne, Hs.
    + rewrite hash_at_hdel_other by exact Hne. reflexivity.
Qed.

Lemma foldl_apply_cmd_spares f cmds k :
  forall h : gmap string (gmap string string),
    Forall (spares_field f) cmds ->
    hash_at (foldl apply_cmd h cmds) k !! f = hash_at h k !! f.
Proof.
  induction cmds as [| c cmds IH]; intros h Hall; [reflexivity |].
  inversion Hall as [| ? ? Hc Hrest]; subst. cbn.
  rewrite IH by exact Hrest. apply apply_cmd_spares, Hc.
Qed.

Lemma off_triggers_log l t : preserves off_triggers (log l t).
Proof. intros w. repeat split. Qed.

Lemma off_triggers_fetch_group_data s g : preserves off_triggers (fetch_group_data ports s g).
Proof. prim_run; repeat split. Qed.

Lemma off_triggers_hgetall k : preserves off_triggers (redis_hgetall ports k).
Proof. prim_run; repeat split. Qed.

Lemma off_triggers_hget k f : preserves off_triggers (redis_hget ports k f).
Proof. prim_run; repeat split. Qed.

Lemma off_triggers_lifecycle a b c : preserves off_triggers (add_lifecycle_id ports a b c).
Proof. prim_run; repeat split. Qed.

Lemma off_triggers_send p : preserves off_triggers (send_provider_order ports p).
Proof. prim_run; repeat split. Qed.

Lemma off_triggers_execute cmds :
  Forall (spares_field "take_profit") cmds -> preserves off_triggers (pipe_execute ports cmds).
Proof.
  intros Hall. prim_run; (split; [reflexivity |]); (split; [reflexivity |]);
    intros k; [reflexivity |].
  apply foldl_apply_cmd_spares, Hall.
Qed.

Lemma mark_cmds_spare_take_profit oid uid ut sym side cid :
  Forall (spares_field "take_profit") (mark_takeprofit_cmds oid uid ut sym side)
  /\ Forall (spares_field "take_profit") (mark_cancel_cmds oid uid ut sym side cid).
Proof.
  split; repeat constructor; cbn; rewrite ?not_elem_of_cons; repeat split;
    try discriminate; apply not_elem_of_nil.
Qed.

Ltac off_triggers_prim :=
  first [ apply off_triggers_log | apply off_triggers_fetch_group_data
        | apply off_triggers_hgetall | apply off_triggers_hget
        | apply off_triggers_lifecycle | apply off_triggers_send
        | apply off_triggers_execute; apply (mark_cmds_spare_take_profit _ _ _ _ _ EmptyString)
        | apply off_triggers_execute; apply mark_cmds_spare_take_profit ].

Lemma add_provider_off_triggers payload oid uid ut sym side grp tp hs :
  preserves off_triggers (add_provider rt ports payload oid uid ut sym side grp tp hs).
Proof.
  unfold add_provider, resolve_quantities, resolve_contract_value. cbv zeta.
  preserve_with off_triggers_refl off_triggers_trans off_triggers_prim.
Qed.

Lemma cancel_provider_off_triggers payload oid uid ut sym side :
  preserves off_triggers (cancel_provider rt ports payload oid uid ut sym side).
Proof.
  unfold cancel_provider, mark_cancel_status. cbv zeta.
  preserve_with off_triggers_refl off_triggers_trans off_triggers_prim.
Qed.

(** X3.  Each flow keeps off the stores of the other.  A validated request
    on the local flow sends nothing to the gateway and records nothing in the
    lifecycle registry; one on the provider flow leaves the trigger store,
    the event queue and the cached [take_profit] of every record as they
    were, so a provider cancel by itself cancels nothing locally. *)
Theorem flows_keep_to_their_stores (p : gmap string value) (tp_raw : float) (w : World) :
  (add_validated rt p tp_raw -> add_flow rt ports p = Some Local ->
   off_gateway w (add_takeprofit rt ports p w).2)
  /\ (add_validated rt p tp_raw -> add_flow rt ports p = Some Provider ->
      off_triggers w (add_takeprofit rt ports p w).2)
  /\ (cancel_validated rt p -> cancel_flow rt ports p = Some Local ->
      off_gateway w (cancel_takeprofit rt ports p w).2)
  /\ (cancel_validated rt p -> cancel_flow rt ports p = Some Provider ->
      off_triggers w (cancel_takeprofit rt ports p w).2).
Proof.
  split; [| split; [| split]].
  - intros Hval Hflow.
    destruct (add_takeprofit_local rt ports p tp_raw w Hval Hflow)
      as (w1 & -> & (Ht & Hh & Hq & Hr & Ho & _) & _).
    destruct (add_local_off_gateway (add_order_id rt p) (add_user_id rt p)
                (add_user_type rt p) (add_symbol rt p) (add_side rt p) tp_raw
                (add_half_spread rt ports p w) w1) as [H1 H2].
    split; congruence.
  - intros Hval Hflow.
    destruct (add_takeprofit_provider rt ports p tp_raw w Hval Hflow)
      as (w1 & -> & (Ht & Hh & Hq & Hr & Ho & _) & _).
    destruct (add_provider_off_triggers p (add_order_id rt p) (add_user_id rt p)
                (add_user_type rt p) (add_symbol rt p) (add_side rt p)
                (cfg_group (add_cfg rt ports p)) tp_raw
                (add_half_spread rt ports p w) w1) as (H1 & H2 & H3).
    split; [congruence |]. split; [congruence |].
    intros k. rewrite H3, Hh. reflexivity.
  - intros Hval Hflow.
    rewrite (cancel_takeprofit_validated rt ports p w Hval).
    unfold cancel_flow in Hflow. rewrite Hflow. cbv zeta.
    apply (cancel_local_off_gateway _ _ _ _ _ (set_calls _ w)).
  - intros Hval Hflow.
    rewrite (cancel_takeprofit_provider rt ports p w Hval Hflow).
    apply (cancel_provider_off_triggers _ _ _ _ _ _ (cancel_configured rt p w)).
Qed.

(** X4.  The local cancel is best-effort throughout: once validation and
    flow resolution have passed it reports success whatever the trigger
    store, Redis and the queue do, and it attempts all three steps, removal,
    cache pipeline and event, in that order, whichever of them raise. *)
Theorem local_cancel_always_reports_success (p : gmap string value) (w : World) :
  cancel_validated rt p ->
  cancel_flow rt ports p = Some Local ->
  exists w',
    cancel_takeprofit rt ports p w
    = (Ret (CancelledLocal (cancel_order_id rt p) (cancel_symbol rt p) (cancel_side rt p)),
       w')
    /\ ok (CancelledLocal (cancel_order_id rt p) (cancel_symbol rt p) (cancel_side rt p))
       = true
    /\ calls w'
       = CPublish {| ev_type := "ORDER_TAKEPROFIT_CANCEL";
                     ev_order_id := cancel_order_id rt p;
                     ev_user_id := cancel_user_id rt p;
                     ev_user_type := cancel_user_type rt p;
                     ev_take_profit := None |}
         :: CExecute (cancel_clear rt p)
         :: CRemoveTrigger (cancel_order_id rt p)
         :: CFetchUserConfig (cancel_user_type rt p) (cancel_user_id rt p)
         :: calls w.
Proof.
  intros Hval Hflow.
  rewrite (cancel_takeprofit_validated rt ports p w Hval).
  unfold cancel_flow in Hflow. rewrite Hflow. cbv zeta.
  unfold cancel_local. svc_red.
  repeat match goal with
         | |- context [raises ports ?n ?c] => destruct (raises ports n c)
         end;
    eexists; (split; [reflexivity | split; reflexivity]).
Qed.

(** ** The adjusted price when the spread is unknown *)




(** ** Which payload keys the methods look at *)

(** X6.  [add_takeprofit] looks at ten payload keys and
    [cancel_takeprofit] at seven.  Setting or removing any other key of the
    payload changes neither the result nor any effect. *)
Theorem only_listed_keys_are_read (p : gmap string value) (k : string) (v : value)
    (w : World) :
  (k ∉ add_reads ->
   add_takeprofit rt ports (<[k := v]> p) w = add_takeprofit rt ports p w
   /\ add_takeprofit rt ports (delete k p) w = add_takeprofit rt ports p w)
  /\ (k ∉ cancel_reads ->
      cancel_takeprofit rt ports (<[k := v]> p) w = cancel_takeprofit rt ports p w
      /\ cancel_takeprofit rt ports (delete k p) w = cancel_takeprofit rt ports p w).
Proof.
  split; intros Hk; unfold add_reads, cancel_reads, required_add, required_cancel in Hk;
    cbn [app] in Hk;
    repeat (apply not_elem_of_cons in Hk; destruct Hk as [? Hk]).
  - unfold add_takeprofit, add_provider, resolve_quantities, dget, missing_keys,
      required_add. cbn [List.filter].
    rewrite !lookup_insert_ne, !lookup_delete_ne by congruence. split; reflexivity.
  - unfold cancel_takeprofit, cancel_provider, dget, missing_keys, required_cancel.
    cbn [List.filter].
    rewrite !lookup_insert_ne, !lookup_delete_ne by congruence. split; reflexivity.
Qed.

(** ** What validation rejects, and in which order *)

(** X7.  Validation fails fast and in a fixed order: missing keys first,
    listed in the order of the required tuple, then the order type, then,
    for add only, the take-profit.  Each rejection is returned before any
    collaborator is called, so the world is untouched.  A key whose value is
    [None] is not missing. *)
Theorem validation_rejects_before_any_call (p : gmap string value) (w : World) :
  (missing_keys required_add p <> [] ->
   add_takeprofit rt ports p w = (Ret (MissingFields (missing_keys required_add p)), w))
  /\ (missing_keys required_add p = [] ->
      valid_side (add_side rt p) = false ->
      add_takeprofit rt ports p w = (Ret InvalidOrderType, w))
  /\ (missing_keys required_add p = [] ->
      valid_side (add_side rt p) = true ->
      parse_number rt (dget p "take_profit") = None ->
      _safe_float rt (dget p "take_profit") <> Raise OverflowError ->
      add_takeprofit rt ports p w = (Ret InvalidTakeProfit, w))
  /\ (forall tp_raw,
         missing_keys required_add p = [] ->
         valid_side (add_side rt p) = true ->
         parse_number rt (dget p "take_profit") = Some tp_raw ->
         (tp_raw <=? 0)%float = true ->
         add_takeprofit rt ports p w = (Ret InvalidTakeProfit, w))
  /\ (missing_keys required_cancel p <> [] ->
      cancel_takeprofit rt ports p w
      = (Ret (MissingFields (missing_keys required_cancel p)), w))
  /\ (missing_keys required_cancel p = [] ->
      valid_side (cancel_side rt p) = false ->
      cancel_takeprofit rt ports p w = (Ret InvalidOrderType, w))
  /\ (forall required k,
         k ∈ missing_keys required p <-> k ∈ required /\ p !! k = None).
Proof.
  destruct (add_takeprofit_rejects rt ports p w) as (H1 & H2 & H3 & H4).
  destruct (cancel_takeprofit_rejects rt ports p w) as (H5 & H6).
  repeat (split; [assumption |]).
  intros required k. unfold missing_keys.
  rewrite list_elem_of_In, List.filter_In, <- list_elem_of_In.
  destruct (p !! k); split; intros [? ?]; split; auto; discriminate.
Qed.


(** ** The waiter: what it returns, when, and at what cost *)

Lemma poll_once_world key expect w :
  (poll_once rt ports key expect w).2 = set_calls (cons (CGet key)) w.
Proof. destruct (poll_once_run rt ports key expect w) as (o & -> & _). reflexivity. Qed.

Lemma after_poll_world key expect w :
  after_poll rt ports key expect w
  = set_now (fun t => t + 100) (set_calls (cons CSleep) (set_calls (cons (CGet key)) w)).
Proof. unfold after_poll. rewrite poll_once_world. reflexivity. Qed.

Lemma poll_once_member key expect w s :
  (poll_once rt ports key expect w).1 = Ret (Some s) -> s ∈ expect.
Proof.
  destruct (poll_once_run rt ports key expect w) as (o & -> & Hiff & _). cbn.
  intros Ho. apply Hiff in Ho. destruct Ho as [_ (r & d & _ & _ & _ & _ & Hin)]. exact Hin.
Qed.

Lemma wait_loop_facts key expect deadline n :
  forall w,
    rounds (deadline - now w) = n ->
    reads_only w (wait_loop rt ports key expect deadline w).2
    /\ now w <= now (wait_loop rt ports key expect deadline w).2
    /\ (length (calls (wait_loop rt ports key expect deadline w).2)
        <= length (calls w) + 2 * n)%nat
    /\ match (wait_loop rt ports key expect deadline w).1 with
       | Some s =>
           s ∈ expect /\ now (wait_loop rt ports key expect deadline w).2 < deadline
       | None =>
           deadline <= now (wait_loop rt ports key expect deadline w).2
           /\ ((wait_loop rt ports key expect deadline w).2 = w
               \/ now (wait_loop rt ports key expect deadline w).2 < deadline + 100)
       end.
Proof.
  induction n as [| n IH]; intros w Hn; rewrite wait_loop_step.
  - destruct (Z_lt_dec (now w) deadline) as [Hlt | Hge].
    { rewrite rounds_succ in Hn by lia. discriminate. }
    cbn. repeat split; try lia. left. reflexivity.
  - destruct (Z_lt_dec (now w) deadline) as [Hlt | Hge].
    2:{ rewrite rounds_zero in Hn by lia. discriminate. }
    assert (Hnext : rounds (deadline - now (after_poll rt ports key expect w)) = n).
    { rewrite after_poll_now. rewrite rounds_succ in Hn by lia.
      injection Hn as <-. f_equal. lia. }
    assert (Hw1 : reads_only w (after_poll rt ports key expect w)
                  /\ now (after_poll rt ports key expect w) = now w + 100
                  /\ length (calls (after_poll rt ports key expect w))
                     = S (S (length (calls w)))).
    { rewrite after_poll_world. cbn. repeat split; reflexivity. }
    specialize (IH (after_poll rt ports key expect w) Hnext).
    revert IH Hw1.
    generalize (after_poll rt ports key expect w) as w1. intros w1 IH Hw1.
    destruct Hw1 as ((Ht1 & Hh1 & Hq1 & Hr1 & Ho1 & Hl1) & Hn1 & Hc1).
    destruct IH as ((Ht & Hh & Hq & Hr & Ho & Hl) & Hmono & Hlen & Hres).
    assert (Hrec :
      reads_only w (wait_loop rt ports key expect deadline w1).2
      /\ now w <= now (wait_loop rt ports key expect deadline w1).2
      /\ (length (calls (wait_loop rt ports key expect deadline w1).2)
          <= length (calls w) + 2 * S n)%nat
      /\ match (wait_loop rt ports key expect deadline w1).1 with
         | Some s =>
             s ∈ expect
             /\ now (wait_loop rt ports key expect deadline w1).2 < deadline
         | None =>
             deadline <= now (wait_loop rt ports key expect deadline w1).2
             /\ ((wait_loop rt ports key expect deadline w1).2 = w
                 \/ now (wait_loop rt ports key expect deadline w1).2 < deadline + 100)
         end).
    { split; [unfold reads_only; repeat split; congruence |].
      split; [lia |]. split; [lia |].
      destruct (wait_loop rt ports key expect deadline w1).1 as [s |]; [exact Hres |].
      destruct Hres as [Hd [Heq | Hlt']]; (split; [exact Hd |]); right; [| exact Hlt'].
      rewrite Heq, Hn1. lia. }
    destruct (poll_once rt ports key expect w).1 as [[s |] | e] eqn:Hpoll;
      try exact Hrec.
    cbn [fst snd]. rewrite poll_once_world. cbn.
    split; [repeat split |]. split; [lia |]. split; [lia |].
    split; [| exact Hlt].
    apply (poll_once_member key expect w), Hpoll.
Qed.

Lemma set_now_zero (w : World) : set_now (fun t => t + Z.of_N 0) w = w.
Proof. destruct w. unfold set_now. cbn. f_equal. lia. Qed.

Lemma poll_timed_run took key expect w :
  (poll_timed rt ports took key expect w).1 = (poll_once rt ports key expect w).1
  /\ (poll_timed rt ports took key expect w).2
     = set_now (fun t => t + Z.of_N (took (S (length (calls w)))))
         (set_calls (cons (CGet key)) w).
Proof.
  unfold poll_timed, bind, elapse, ret.
  destruct (poll_once_run rt ports key expect w) as (o & -> & _ & [-> | [s ->]]);
    split; reflexivity.
Qed.

Lemma after_poll_timed_world took key expect w :
  after_poll_timed rt ports took key expect w
  = set_now (fun t => t + Z.of_N (took (S (S (length (calls w))))))
      (set_now (fun t => t + 100)
         (set_calls (cons CSleep)
            (set_now (fun t => t + Z.of_N (took (S (length (calls w)))))
               (set_calls (cons (CGet key)) w)))).
Proof.
  unfold after_poll_timed. rewrite (proj2 (poll_timed_run took key expect w)). reflexivity.
Qed.

Lemma wait_loop_timed_step took key expect deadline w :
  wait_loop_timed rt ports took key expect deadline w
  = if Z_lt_dec (now w) deadline
    then match (poll_timed rt ports took key expect w).1 with
         | Ret (Some s) => (Some s, (poll_timed rt ports took key expect w).2)
         | _ => wait_loop_timed rt ports took key expect deadline (after_poll_timed rt ports took key expect w)
         end
    else (None, w).
Proof.
  rewrite wait_loop_timed_equation_1.
  destruct (Z_lt_dec (now w) deadline); cbn; [| reflexivity].
  destruct (poll_timed rt ports took key expect w).1 as [[s |] | e]; cbn;
    rewrite ?wait_loop_timed_unfold_eq; reflexivity.
Qed.

Lemma rounds_mono d d' : d <= d' -> (rounds d <= rounds d')%nat.
Proof.
  intros H. unfold rounds.
  assert ((d + 99) / 100 <= (d' + 99) / 100) by (apply Z.div_le_mono; lia).
  lia.
Qed.

Lemma concat_replicate_end {A} (pat : list A) n :
  (concat (replicate n pat) ++ pat = concat (replicate (S n) pat))%list.
Proof.
  induction n as [| n IH]; cbn; [rewrite app_nil_r; reflexivity |].
  rewrite <- app_assoc. f_equal. exact IH.
Qed.

Lemma wait_loop_timed_facts took key expect deadline m :
  forall w,
    (rounds (deadline - now w) <= m)%nat ->
    now w <= now (wait_loop_timed rt ports took key expect deadline w).2
    /\ (exists n,
           (n + match (wait_loop_timed rt ports took key expect deadline w).1 with
                | Some _ => 1
                | None => 0
                end <= m)%nat
           /\ calls (wait_loop_timed rt ports took key expect deadline w).2
              = (match (wait_loop_timed rt ports took key expect deadline w).1 with
                 | Some _ => [CGet key]
                 | None => []
                 end
                 ++ concat (replicate n [CSleep; CGet key]) ++ calls w)%list)
    /\ match (wait_loop_timed rt ports took key expect deadline w).1 with
       | Some s => s ∈ expect
       | None => deadline <= now (wait_loop_timed rt ports took key expect deadline w).2
       end.
Proof.
  induction m as [| m IH]; intros w Hm; rewrite wait_loop_timed_step;
    destruct (Z_lt_dec (now w) deadline) as [Hlt | Hge].
  - rewrite rounds_succ in Hm by lia. lia.
  - cbn. split; [lia |]. split; [exists 0%nat; split; [lia | reflexivity] | lia].
  - destruct (poll_timed_run took key expect w) as [Hres Hworld].
    assert (Hnext : (rounds (deadline - now (after_poll_timed rt ports took key expect w)) <= m)%nat).
    { rewrite after_poll_timed_world. cbn.
      rewrite rounds_succ in Hm by lia.
      pose proof (rounds_mono
                    (deadline
                     - (now w + Z.of_N (took (S (length (calls w)))) + 100
                        + Z.of_N (took (S (S (length (calls w)))))))
                    (deadline - now w - 100)) as Hmono.
      lia. }
    specialize (IH (after_poll_timed rt ports took key expect w) Hnext).
    assert (Hw1 : now w <= now (after_poll_timed rt ports took key expect w)
                  /\ calls (after_poll_timed rt ports took key expect w)
                     = ([CSleep; CGet key] ++ calls w)%list).
    { rewrite after_poll_timed_world. cbn. split; [lia | reflexivity]. }
    revert IH Hw1.
    generalize (after_poll_timed rt ports took key expect w) as w1. intros w1 IH [Hn1 Hc1].
    destruct IH as (Hmono & (n & Hn & Hcalls) & Hres1).
    assert (Hrec :
      now w <= now (wait_loop_timed rt ports took key expect deadline w1).2
      /\ (exists n0,
             (n0 + match (wait_loop_timed rt ports took key expect deadline w1).1 with
                   | Some _ => 1
                   | None => 0
                   end <= S m)%nat
             /\ calls (wait_loop_timed rt ports took key expect deadline w1).2
                = (match (wait_loop_timed rt ports took key expect deadline w1).1 with
                   | Some _ => [CGet key]
                   | None => []
                   end
                   ++ concat (replicate n0 [CSleep; CGet key]) ++ calls w)%list)
      /\ match (wait_loop_timed rt ports took key expect deadline w1).1 with
         | Some s => s ∈ expect
         | None => deadline <= now (wait_loop_timed rt ports took key expect deadline w1).2
         end).
    { split; [lia |]. split; [| exact Hres1].
      exists (S n). split; [lia |].
      rewrite Hcalls, Hc1, <- concat_replicate_end, <- !app_assoc. reflexivity. }
    rewrite Hres.
    destruct (poll_once rt ports key expect w).1 as [[s |] | e] eqn:Hpoll;
      try exact Hrec.
    cbn [fst snd]. rewrite Hworld. cbn.
    split; [lia |]. split; [exists 0%nat; split; [lia | reflexivity] |].
    apply (poll_once_member key expect w), Hpoll.
  - cbn. split; [lia |]. split; [exists 0%nat; split; [lia | reflexivity] | lia].
Qed.

Lemma wait_loop_timed_ideal key expect deadline n :
  forall w,
    rounds (deadline - now w) = n ->
    wait_loop_timed rt ports (fun _ => 0%N) key expect deadline w
    = wait_loop rt ports key expect deadline w.
Proof.
  induction n as [| n IH]; intros w Hn;
    rewrite wait_loop_timed_step, wait_loop_step;
    destruct (Z_lt_dec (now w) deadline) as [Hlt | Hge]; try reflexivity.
  - rewrite rounds_succ in Hn by lia. discriminate.
  - destruct (poll_timed_run (fun _ => 0%N) key expect w) as [Hres Hworld].
    assert (Hafter : after_poll_timed rt ports (fun _ => 0%N) key expect w
                     = after_poll rt ports key expect w).
    { rewrite after_poll_timed_world, after_poll_world, !set_now_zero. reflexivity. }
    rewrite Hres, Hworld, set_now_zero, Hafter, <- (poll_once_world key expect w).
    assert (Hnext : rounds (deadline - now (after_poll rt ports key expect w)) = n).
    { rewrite after_poll_now. rewrite rounds_succ in Hn by lia.
      injection Hn as <-. f_equal. lia. }
    destruct (poll_once rt ports key expect w).1 as [[s |] | e];
      [reflexivity | apply IH, Hnext | apply IH, Hnext].
Qed.

(** X8.  The waiter under a clock that every awaited call may advance.
    The clock never goes back.  The calls it issues are reads of the one key
    [provider:ack:<id>] alternating with sleeps, a read first, and the run
    ends right after the read that found the status or after a sleep; since
    each sleep lasts at least 100 ms, the number of reads is at most the
    number of 100 ms intervals that start before the deadline, none for a
    timeout that is zero or negative.  A status is returned only if it is
    one of the expected statuses in upper case, and no confirmation only
    once the clock has reached the deadline.  When no call takes longer than
    its nominal duration this is [_wait_for_provider_ack] as embedded
    above. *)
Theorem waiter_result_and_timing (took : nat -> N) (any_id : string)
    (expected_statuses : list value) (timeout_ms : Z) (w : World) :
  now w <= now (_wait_for_provider_ack_timed rt ports took any_id expected_statuses timeout_ms w).2
  /\ (exists n,
         (n + match (_wait_for_provider_ack_timed rt ports took any_id expected_statuses
                       timeout_ms w).1 with
              | Some _ => 1
              | None => 0
              end <= rounds timeout_ms)%nat
         /\ calls (_wait_for_provider_ack_timed rt ports took any_id expected_statuses timeout_ms w).2
            = (match (_wait_for_provider_ack_timed rt ports took any_id expected_statuses
                        timeout_ms w).1 with
               | Some _ => [CGet (ack_key any_id)]
               | None => []
               end
               ++ concat (replicate n [CSleep; CGet (ack_key any_id)]) ++ calls w)%list)
  /\ match (_wait_for_provider_ack_timed rt ports took any_id expected_statuses timeout_ms w).1 with
     | Some s => s ∈ expected_upper rt expected_statuses
     | None =>
         now w + timeout_ms
         <= now (_wait_for_provider_ack_timed rt ports took any_id expected_statuses timeout_ms w).2
     end
  /\ _wait_for_provider_ack_timed rt ports (fun _ => 0%N) any_id expected_statuses timeout_ms w
     = _wait_for_provider_ack rt ports any_id expected_statuses timeout_ms w.
Proof.
  unfold _wait_for_provider_ack_timed, _wait_for_provider_ack, ack_key, expected_upper.
  cbv zeta.
  destruct (wait_loop_timed_facts took ("provider:ack:" ++ any_id)
              (map (fun s => upper (py_str rt s)) expected_statuses)
              (now w + timeout_ms) (rounds timeout_ms) w)
    as (Hmono & Htrace & Hres).
  { apply Nat.eq_le_incl. f_equal. lia. }
  split; [exact Hmono |]. split; [exact Htrace |]. split; [exact Hres |].
  apply (wait_loop_timed_ideal _ _ _ (rounds timeout_ms)). f_equal. lia.
Qed.

(** X9.  The waiter only reads: it writes to no store and logs nothing,
    whatever it finds.  With no expected status it never confirms. *)
Theorem waiter_only_reads (any_id : string) (expected_statuses : list value)
    (timeout_ms : Z) (w : World) :
  reads_only w (_wait_for_provider_ack rt ports any_id expected_statuses timeout_ms w).2
  /\ (_wait_for_provider_ack rt ports any_id [] timeout_ms w).1 = None.
Proof.
  unfold _wait_for_provider_ack. cbv zeta. split.
  - destruct (wait_loop_facts ("provider:ack:" ++ any_id)
                (map (fun s => upper (py_str rt s)) expected_statuses)
                (now w + timeout_ms) (rounds timeout_ms) w)
      as (Hro & _).
    { f_equal. lia. }
    exact Hro.
  - destruct (wait_loop_facts ("provider:ack:" ++ any_id)
                (map (fun s => upper (py_str rt s)) [])
                (now w + timeout_ms) (rounds timeout_ms) w)
      as (_ & _ & _ & Hres).
    { f_equal. lia. }
    destruct (wait_loop rt ports _ _ _ w).1 as [s |]; [| reflexivity].
    destruct Hres as [Hin _]. cbn in Hin. apply elem_of_nil in Hin. contradiction.
Qed.

(** ** Normalisation of the request fields *)

Lemma upper_ascii_idem c : upper_ascii (upper_ascii c) = upper_ascii c.
Proof. destruct c as [[] [] [] [] [] [] [] []]; reflexivity. Qed.

Lemma lower_ascii_idem c : lower_ascii (lower_ascii c) = lower_ascii c.
Proof. destruct c as [[] [] [] [] [] [] [] []]; reflexivity. Qed.

Lemma isspace_upper_ascii c : isspace (upper_ascii c) = isspace c.
Proof. destruct c as [[] [] [] [] [] [] [] []]; reflexivity. Qed.

Lemma isspace_lower_ascii c : isspace (lower_ascii c) = isspace c.
Proof. destruct c as [[] [] [] [] [] [] [] []]; reflexivity. Qed.

Lemma upper_idem s : upper (upper s) = upper s.
Proof. induction s as [| c s IH]; cbn; [reflexivity |]. rewrite upper_ascii_idem, IH. reflexivity. Qed.

Lemma lower_idem s : lower (lower s) = lower s.
Proof. induction s as [| c s IH]; cbn; [reflexivity |]. rewrite lower_ascii_idem, IH. reflexivity. Qed.

Lemma lstrip_idem s : lstrip (lstrip s) = lstrip s.
Proof.
  induction s as [| c s IH]; cbn; [reflexivity |].
  destruct (isspace c) eqn:Hc; [exact IH |]. cbn. rewrite Hc. reflexivity.
Qed.

Lemma rstrip_cons c s :
  rstrip (String c s)
  = match rstrip s with
    | EmptyString => if isspace c then EmptyString else String c EmptyString
    | r => String c r
    end.
Proof. reflexivity. Qed.

Lemma rstrip_idem s : rstrip (rstrip s) = rstrip s.
Proof.
  induction s as [| c s IH]; [reflexivity |].
  rewrite rstrip_cons.
  destruct (rstrip s) as [| a r] eqn:Hr.
  - destruct (isspace c) eqn:Hc; [reflexivity |]. cbn. rewrite Hc. reflexivity.
  - rewrite rstrip_cons, IH. reflexivity.
Qed.

Lemma lstrip_rstrip_lstrip s : lstrip (rstrip (lstrip s)) = rstrip (lstrip s).
Proof.
  induction s as [| c s IH]; cbn; [reflexivity |].
  destruct (isspace c) eqn:Hc; [exact IH |].
  rewrite rstrip_cons. destruct (rstrip s); rewrite ?Hc; cbn; rewrite Hc; reflexivity.
Qed.

Lemma strip_idem s : strip (strip s) = strip s.
Proof. unfold strip. rewrite lstrip_rstrip_lstrip. apply rstrip_idem. Qed.

Lemma upper_lstrip s : upper (lstrip s) = lstrip (upper s).
Proof.
  induction s as [| c s IH]; cbn; [reflexivity |].
  rewrite isspace_upper_ascii. destruct (isspace c); [exact IH | reflexivity].
Qed.

Lemma lower_lstrip s : lower (lstrip s) = lstrip (lower s).
Proof.
  induction s as [| c s IH]; cbn; [reflexivity |].
  rewrite isspace_lower_ascii. destruct (isspace c); [exact IH | reflexivity].
Qed.

Lemma upper_rstrip s : upper (rstrip s) = rstrip (upper s).
Proof.
  induction s as [| c s IH]; cbn; [reflexivity |].
  rewrite <- IH, isspace_upper_ascii.
  destruct (rstrip s); cbn; [destruct (isspace c) |]; reflexivity.
Qed.

Lemma lower_rstrip s : lower (rstrip s) = rstrip (lower s).
Proof.
  induction s as [| c s IH]; cbn; [reflexivity |].
  rewrite <- IH, isspace_lower_ascii.
  destruct (rstrip s); cbn; [destruct (isspace c) |]; reflexivity.
Qed.

Lemma strip_upper_canonical s : strip (upper (strip (upper s))) = strip (upper s).
Proof.
  unfold strip at 2. rewrite upper_rstrip, upper_lstrip, upper_idem.
  apply strip_idem.
Qed.

Lemma strip_lower_canonical s : strip (lower (strip (lower s))) = strip (lower s).
Proof.
  unfold strip at 2. rewrite lower_rstrip, lower_lstrip, lower_idem.
  apply strip_idem.
Qed.

Ltac at_key :=
  repeat first [ rewrite lookup_insert_eq
               | rewrite lookup_insert_ne by (intros ?; discriminate) ];
  cbn [default from_option id].

(** X10.  The case of [user_type], [symbol] and [order_type] does not
    matter to either method, and surrounding whitespace in the five
    identifying fields does not matter to [cancel_takeprofit]: a request
    whose field already holds the form the method computes is handled
    exactly as the raw one, result and effects alike. *)
Theorem canonical_request_is_handled_alike (p : gmap string value) (s : string)
    (w : World) :
  add_takeprofit rt ports (<["user_type" := VStr (lower s)]> p) w
  = add_takeprofit rt ports (<["user_type" := VStr s]> p) w
  /\ add_takeprofit rt ports (<["symbol" := VStr (upper s)]> p) w
     = add_takeprofit rt ports (<["symbol" := VStr s]> p) w
  /\ add_takeprofit rt ports (<["order_type" := VStr (upper s)]> p) w
     = add_takeprofit rt ports (<["order_type" := VStr s]> p) w
  /\ cancel_takeprofit rt ports (<["order_id" := VStr (strip s)]> p) w
     = cancel_takeprofit rt ports (<["order_id" := VStr s]> p) w
  /\ cancel_takeprofit rt ports (<["user_id" := VStr (strip s)]> p) w
     = cancel_takeprofit rt ports (<["user_id" := VStr s]> p) w
  /\ cancel_takeprofit rt ports (<["user_type" := VStr (strip (lower s))]> p) w
     = cancel_takeprofit rt ports (<["user_type" := VStr s]> p) w
  /\ cancel_takeprofit rt ports (<["symbol" := VStr (strip (upper s))]> p) w
     = cancel_takeprofit rt ports (<["symbol" := VStr s]> p) w
  /\ cancel_takeprofit rt ports (<["order_type" := VStr (strip (upper s))]> p) w
     = cancel_takeprofit rt ports (<["order_type" := VStr s]> p) w.
Proof.
  repeat split;
    unfold add_takeprofit, add_provider, resolve_quantities, cancel_takeprofit,
      cancel_provider, dget, missing_keys, required_add, required_cancel;
    cbn [List.filter]; at_key; cbn [py_str];
    rewrite ?upper_idem, ?lower_idem, ?strip_idem, ?strip_upper_canonical,
      ?strip_lower_canonical;
    reflexivity.
Qed.

(** ** What a local add leaves in the cache and in the queue *)

Ltac at_field :=
  cbn [foldl fst snd];
  repeat first [ rewrite lookup_insert_eq
               | rewrite lookup_insert_ne by (intros ?; discriminate) ].

(** X11.  When no collaborator fails and the trigger store accepts the row,
    a local add mirrors the raw take-profit, as text, under [take_profit] of
    both the order record and the holdings record (the adjusted price goes to
    the trigger store only), leaves [status] of both records as it was, and
    puts exactly one [ORDER_TAKEPROFIT_SET] message in the queue, whose body
    carries the raw price when it is finite and [null] when it is a NaN or
    an infinity, which line 49 lets through. *)
Theorem local_add_mirrors_raw_price (p : gmap string value) (tp_raw : float) (w : World) :
  (forall n c, raises ports n c = None) ->
  add_validated rt p tp_raw ->
  add_flow rt ports p = Some Local ->
  upsert_accepts ports (add_trigger rt ports p tp_raw w) = true ->
  exists w',
    add_takeprofit rt ports p w
    = (Ret (AddedLocal (add_order_id rt p) (add_symbol rt p) (add_side rt p) tp_raw
              (add_adjusted rt ports p tp_raw w)), w')
    /\ hash_at (hashes w') (order_data_key (add_order_id rt p)) !! "take_profit"
       = Some (str_of_float rt tp_raw)
    /\ hash_at (hashes w')
         (holdings_key (add_user_type rt p) (add_user_id rt p) (add_order_id rt p))
         !! "take_profit" = Some (str_of_float rt tp_raw)
    /\ hash_at (hashes w') (order_data_key (add_order_id rt p)) !! "status"
       = hash_at (hashes w) (order_data_key (add_order_id rt p)) !! "status"
    /\ hash_at (hashes w')
         (holdings_key (add_user_type rt p) (add_user_id rt p) (add_order_id rt p))
         !! "status"
       = hash_at (hashes w)
           (holdings_key (add_user_type rt p) (add_user_id rt p) (add_order_id rt p))
           !! "status"
    /\ queue w'
       = {| body_type := "ORDER_TAKEPROFIT_SET"; body_order_id := add_order_id rt p;
            body_user_id := add_user_id rt p; body_user_type := add_user_type rt p;
            body_take_profit :=
              Some (if PrimFloat.is_finite tp_raw then JNumber tp_raw else JNull) |}
         :: queue w.
Proof.
  intros Hq Hval Hflow Hacc.
  destruct (add_takeprofit_local rt ports p tp_raw w Hval Hflow)
    as (w1 & -> & (_ & Hh & Hqu & _) & _).
  unfold add_trigger, add_adjusted in Hacc.
  unfold add_local. svc_red. rewrite Hacc. cbn [negb]. rewrite !Hq.
  eexists. split; [reflexivity |]. cbn. rewrite Hh, Hqu.
  rewrite !hash_at_hset_same.
  rewrite !(hash_at_hset_other (holdings_key _ _ _) (order_data_key _))
    by apply holdings_not_order_data_key.
  rewrite !(hash_at_hset_other (order_data_key _) (holdings_key _ _ _))
    by apply order_data_key_not_holdings.
  rewrite !hash_at_hset_same.
  repeat split; at_field; reflexivity.
Qed.

(** ** The message of a provider add *)

Lemma parse_number_safe_float v f :
  parse_number rt v = Some f -> _safe_float rt v = Ret (Some f).
Proof.
  intros H. destruct (_safe_float_parse rt v) as [-> | [_ Hn]]; congruence.
Qed.

(** X12.  On the provider flow, when the request itself carries a quantity
    and an entry price that parse, the order record is not read: the calls
    are the configuration lookup, the spread lookup, the optional lifecycle
    registration, the status pipeline, one more group lookup and the send.
    The message carries the request's quantity and the adjusted price, and
    its contract value is [contract_size * quantity * price], with a contract
    size of 1.0 when the group gives none, zero or something unparsable; the
    contract value is left out only when the group lookup raised or the
    contract size is an integer too large for a float. *)
Theorem provider_add_with_quantities (p : gmap string value) (tp_raw q e : float)
    (w : World) :
  add_validated rt p tp_raw ->
  add_flow rt ports p = Some Provider ->
  parse_number rt (dget p "order_quantity") = Some q ->
  parse_number rt (dget p "order_price") = Some e ->
  exists r pp w',
    add_takeprofit rt ports p w = (Ret r, w')
    /\ calls w'
       = (CSend pp
          :: CFetchGroupData (add_symbol rt p) (cfg_group (add_cfg rt ports p))
          :: CExecute (add_mark rt p)
          :: (if truthy (dget p "takeprofit_id")
              then [CAddLifecycle (add_order_id rt p) (py_str rt (dget p "takeprofit_id"))
                      "takeprofit_id"]
              else [])
          ++ CFetchGroupData (add_symbol rt p) (cfg_group (add_cfg rt ports p))
          :: CFetchUserConfig (add_user_type rt p) (add_user_id rt p) :: calls w)%list
    /\ pp_order_quantity pp = Some q
    /\ pp_takeprofit pp = Some (add_adjusted rt ports p tp_raw w)
    /\ match pp_contract_value pp with
       | Some cv =>
           cv = (contract_size_or_one rt
                   (group_data ports (add_symbol rt p) (cfg_group (add_cfg rt ports p)))
                 * q * e)%float
       | None =>
           (exists n, raises ports n
                        (CFetchGroupData (add_symbol rt p) (cfg_group (add_cfg rt ports p)))
                      <> None)
           \/ _safe_float rt
                (dget (group_data ports (add_symbol rt p) (cfg_group (add_cfg rt ports p)))
                   "contract_size") = Raise OverflowError
       end.
Proof.
  intros Hval Hflow Hq He.
  destruct (add_takeprofit_provider rt ports p tp_raw w Hval Hflow)
    as (w1 & -> & _ & Hc).
  apply parse_number_safe_float in Hq, He.
  unfold add_provider, resolve_quantities, resolve_contract_value.
  rewrite Hq, He. cbv zeta.
  unfold contract_size_or_one.
  destruct (_safe_float_parse rt
              (dget (group_data ports (add_symbol rt p) (cfg_group (add_cfg rt ports p)))
                 "contract_size")) as [Hcs | [Hcs _]];
    svc_red;
    (destruct (truthy (dget p "takeprofit_id")); svc_red;
     repeat (match goal with
             | |- context [raises ports ?n ?c] => destruct (raises ports n c) eqn:?
             end; cbv beta iota zeta);
     rewrite ?Hcs; cbv beta iota zeta;
     match goal with
     | |- context [send_reply ports ?m] => destruct (send_reply ports m) as [[] via] eqn:Hs
     end; cbv beta iota zeta;
     do 3 eexists; (split; [reflexivity |]); cbn; rewrite ?Hc;
     (split; [reflexivity |]); (split; [reflexivity |]); (split; [reflexivity |]);
     first [ reflexivity
           | right; reflexivity
           | match goal with
             | H : raises ports ?n (CFetchGroupData _ _) = Some _ |- _ =>
                 left; exists n; rewrite H; discriminate
             end ]).
Qed.

(** ** Cancelling twice *)

Lemma clear_takeprofit_cmds_idem oid uid ut sym side (h : gmap string (gmap string string)) :
  foldl apply_cmd (foldl apply_cmd h (clear_takeprofit_cmds oid uid ut sym side))
    (clear_takeprofit_cmds oid uid ut sym side)
  = foldl apply_cmd h (clear_takeprofit_cmds oid uid ut sym side).
Proof.
  pose proof (order_data_key_not_holdings oid ut uid oid) as Hne.
  unfold clear_takeprofit_cmds. cbn [foldl apply_cmd].
  generalize dependent (order_data_key oid). intros k1.
  generalize (holdings_key ut uid oid). intros k2 Hne.
  unfold apply_hset, apply_hdel, hash_at. cbn [foldl fst snd].
  apply map_eq. intros k.
  repeat (rewrite lookup_insert || rewrite lookup_delete || case_decide || subst
          || cbn [default from_option id]); try congruence.
  all: f_equal; apply map_eq; intros f;
    repeat (rewrite lookup_insert || rewrite lookup_delete || case_decide); congruence.
Qed.

(** X13.  A local cancel is idempotent on the stores: when no collaborator
    fails, cancelling a second time succeeds with the same result and leaves
    the trigger store, the cache and the outbox exactly as the first cancel
    left them.  Each run puts one more [ORDER_TAKEPROFIT_CANCEL] event in
    the queue. *)
Theorem local_cancel_is_idempotent (p : gmap string value) (w : World) :
  (forall n c, raises ports n c = None) ->
  cancel_validated rt p ->
  cancel_flow rt ports p = Some Local ->
  exists r w1 w2,
    cancel_takeprofit rt ports p w = (Ret r, w1)
    /\ cancel_takeprofit rt ports p w1 = (Ret r, w2)
    /\ ok r = true
    /\ triggers w2 = triggers w1
    /\ hashes w2 = hashes w1
    /\ outbox w2 = outbox w1
    /\ queue w1
       = {| body_type := "ORDER_TAKEPROFIT_CANCEL"; body_order_id := cancel_order_id rt p;
            body_user_id := cancel_user_id rt p; body_user_type := cancel_user_type rt p;
            body_take_profit := None |} :: queue w
    /\ queue w2
       = {| body_type := "ORDER_TAKEPROFIT_CANCEL"; body_order_id := cancel_order_id rt p;
            body_user_id := cancel_user_id rt p; body_user_type := cancel_user_type rt p;
            body_take_profit := None |} :: queue w1.
Proof.
  intros Hq Hval Hflow.
  assert (Hrun : forall w0, exists w0',
             cancel_takeprofit rt ports p w0
             = (Ret (CancelledLocal (cancel_order_id rt p) (cancel_symbol rt p)
                       (cancel_side rt p)), w0')
             /\ triggers w0' = delete (cancel_order_id rt p) (triggers w0)
             /\ hashes w0' = foldl apply_cmd (hashes w0) (cancel_clear rt p)
             /\ outbox w0' = outbox w0
             /\ queue w0'
                = {| body_type := "ORDER_TAKEPROFIT_CANCEL";
                     body_order_id := cancel_order_id rt p;
                     body_user_id := cancel_user_id rt p;
                     body_user_type := cancel_user_type rt p;
                     body_take_profit := None |} :: queue w0).
  { intros w0. rewrite (cancel_takeprofit_validated rt ports p w0 Hval).
    unfold cancel_flow in Hflow. rewrite Hflow. cbv zeta.
    unfold cancel_local. svc_red. rewrite !Hq.
    eexists. split; [reflexivity |]. repeat split. }
  destruct (Hrun w) as (w1 & H1 & Ht1 & Hh1 & Ho1 & Hq1).
  destruct (Hrun w1) as (w2 & H2 & Ht2 & Hh2 & Ho2 & Hq2).
  exists (CancelledLocal (cancel_order_id rt p) (cancel_symbol rt p) (cancel_side rt p)),
    w1, w2.
  split; [exact H1 |]. split; [exact H2 |]. split; [reflexivity |].
  split; [rewrite Ht2, Ht1; apply delete_delete_eq |].
  split; [rewrite Hh2, Hh1; apply clear_takeprofit_cmds_idem |].
  split; [exact Ho2 |]. split; assumption.
Qed.

(** ** A provider cancel the store confirms *)

(** X14.  On the provider flow, when the gateway accepts the cancel, no
    collaborator fails and the read-back sees the store as it is, the cancel
    succeeds and logs nothing above INFO: the verification can fail only
    when the read-back disagrees with the write.  The cancel id is
    registered only when it is not empty, and is written to the order record
    in either case. *)
Theorem provider_cancel_confirmed_by_store (p : gmap string value) (via : string)
    (w : World) :
  (forall n c, raises ports n c = None) ->
  cancel_validated rt p ->
  cancel_flow rt ports p = Some Provider ->
  send_reply ports (cancel_message rt p) = (true, via) ->
  hget_observes ports (order_data_key (cancel_order_id rt p)) "status" = None ->
  exists w' l,
    cancel_takeprofit rt ports p w
    = (Ret (CancelSentProvider (cancel_order_id rt p) (cancel_symbol rt p)
              (cancel_side rt p)), w')
    /\ logs w' = (l ++ logs w)%list
    /\ Forall (fun entry => entry.1 = INFO) l
    /\ outbox w' = cancel_message rt p :: outbox w
    /\ registry w'
       = (if String.eqb (cancel_cancel_id rt p) "" then registry w
          else (cancel_order_id rt p, cancel_cancel_id rt p, "takeprofit_cancel_id")
               :: registry w)
    /\ hash_at (hashes w') (order_data_key (cancel_order_id rt p)) !! "takeprofit_cancel_id"
       = Some (cancel_cancel_id rt p).
Proof.
  intros Hq Hval Hflow Hsend Hobs.
  rewrite (cancel_takeprofit_provider rt ports p w Hval Hflow).
  unfold cancel_provider, mark_cancel_status. cbv zeta.
  fold (cancel_cancel_id rt p) (cancel_takeprofit_id rt p).
  fold (cancel_message rt p).
  svc_red. rewrite Hsend.
  destruct (String.eqb (cancel_cancel_id rt p) "") eqn:Hcid; cbn [negb];
    repeat (cbv beta iota zeta; rewrite ?Hq, ?Hobs); cbn [hashes set_hashes set_logs set_calls set_outbox set_registry];
    rewrite (proj1 (mark_cancel_status_written _ _ _ _ _ _ _));
    rewrite bool_decide_eq_true_2 by reflexivity; cbv beta iota zeta;
    (do 2 eexists; split; [reflexivity |]; cbn;
     split; [exact (@eq_refl _ ([_; _; _; _; _] ++ _)%list) |];
     split; [repeat constructor |];
     split; [reflexivity |]; split; [reflexivity |];
     unfold mark_cancel_cmds; cbn [foldl apply_cmd];
     rewrite hash_at_hset_other by apply holdings_not_order_data_key;
     rewrite hash_at_hset_same; cbn [foldl fst snd]; apply lookup_insert_eq).
Qed.

(** ** Numbers too large for a float, on the provider flow *)

(** X15.  On the provider flow an [order_quantity] or [order_price] that is
    an integer too large for a float makes [add_takeprofit] raise
    [OverflowError] after the routing status has been written: both records
    read [TAKEPROFIT], while nothing has been sent, and the trigger store and
    the queue are untouched. *)
Theorem oversized_quantity_raises_after_marking (p : gmap string value) (tp_raw : float)
    (w : World) :
  add_validated rt p tp_raw ->
  add_flow rt ports p = Some Provider ->
  (forall n, raises ports n (CExecute (add_mark rt p)) = None) ->
  _safe_float rt (dget p "order_quantity") = Raise OverflowError
  \/ _safe_float rt (dget p "order_price") = Raise OverflowError ->
  exists w',
    add_takeprofit rt ports p w = (Raise OverflowError, w')
    /\ hash_at (hashes w') (order_data_key (add_order_id rt p)) !! "status"
       = Some "TAKEPROFIT"
    /\ hash_at (hashes w')
         (holdings_key (add_user_type rt p) (add_user_id rt p) (add_order_id rt p))
         !! "status" = Some "TAKEPROFIT"
    /\ outbox w' = outbox w
    /\ triggers w' = triggers w
    /\ queue w' = queue w.
Proof.
  intros Hval Hflow Hmark Hbig.
  destruct (add_takeprofit_provider rt ports p tp_raw w Hval Hflow)
    as (w1 & -> & (Ht0 & Hh0 & Hq0 & _ & Ho0 & _) & _).
  unfold add_provider. cbv zeta.
  destruct (lifecycle_step_run ports (truthy (dget p "takeprofit_id")) (add_order_id rt p)
              (py_str rt (dget p "takeprofit_id")) "takeprofit_id"
              "add_lifecycle_id takeprofit_id failed: %s" w1)
    as (w2 & H2 & Ht2 & Hh2 & Hq2 & Ho2 & _).
  rewrite (bind_ret_eq _ _ _ _ _ H2).
  destruct (mark_step_run ports
              (mark_takeprofit_cmds (add_order_id rt p) (add_user_id rt p)
                 (add_user_type rt p) (add_symbol rt p) (add_side rt p)) w2)
    as (w3 & H3 & Ht3 & Hq3 & Ho3 & _ & _ & Hh3).
  rewrite (bind_ret_eq _ _ _ _ _ H3).
  unfold add_mark in Hmark. rewrite Hmark in Hh3.
  assert (Hraise : resolve_quantities rt ports p (add_order_id rt p) w3
                   = (Raise OverflowError, w3)).
  { unfold resolve_quantities. svc_red.
    destruct Hbig as [Hb | Hb].
    - rewrite Hb. reflexivity.
    - rewrite Hb.
      destruct (_safe_float_cases rt (dget p "order_quantity")) as [[o ->] | ->];
        reflexivity. }
  rewrite (bind_raise_eq _ _ _ _ _ Hraise).
  exists w3. split; [reflexivity |].
  rewrite Hh3.
  destruct (mark_takeprofit_status (add_order_id rt p) (add_user_id rt p)
              (add_user_type rt p) (add_symbol rt p) (add_side rt p) (hashes w2))
    as [Hs1 Hs2].
  split; [exact Hs1 |]. split; [exact Hs2 |].
  split; [congruence |]. split; congruence.
Qed.

(** ** Quantities taken from the order record *)

Lemma _safe_float_hfield (od : gmap string string) f :
  _safe_float rt (hfield od f) = Ret (parse_number rt (hfield od f)).
Proof.
  unfold hfield. destruct (od !! f) as [s |]; [| reflexivity].
  cbn. destruct (float_of_str rt s); reflexivity.
Qed.

Lemma hfield_after_mark oid uid ut sym side f k (h : gmap string (gmap string string)) :
  f <> "status" -> f <> "symbol" -> f <> "order_type" ->
  hfield (hash_at (foldl apply_cmd h (mark_takeprofit_cmds oid uid ut sym side)) k) f
  = hfield (hash_at h k) f.
Proof.
  intros H1 H2 H3. unfold hfield.
  rewrite foldl_apply_cmd_spares; [reflexivity |].
  repeat constructor; cbn; rewrite ?not_elem_of_cons; repeat split;
    try congruence; apply not_elem_of_nil.
Qed.

Lemma marked_record_not_empty oid uid ut sym side (h : gmap string (gmap string string)) :
  hash_at (foldl apply_cmd h (mark_takeprofit_cmds oid uid ut sym side)) (order_data_key oid)
  <> ∅.
Proof.
  intros Hempty.
  pose proof (proj1 (mark_takeprofit_status oid uid ut sym side h)) as Hs.
  rewrite Hempty, lookup_empty in Hs. discriminate.
Qed.

(** X16.  On the provider flow, when the request carries no usable
    quantity and no collaborator fails, the order record is read exactly
    once, after the status has been written to it, and the calls are the
    same whatever the record holds, but for the second group lookup, which
    is made only when the record has no contract value that parses.  The
    message carries the quantity the record held before the request; it
    carries the record's contract value when there is one, and otherwise
    [contract_size * quantity * price] from the record's quantity and the
    request's price, or the record's when the request has none. *)
Theorem provider_add_falls_back_to_record (p : gmap string value) (tp_raw : float)
    (w : World) :
  (forall n c, raises ports n c = None) ->
  add_validated rt p tp_raw ->
  add_flow rt ports p = Some Provider ->
  _safe_float rt (dget p "order_quantity") = Ret None ->
  _safe_float rt (dget p "order_price") <> Raise OverflowError ->
  exists r pp w',
    add_takeprofit rt ports p w = (Ret r, w')
    /\ calls w'
       = (CSend pp
          :: match parse_number rt
                     (hfield (hash_at (hashes w) (order_data_key (add_order_id rt p)))
                        "contract_value") with
             | Some _ => []
             | None =>
                 [CFetchGroupData (add_symbol rt p) (cfg_group (add_cfg rt ports p))]
             end
          ++ CHGetAll (order_data_key (add_order_id rt p))
          :: CExecute (add_mark rt p)
          :: (if truthy (dget p "takeprofit_id")
              then [CAddLifecycle (add_order_id rt p)
                      (py_str rt (dget p "takeprofit_id")) "takeprofit_id"]
              else [])
          ++ CFetchGroupData (add_symbol rt p) (cfg_group (add_cfg rt ports p))
          :: CFetchUserConfig (add_user_type rt p) (add_user_id rt p)
          :: calls w)%list
    /\ pp_order_quantity pp
       = parse_number rt
           (hfield (hash_at (hashes w) (order_data_key (add_order_id rt p)))
              "order_quantity")
    /\ (forall cv,
           parse_number rt
             (hfield (hash_at (hashes w) (order_data_key (add_order_id rt p)))
                "contract_value") = Some cv ->
           pp_contract_value pp = Some cv)
    /\ (parse_number rt
          (hfield (hash_at (hashes w) (order_data_key (add_order_id rt p)))
             "contract_value") = None ->
        _safe_float rt
          (dget (group_data ports (add_symbol rt p) (cfg_group (add_cfg rt ports p)))
             "contract_size") <> Raise OverflowError ->
        pp_contract_value pp
        = match parse_number rt
                  (hfield (hash_at (hashes w) (order_data_key (add_order_id rt p)))
                     "order_quantity"),
                match parse_number rt (dget p "order_price") with
                | Some e => Some e
                | None =>
                    parse_number rt
                      (hfield (hash_at (hashes w) (order_data_key (add_order_id rt p)))
                         "order_price")
                end
          with
          | Some q, Some e =>
              Some (contract_size_or_one rt
                      (group_data ports (add_symbol rt p)
                         (cfg_group (add_cfg rt ports p))) * q * e)%float
          | _, _ => None
          end).
Proof.
  intros Hq Hval Hflow Hqty Hprice.
  destruct (add_takeprofit_provider rt ports p tp_raw w Hval Hflow)
    as (w1 & -> & (_ & Hh & _) & Hc).
  unfold add_provider, resolve_quantities, resolve_contract_value, contract_size_or_one.
  rewrite Hqty.
  destruct (_safe_float_parse rt (dget p "order_price")) as [Hoe | [Hoe _]];
    [| contradiction].
  rewrite Hoe.
  destruct (_safe_float_parse rt
              (dget (group_data ports (add_symbol rt p) (cfg_group (add_cfg rt ports p)))
                 "contract_size")) as [Hcs | [Hcs _]];
  svc_red;
  (destruct (truthy (dget p "takeprofit_id"));
    repeat (cbv beta iota zeta; rewrite ?Hq);
    cbn [hashes set_hashes set_logs set_calls set_outbox set_registry];
    rewrite ?_safe_float_hfield, ?Hh;
    rewrite ?hfield_after_mark by discriminate;
    rewrite (bool_decide_eq_false_2 _ (marked_record_not_empty _ _ _ _ _ _));
    destruct (parse_number rt (dget p "order_price"));
    destruct (parse_number rt (hfield _ "contract_value")) as [cv0 |] eqn:Hcv;
    repeat (cbv beta iota zeta; rewrite ?Hq, ?Hcs);
    try (destruct (parse_number rt (hfield _ "order_quantity")) eqn:Hoq;
         cbv beta iota zeta);
    try (destruct (parse_number rt (hfield _ "order_price")) eqn:Hop;
         cbv beta iota zeta);
    match goal with
    | |- context [send_reply ports ?m] => destruct (send_reply ports m) as [[] via] eqn:Hs
    end; cbv beta iota zeta;
    (do 3 eexists; split; [reflexivity |]; cbn;
     split; [rewrite Hc; reflexivity |];
     split; [reflexivity |];
     split; [intros cv Hcv'; try discriminate; injection Hcv' as <-; reflexivity |];
     intros Hnone Hno; try discriminate; try reflexivity; try (exfalso; apply Hno; reflexivity))).
Qed.

(** ** What can make a provider add fail *)

(** X17.  On the provider flow, with a quantity and a price that do not
    overflow, [add_takeprofit] always reaches the gateway, whichever of the
    other collaborators fail, and the gateway's answer alone decides the
    result: success when it accepts the message, [provider_send_failed] with
    its channel when it refuses.  The message is for the request's order,
    with status [TAKEPROFIT] and the adjusted price, and it is in the outbox
    only when accepted. *)
Theorem provider_add_fails_only_at_gateway (p : gmap string value) (tp_raw : float)
    (w : World) :
  add_validated rt p tp_raw ->
  add_flow rt ports p = Some Provider ->
  _safe_float rt (dget p "order_quantity") <> Raise OverflowError ->
  _safe_float rt (dget p "order_price") <> Raise OverflowError ->
  exists pp w',
    add_takeprofit rt ports p w
    = (Ret (if (send_reply ports pp).1
            then AddedProvider (add_order_id rt p) (add_symbol rt p) (add_side rt p)
                   (add_adjusted rt ports p tp_raw w)
            else ProviderSendFailed (send_reply ports pp).2), w')
    /\ (exists l, calls w' = CSend pp :: l)
    /\ outbox w' = (if (send_reply ports pp).1 then pp :: outbox w else outbox w)
    /\ pp_order_id pp = add_order_id rt p
    /\ pp_status pp = "TAKEPROFIT"
    /\ pp_takeprofit pp = Some (add_adjusted rt ports p tp_raw w).
Proof.
  intros Hval Hflow Hqty Hprice.
  destruct (add_takeprofit_provider rt ports p tp_raw w Hval Hflow)
    as (w1 & -> & (_ & _ & _ & _ & Ho & _) & Hc).
  destruct (add_provider_run rt ports p (add_order_id rt p) (add_user_id rt p)
              (add_user_type rt p) (add_symbol rt p) (add_side rt p)
              (cfg_group (add_cfg rt ports p)) tp_raw (add_half_spread rt ports p w) w1)
    as (w2 & mid & pre & Ho2 & _ & _ & Hc2 & _ & [[_ [Hb | Hb]] | Hsent]);
    [contradiction | contradiction |].
  destruct Hsent as (pp & Hid & Hst & Htp & Hrun).
  exists pp. rewrite Hrun. unfold add_adjusted.
  destruct (send_reply ports pp) as [[] via]; cbn [fst snd];
    eexists; (split; [reflexivity |]); cbn;
    (split; [eexists; reflexivity |]);
    (split; [congruence |]); repeat split; assumption.
Qed.

End MoreProperties.

(** X2, witness: the demo request and order [O2]. *)
Lemma other_orders_are_untouched_witness :
  triggers (add_takeprofit rt0 (quiet_ports ∅ group_2_pips) demo_buy recorded_world).2
    !! "O2" = triggers recorded_world !! "O2"
  /\ hashes (add_takeprofit rt0 (quiet_ports ∅ group_2_pips) demo_buy recorded_world).2
       !! order_data_key "O2"
     = hashes recorded_world !! order_data_key "O2".
Proof.
  destruct (other_orders_are_untouched rt0 (quiet_ports ∅ group_2_pips) demo_buy
              recorded_world "O2") as (Hadd & _).
  apply Hadd. vm_compute. discriminate.
Defined.

(** X3, witness: the demo request stays off the gateway. *)
Lemma flows_keep_to_their_stores_witness :
  off_gateway empty_world
    (add_takeprofit rt0 (quiet_ports ∅ group_2_pips) demo_buy empty_world).2.
Proof.
  destruct (flows_keep_to_their_stores rt0 (quiet_ports ∅ group_2_pips) demo_buy
              0x1.3333333333333p+0%float empty_world) as (Hlocal & _).
  apply Hlocal.
  - repeat split; vm_compute; reflexivity.
  - vm_compute. reflexivity.
Defined.

(** X4, witness: the demo cancel while Redis and the queue are down. *)
Lemma local_cancel_always_reports_success_witness :
  exists w',
    cancel_takeprofit rt0 (faulty_ports ∅ group_2_pips cache_or_queue_write) demo_cancel
      empty_world
    = (Ret (CancelledLocal "O1" "EURUSD" "BUY"), w').
Proof.
  destruct (local_cancel_always_reports_success rt0
              (faulty_ports ∅ group_2_pips cache_or_queue_write) demo_cancel empty_world)
    as (w' & Hrun & _).
  - split; vm_compute; reflexivity.
  - vm_compute. reflexivity.
  - exists w'. exact Hrun.
Defined.


(** X6, witness: a [comment] on the demo request. *)
Lemma only_listed_keys_are_read_witness :
  add_takeprofit rt0 (quiet_ports ∅ group_2_pips)
    (<["comment" := VStr "x"]> demo_buy) empty_world
  = add_takeprofit rt0 (quiet_ports ∅ group_2_pips) demo_buy empty_world
  /\ add_takeprofit rt0 (quiet_ports ∅ group_2_pips) (delete "comment" demo_buy)
       empty_world
     = add_takeprofit rt0 (quiet_ports ∅ group_2_pips) demo_buy empty_world.
Proof.
  destruct (only_listed_keys_are_read rt0 (quiet_ports ∅ group_2_pips) demo_buy
              "comment" (VStr "x") empty_world) as (Hadd & _).
  apply Hadd. apply (bool_decide_unpack _). vm_compute. exact I.
Defined.

(** X7, witness: the empty request. *)
Lemma validation_rejects_before_any_call_witness :
  add_takeprofit rt0 (quiet_ports ∅ group_2_pips) ∅ empty_world
  = (Ret (MissingFields (missing_keys required_add ∅)), empty_world).
Proof.
  destruct (validation_rejects_before_any_call rt0 (quiet_ports ∅ group_2_pips) ∅
              empty_world) as (Hmissing & _).
  apply Hmissing. vm_compute. discriminate.
Defined.

(** X11, witness: the demo request of the specification, and the same
    request with a NaN as take-profit, whose message carries [null]. *)
Lemma local_add_mirrors_raw_price_witness :
  (exists w',
      add_takeprofit rt0 (quiet_ports ∅ group_2_pips) demo_buy empty_world
      = (Ret (AddedLocal "O1" "EURUSD" "BUY" 0x1.3333333333333p+0%float
                0x1.3339c0ebedfa4p+0%float), w')
      /\ hash_at (hashes w') (order_data_key "O1") !! "take_profit" = Some "1.2"
      /\ queue w'
         = [{| body_type := "ORDER_TAKEPROFIT_SET"; body_order_id := "O1";
               body_user_id := "U1"; body_user_type := "demo";
               body_take_profit := Some (JNumber 0x1.3333333333333p+0%float) |}])
  /\ (exists w',
         add_takeprofit rt0 (quiet_ports ∅ group_2_pips) demo_buy_nan empty_world
         = (Ret (AddedLocal "O1" "EURUSD" "BUY" nan nan), w')
         /\ queue w'
            = [{| body_type := "ORDER_TAKEPROFIT_SET"; body_order_id := "O1";
                  body_user_id := "U1"; body_user_type := "demo";
                  body_take_profit := Some JNull |}]).
Proof.
  split.
  - destruct (local_add_mirrors_raw_price rt0 (quiet_ports ∅ group_2_pips) demo_buy
                0x1.3333333333333p+0%float empty_world)
      as (w' & Hrun & Hod & _ & _ & _ & Hqueue).
    + intros n c. reflexivity.
    + repeat split; vm_compute; reflexivity.
    + vm_compute. reflexivity.
    + vm_compute. reflexivity.
    + exists w'. split; [exact Hrun |]. split; [exact Hod |].
      rewrite Hqueue. vm_compute. reflexivity.
  - destruct (local_add_mirrors_raw_price rt0 (quiet_ports ∅ group_2_pips) demo_buy_nan
                nan empty_world)
      as (w' & Hrun & _ & _ & _ & _ & Hqueue).
    + intros n c. reflexivity.
    + repeat split; vm_compute; reflexivity.
    + vm_compute. reflexivity.
    + vm_compute. reflexivity.
    + exists w'. split; [rewrite Hrun; vm_compute; reflexivity |].
      rewrite Hqueue. vm_compute. reflexivity.
Defined.

(** X12, witness: a live request routed to Barclays, quantity 2 at 1.2. *)
Lemma provider_add_with_quantities_witness :
  exists r pp w',
    add_takeprofit rt0 (quiet_ports barclays_cfg group_2_pips) live_buy_sized empty_world
    = (Ret r, w')
    /\ pp_order_quantity pp = Some 2%float
    /\ head (calls w') = Some (CSend pp).
Proof.
  destruct (provider_add_with_quantities rt0 (quiet_ports barclays_cfg group_2_pips)
              live_buy_sized 0x1.3333333333333p+0%float 2%float
              0x1.3333333333333p+0%float empty_world)
    as (r & pp & w' & Hrun & Hcalls & Hqty & _).
  - repeat split; vm_compute; reflexivity.
  - vm_compute. reflexivity.
  - vm_compute. reflexivity.
  - vm_compute. reflexivity.
  - exists r, pp, w'. split; [exact Hrun |]. split; [exact Hqty |].
    rewrite Hcalls. reflexivity.
Defined.

(** X13, witness: the demo cancel, twice. *)
Lemma local_cancel_is_idempotent_witness :
  exists r w1 w2,
    cancel_takeprofit rt0 (quiet_ports ∅ group_2_pips) demo_cancel empty_world = (Ret r, w1)
    /\ cancel_takeprofit rt0 (quiet_ports ∅ group_2_pips) demo_cancel w1 = (Ret r, w2)
    /\ triggers w2 = triggers w1
    /\ hashes w2 = hashes w1.
Proof.
  destruct (local_cancel_is_idempotent rt0 (quiet_ports ∅ group_2_pips) demo_cancel
              empty_world)
    as (r & w1 & w2 & H1 & H2 & _ & Ht & Hh & _).
  - intros n c. reflexivity.
  - split; vm_compute; reflexivity.
  - vm_compute. reflexivity.
  - exists r, w1, w2. repeat split; assumption.
Defined.

(** X14, witness: a live account routed to Barclays cancels. *)
Lemma provider_cancel_confirmed_by_store_witness :
  exists w' l,
    cancel_takeprofit rt0 (quiet_ports barclays_cfg group_2_pips) live_cancel empty_world
    = (Ret (CancelSentProvider "O1" "EURUSD" "BUY"), w')
    /\ logs w' = (l ++ logs empty_world)%list
    /\ Forall (fun entry => entry.1 = INFO) l.
Proof.
  destruct (provider_cancel_confirmed_by_store rt0 (quiet_ports barclays_cfg group_2_pips)
              live_cancel "persistent" empty_world)
    as (w' & l & Hrun & Hlogs & Hinfo & _).
  - intros n c. reflexivity.
  - split; vm_compute; reflexivity.
  - vm_compute. reflexivity.
  - reflexivity.
  - reflexivity.
  - exists w', l. repeat split; assumption.
Defined.

(** X15, witness: a live request routed to Barclays whose quantity is
    [10 ** 400]. *)
Lemma oversized_quantity_raises_after_marking_witness :
  exists w',
    add_takeprofit rt0 (quiet_ports barclays_cfg group_2_pips) live_buy_oversized
      empty_world
    = (Raise OverflowError, w')
    /\ hash_at (hashes w') (order_data_key "O1") !! "status" = Some "TAKEPROFIT"
    /\ outbox w' = [].
Proof.
  destruct (oversized_quantity_raises_after_marking rt0
              (quiet_ports barclays_cfg group_2_pips) live_buy_oversized
              0x1.3333333333333p+0%float empty_world)
    as (w' & Hrun & Hst & _ & Hout & _).
  - repeat split; vm_compute; reflexivity.
  - vm_compute. reflexivity.
  - intros n. reflexivity.
  - left. vm_compute. reflexivity.
  - exists w'. repeat split; assumption.
Defined.

(** X16, witness: a live request without a quantity for an order whose
    record holds quantity 2 and contract value 2. *)
Lemma provider_add_falls_back_to_record_witness :
  exists r pp w',
    add_takeprofit rt0 (quiet_ports barclays_cfg group_2_pips) live_buy recorded_world
    = (Ret r, w')
    /\ calls w'
       = [CSend pp; CHGetAll "order_data:O1"; CExecute (add_mark rt0 live_buy);
          CFetchGroupData "EURUSD" "Standard"; CFetchUserConfig "live" "U1"]
    /\ pp_order_quantity pp = Some 2%float
    /\ pp_contract_value pp = Some 2%float.
Proof.
  destruct (provider_add_falls_back_to_record rt0 (quiet_ports barclays_cfg group_2_pips)
              live_buy 0x1.3333333333333p+0%float recorded_world)
    as (r & pp & w' & Hrun & Hcalls & Hqty & Hcv & _).
  - intros n c. reflexivity.
  - repeat split; vm_compute; reflexivity.
  - vm_compute. reflexivity.
  - vm_compute. reflexivity.
  - vm_compute. discriminate.
  - exists r, pp, w'. split; [exact Hrun |]. split; [| split].
    + rewrite Hcalls. vm_compute. reflexivity.
    + rewrite Hqty. vm_compute. reflexivity.
    + apply (Hcv 2%float). vm_compute. reflexivity.
Defined.

(** X17, witness: a live request routed to Barclays while Redis and the
    queue are down. *)
Lemma provider_add_fails_only_at_gateway_witness :
  exists w',
    add_takeprofit rt0 (faulty_ports barclays_cfg group_2_pips cache_or_queue_write)
      live_buy empty_world
    = (Ret (AddedProvider "O1" "EURUSD" "BUY" 0x1.3339c0ebedfa4p+0%float), w').
Proof.
  destruct (provider_add_fails_only_at_gateway rt0
              (faulty_ports barclays_cfg group_2_pips cache_or_queue_write) live_buy
              0x1.3333333333333p+0%float empty_world)
    as (pp & w' & Hrun & _).
  - repeat split; vm_compute; reflexivity.
  - vm_compute. reflexivity.
  - vm_compute. discriminate.
  - vm_compute. discriminate.
  - exists w'. rewrite Hrun. vm_compute. reflexivity.
Defined.

(** Under a slow [GET] the waiter confirms after the deadline: the record
    is there from the start, the deadline is 100 ms away, the reply takes
    500 ms, and the status is returned at 500 ms. *)
Example waiter_can_confirm_after_deadline :
  _wait_for_provider_ack_timed rt0 (acking_ports 0 cancelled_json) (fun _ => 500%N) "TP1"
    [VStr "cancelled"] 100 empty_world
  = (Some "CANCELLED",
     set_now (fun _ => 500) (set_calls (cons (CGet "provider:ack:TP1")) empty_world)).
Proof.
  unfold _wait_for_provider_ack_timed. cbv zeta.
  rewrite wait_loop_timed_step. vm_compute. reflexivity.
Qed.
